(** * A shallow embedding of the chat-session core of [ai_chat.cpp]

    The C++ file keeps one process-wide session in global variables and
    drives the llama.cpp engine through its C API.  Here the globals are
    the fields of a [state] record that every operation threads explicitly,
    the engine's own memory (its position-indexed cache of the single
    sequence 0) is a list of cells kept next to them, and every call into
    the engine is appended to a [trace].  Whatever the engine decides on
    its own (tokenisation, decode status, sampling, detokenisation) is a
    field of the [Engine] interface. *)

From Stdlib Require Import String Ascii.
From Stdlib Require Import Strings.Byte.
From Stdlib Require Import ZArith List Bool Lia.
Import ListNotations.
Local Open Scope Z_scope.

(** ** 32-bit [int] arithmetic *)

Module Int32.

Definition INT_MIN : Z := -2147483648.
Definition INT_MAX : Z := 2147483647.

(** Two's-complement wrap-around of a mathematical integer. *)
Definition wrap (z : Z) : Z := (z + 2147483648) mod 4294967296 - 2147483648.

Definition in_range (z : Z) : Prop := INT_MIN <= z <= INT_MAX.

Definition add (a b : Z) : Z := wrap (a + b).
Definition sub (a b : Z) : Z := wrap (a - b).
Definition neg (a : Z) : Z := wrap (- a).
(** C++ [/] on [int] truncates toward zero. *)
Definition div (a b : Z) : Z := wrap (Z.quot a b).
(** [(int) v.size()] *)
Definition of_size (n : nat) : Z := wrap (Z.of_nat n).

End Int32.

(** ** Configuration constants *)

Definition N_THREADS_MIN : Z := 2.
Definition N_THREADS_MAX : Z := 4.
Definition N_THREADS_HEADROOM : Z := 2.
Definition DEFAULT_CONTEXT_SIZE : Z := 256.
Definition OVERFLOW_HEADROOM : Z := 4.
Definition BATCH_SIZE : Z := 1.

(** ** Engine data *)

Definition llama_token := Z.
Definition llama_pos := Z.
Definition llama_seq_id := Z.

(** One slot of a [llama_batch], as filled by [common_batch_add]. *)
Record batch_entry := mk_entry {
  be_token : llama_token;
  be_pos : llama_pos;
  be_seq_ids : list llama_seq_id;
  be_logits : bool
}.

Definition llama_batch := list batch_entry.

(** One resident token of the engine's memory. *)
Record kv_cell := mk_cell {
  cell_seq : llama_seq_id;
  cell_pos : llama_pos;
  cell_token : llama_token
}.

Definition llama_memory := list kv_cell.

(** Opaque handles; a null pointer is [None]. *)
Definition llama_model := nat.
Definition llama_context := nat.
Definition llama_sampler := nat.

Record llama_context_params := mk_ctx_params {
  n_ctx : Z;
  n_batch : Z;
  n_ubatch : Z;
  n_threads : Z;
  n_threads_batch : Z
}.

Record llama_chat_message := mk_chat_message {
  role : string;
  content : string
}.

(** What the session asks of the engine.  None of these is defined in
    [ai_chat.cpp]; they are the black box the session drives. *)
Record Engine := {
  llama_model_load_from_file : string -> option llama_model;
  llama_init_from_model : llama_model -> llama_context_params -> option llama_context;
  llama_sampler_chain_init : llama_sampler;
  sysconf_nprocessors_onln : Z;
  common_tokenize : string -> list llama_token;
  (** status of [llama_decode] on the current memory and batch, 0 on success *)
  llama_decode_status : llama_memory -> llama_batch -> Z;
  llama_sampler_sample : llama_sampler -> llama_memory -> llama_token;
  llama_sampler_accept : llama_sampler -> llama_token -> llama_sampler;
  llama_vocab_is_eog : llama_token -> bool;
  common_token_to_piece : llama_token -> list byte
}.

(** Calls into the engine that change or release something, in the order
    they are made. *)
Inductive engine_call :=
| call_memory_clear
| call_memory_seq_rm (seq : llama_seq_id) (p0 p1 : llama_pos)
| call_memory_seq_add (seq : llama_seq_id) (p0 p1 : llama_pos) (delta : llama_pos)
| call_decode (batch : llama_batch) (status : Z)
| call_sampler_free
| call_batch_free
| call_free
| call_model_free
| call_backend_load_all_from_path (path : string)
| call_backend_init
| call_backend_free.

(** ** Global state *)

Record state := mk_state {
  g_model : option llama_model;
  g_context : option llama_context;
  g_batch : llama_batch;
  g_sampler : option llama_sampler;
  chat_msgs : list llama_chat_message;
  system_prompt_position : llama_pos;
  current_position : llama_pos;
  stop_generation_position : llama_pos;
  cached_token_chars : list byte;
  assistant_ss : list byte;
  (** the function-local [static std::string ret_buf] *)
  ret_buf : list byte;
  (** [llama_get_memory(g_context)] *)
  kv : llama_memory;
  trace : list engine_call
}.

Definition initial_state : state :=
  mk_state None None [] None [] 0 0 0 [] [] [] [] [].

(** Assignments to one global.  Each takes the record apart once, so that
    a chain of assignments evaluates from the inside out. *)

Definition set_g_model v (s : state) : state :=
  let '(mk_state m c b sa msgs spp cur stop cached ss rb mem tr) := s in
  mk_state v c b sa msgs spp cur stop cached ss rb mem tr.
Definition set_g_context v (s : state) : state :=
  let '(mk_state m c b sa msgs spp cur stop cached ss rb mem tr) := s in
  mk_state m v b sa msgs spp cur stop cached ss rb mem tr.
Definition set_g_batch v (s : state) : state :=
  let '(mk_state m c b sa msgs spp cur stop cached ss rb mem tr) := s in
  mk_state m c v sa msgs spp cur stop cached ss rb mem tr.
Definition set_g_sampler v (s : state) : state :=
  let '(mk_state m c b sa msgs spp cur stop cached ss rb mem tr) := s in
  mk_state m c b v msgs spp cur stop cached ss rb mem tr.
Definition set_chat_msgs v (s : state) : state :=
  let '(mk_state m c b sa msgs spp cur stop cached ss rb mem tr) := s in
  mk_state m c b sa v spp cur stop cached ss rb mem tr.
Definition set_system_prompt_position v (s : state) : state :=
  let '(mk_state m c b sa msgs spp cur stop cached ss rb mem tr) := s in
  mk_state m c b sa msgs v cur stop cached ss rb mem tr.
Definition set_current_position v (s : state) : state :=
  let '(mk_state m c b sa msgs spp cur stop cached ss rb mem tr) := s in
  mk_state m c b sa msgs spp v stop cached ss rb mem tr.
Definition set_stop_generation_position v (s : state) : state :=
  let '(mk_state m c b sa msgs spp cur stop cached ss rb mem tr) := s in
  mk_state m c b sa msgs spp cur v cached ss rb mem tr.
Definition set_cached_token_chars v (s : state) : state :=
  let '(mk_state m c b sa msgs spp cur stop cached ss rb mem tr) := s in
  mk_state m c b sa msgs spp cur stop v ss rb mem tr.
Definition set_assistant_ss v (s : state) : state :=
  let '(mk_state m c b sa msgs spp cur stop cached ss rb mem tr) := s in
  mk_state m c b sa msgs spp cur stop cached v rb mem tr.
Definition set_ret_buf v (s : state) : state :=
  let '(mk_state m c b sa msgs spp cur stop cached ss rb mem tr) := s in
  mk_state m c b sa msgs spp cur stop cached ss v mem tr.
Definition set_kv v (s : state) : state :=
  let '(mk_state m c b sa msgs spp cur stop cached ss rb mem tr) := s in
  mk_state m c b sa msgs spp cur stop cached ss rb v tr.
Definition log_call (call : engine_call) (s : state) : state :=
  let '(mk_state m c b sa msgs spp cur stop cached ss rb mem tr) := s in
  mk_state m c b sa msgs spp cur stop cached ss rb mem (tr ++ [call]).

(** ** Engine memory operations on sequence 0

    The engine's memory calls are declared in [llama.h] and implemented
    outside the repository.  Spec 4.1 describes what the shift asks of
    them: remove the positions of a half-open range from the engine's
    position-indexed memory, then move the remaining positions down.
    [llama.h] documents both calls on the range [[p0, p1)], where [p0 < 0]
    stands for 0 and [p1 < 0] for no upper bound. *)

Definition pos_in_range (p0 p1 : llama_pos) (p : llama_pos) : bool :=
  ((if p0 <? 0 then 0 else p0) <=? p) && ((p1 <? 0) || (p <? p1)).

Definition cell_selected (seq : llama_seq_id) (p0 p1 : llama_pos) (c : kv_cell) : bool :=
  (cell_seq c =? seq) && pos_in_range p0 p1 (cell_pos c).

(** Modelled from the spec: [llama_memory_seq_rm], absent from the
    repository, removes the tokens of the sequence whose position lies in
    the range. *)
Definition memory_seq_rm (seq : llama_seq_id) (p0 p1 : llama_pos) (m : llama_memory)
  : llama_memory :=
  filter (fun c => negb (cell_selected seq p0 p1 c)) m.

(** Modelled from the spec: [llama_memory_seq_add], absent from the
    repository, adds [delta] to the position of the tokens of the sequence
    in the range. *)
Definition memory_seq_add (seq : llama_seq_id) (p0 p1 delta : llama_pos) (m : llama_memory)
  : llama_memory :=
  map (fun c => if cell_selected seq p0 p1 c
                then mk_cell (cell_seq c) (Int32.add (cell_pos c) delta) (cell_token c)
                else c) m.

Definition llama_memory_clear (s : state) : state :=
  log_call call_memory_clear (set_kv [] s).

Definition llama_memory_seq_rm (seq : llama_seq_id) (p0 p1 : llama_pos) (s : state) : state :=
  log_call (call_memory_seq_rm seq p0 p1) (set_kv (memory_seq_rm seq p0 p1 (kv s)) s).

Definition llama_memory_seq_add (seq : llama_seq_id) (p0 p1 delta : llama_pos) (s : state)
  : state :=
  log_call (call_memory_seq_add seq p0 p1 delta)
           (set_kv (memory_seq_add seq p0 p1 delta (kv s)) s).

(** The cells a decoded batch leaves in memory: one per sequence id of
    each entry. *)
Definition cells_of_batch (b : llama_batch) : llama_memory :=
  flat_map (fun e => map (fun sq => mk_cell sq (be_pos e) (be_token e)) (be_seq_ids e)) b.

Definition common_batch_clear (s : state) : state := set_g_batch [] s.

Definition common_batch_add (id : llama_token) (pos : llama_pos)
    (seq_ids : list llama_seq_id) (logits : bool) (s : state) : state :=
  set_g_batch (g_batch s ++ [mk_entry id pos seq_ids logits]) s.

(** ** Helper functions of the session *)

Definition reset_long_term_states (clear_kv_cache : bool) (s : state) : state :=
  let s := set_chat_msgs [] s in
  let s := set_system_prompt_position 0 s in
  let s := set_current_position 0 s in
  match clear_kv_cache, g_context s with
  | true, Some _ => llama_memory_clear s
  | _, _ => s
  end.

Definition reset_short_term_states (s : state) : state :=
  let s := set_stop_generation_position 0 s in
  let s := set_cached_token_chars [] s in
  set_assistant_ss [] s.

Definition n_discard_of (s : state) : Z :=
  Int32.div (Int32.sub (current_position s) (system_prompt_position s)) 2.

Definition shift_context (s : state) : state :=
  let n_discard := n_discard_of s in
  let s := llama_memory_seq_rm 0 (system_prompt_position s)
             (Int32.add (system_prompt_position s) n_discard) s in
  let s := llama_memory_seq_add 0 (Int32.add (system_prompt_position s) n_discard)
             (current_position s) (Int32.neg n_discard) s in
  set_current_position (Int32.sub (current_position s) n_discard) s.

(** ** The session over an engine *)

Section Session.

Variable E : Engine.

(** [llama_decode(g_context, g_batch)].  Modelled from the spec: the call
    is the engine's; it reports a status, and on success the tokens of the
    batch are resident in the window at the positions the batch gives
    them. *)
Definition llama_decode (s : state) : Z * state :=
  let r := llama_decode_status E (kv s) (g_batch s) in
  let s := log_call (call_decode (g_batch s) r) s in
  (r, if r =? 0 then set_kv (kv s ++ cells_of_batch (g_batch s)) s else s).

(** The inner [for (int j = 0; j < cur_batch_size; j++)] of the driver. *)
Fixpoint fill_batch (n : nat) (j : Z) (tokens : list llama_token)
    (start_pos : llama_pos) (compute_last_logit : bool) (i : Z) (s : state) : state :=
  match n with
  | O => s
  | S n' =>
      let token_id := nth (Z.to_nat (Int32.add i j)) tokens 0 in
      let position := Int32.add (Int32.add start_pos i) j in
      let want_logit :=
        compute_last_logit && (Int32.add i j =? Z.of_nat (length tokens) - 1) in
      fill_batch n' (j + 1) tokens start_pos compute_last_logit i
        (common_batch_add token_id position [0] want_logit s)
  end.

(** The outer [for (int i = 0; i < (int)tokens.size(); i += BATCH_SIZE)],
    from index [i] on.  [iters] bounds the iterations still to run; the
    loop ends by its own test when given its trip count (lemma
    [decode_batches_fuel]). *)
Fixpoint decode_batches (iters : nat) (i : Z) (tokens : list llama_token)
    (start_pos : llama_pos) (compute_last_logit : bool) (s : state) : Z * state :=
  match iters with
  | O => (0, s)
  | S iters' =>
      if negb (i <? Int32.of_size (length tokens)) then (0, s)
      else
      let cur_batch_size :=
        Z.min (Int32.sub (Int32.of_size (length tokens)) i) BATCH_SIZE in
      let s := common_batch_clear s in
      let s :=
        if Int32.add (Int32.add start_pos i) cur_batch_size
             >=? DEFAULT_CONTEXT_SIZE - OVERFLOW_HEADROOM
        then shift_context s else s in
      let s := fill_batch (Z.to_nat cur_batch_size) 0 tokens start_pos
                 compute_last_logit i s in
      let (decode_result, s) := llama_decode s in
      if negb (decode_result =? 0) then (1, s)
      else decode_batches iters' (Int32.add i BATCH_SIZE) tokens start_pos
             compute_last_logit s
  end.

(** Number of values [0, BATCH_SIZE, 2 * BATCH_SIZE, ...] below [size]. *)
Definition trip_count (size : Z) : nat :=
  Z.to_nat ((size + BATCH_SIZE - 1) / BATCH_SIZE).

Definition decode_tokens_in_batches (tokens : list llama_token)
    (start_pos : llama_pos) (compute_last_logit : bool) (s : state) : Z * state :=
  decode_batches (trip_count (Int32.of_size (length tokens))) 0 tokens start_pos
    compute_last_logit s.

(** *** UTF-8 validation of a NUL-terminated string

    A [const unsigned char*] into the string is the list of bytes from
    the pointer on; behind the last byte sits the terminator. *)

Definition deref (bytes : list byte) : Z :=
  match bytes with
  | [] => 0
  | b :: _ => Z.of_N (Byte.to_N b)
  end.

(** [for (int i = 1; i < num; ++i)]: [n] continuation bytes, or [None]
    where the C++ code returns [false]. *)
Fixpoint check_continuation (n : nat) (bytes : list byte) : option (list byte) :=
  match n with
  | O => Some bytes
  | S n' =>
      if negb (Z.land (deref bytes) 0xC0 =? 0x80) then None
      else check_continuation n' (tl bytes)
  end.

(** The [if]/[else if] chain on the leading byte: the value given to
    [num], or [None] where the C++ code returns [false]. *)
Definition sequence_length (b : Z) : option nat :=
  if Z.land b 0x80 =? 0x00 then Some 1%nat
  else if Z.land b 0xE0 =? 0xC0 then Some 2%nat
  else if Z.land b 0xF0 =? 0xE0 then Some 3%nat
  else if Z.land b 0xF8 =? 0xF0 then Some 4%nat
  else None.

(** The [while] loop, which runs until the byte under the pointer is
    0x00; [None] when [fuel] iterations were not enough. *)
Fixpoint is_valid_utf8_loop (fuel : nat) (bytes : list byte) : option bool :=
  match fuel with
  | O => None
  | S fuel' =>
      if deref bytes =? 0x00 then Some true
      else
        match sequence_length (deref bytes) with
        | None => Some false
        | Some num =>
            match check_continuation (num - 1) (tl bytes) with
            | None => Some false
            | Some bytes' => is_valid_utf8_loop fuel' bytes'
            end
        end
  end.

(** Every iteration but the last consumes a byte, so one more than the
    length always suffices (lemma [is_valid_utf8_loop_total]). *)
Definition is_valid_utf8 (string : option (list byte)) : bool :=
  match string with
  | None => true
  | Some bytes =>
      match is_valid_utf8_loop (S (length bytes)) bytes with
      | Some r => r
      | None => false
      end
  end.

(** *** FFI exports *)

Definition LF : string := String (ascii_of_nat 10) EmptyString.

Definition init_ffi (backend_path : option string) (s : state) : state :=
  let s :=
    match backend_path with
    | Some path =>
        if negb (String.eqb path EmptyString)
        then log_call (call_backend_load_all_from_path path) s else s
    | None => s
    end in
  log_call call_backend_init s.

Definition load_model_ffi (model_path : option string) (s : state) : Z * state :=
  match model_path with
  | None => (1, s)
  | Some path =>
      let s := set_g_model (llama_model_load_from_file E path) s in
      match g_model s with
      | None => (1, s)
      | Some _ => (0, s)
      end
  end.

Definition prepare_session_ffi (s : state) : Z * state :=
  match g_model s with
  | None => (1, s)
  | Some model =>
      let n_threads :=
        Z.max N_THREADS_MIN
          (Z.min N_THREADS_MAX
             (Int32.sub (Int32.wrap (sysconf_nprocessors_onln E)) N_THREADS_HEADROOM)) in
      let ctx_params :=
        mk_ctx_params DEFAULT_CONTEXT_SIZE BATCH_SIZE BATCH_SIZE n_threads n_threads in
      let s := set_kv [] (set_g_context (llama_init_from_model E model ctx_params) s) in
      match g_context s with
      | None => (1, s)
      | Some _ =>
          let s := set_g_batch [] s in
          let s := set_g_sampler (Some (llama_sampler_chain_init E)) s in
          (0, s)
      end
  end.

Definition process_system_prompt_ffi (system_prompt : option string) (s : state)
  : Z * state :=
  match system_prompt, g_context s with
  | Some system_prompt, Some _ =>
      let s := reset_long_term_states true s in
      let s := reset_short_term_states s in
      let formatted_prompt := ("System: " ++ system_prompt ++ LF)%string in
      let system_tokens := common_tokenize E formatted_prompt in
      if Int32.of_size (length system_tokens) >? DEFAULT_CONTEXT_SIZE - OVERFLOW_HEADROOM
      then (1, s)
      else
        let (r, s) :=
          decode_tokens_in_batches system_tokens (current_position s) false s in
        if negb (r =? 0) then (2, s)
        else
          let s := set_current_position (Int32.of_size (length system_tokens)) s in
          let s := set_system_prompt_position (current_position s) s in
          (0, s)
  | _, _ => (1, s)
  end.

(** [std::vector::resize]: keeps the first [n] elements, pads with
    value-initialised ones when growing. *)
Definition vector_resize (n : nat) (v : list llama_token) : list llama_token :=
  firstn n v ++ repeat 0 (n - length v).

Definition process_user_prompt_ffi (user_prompt : option string) (n_predict : Z)
    (s : state) : Z * state :=
  match user_prompt, g_context s with
  | Some user_prompt, Some _ =>
      let s := reset_short_term_states s in
      let formatted_prompt :=
        ("User: " ++ user_prompt ++ LF ++ "Assistant: ")%string in
      let user_tokens := common_tokenize E formatted_prompt in
      let user_prompt_size := Int32.of_size (length user_tokens) in
      let max_batch_size := DEFAULT_CONTEXT_SIZE - OVERFLOW_HEADROOM in
      let user_tokens :=
        if user_prompt_size >? max_batch_size
        then vector_resize (Z.to_nat max_batch_size) user_tokens
        else user_tokens in
      let (r, s) :=
        decode_tokens_in_batches user_tokens (current_position s) true s in
      if negb (r =? 0) then (2, s)
      else
        let s := set_current_position
                   (Int32.add (current_position s) user_prompt_size) s in
        let s := set_stop_generation_position
                   (Int32.add (current_position s) n_predict) s in
        (0, s)
  | _, _ => (1, s)
  end.

(** What a caller reads through the [const char*] that [c_str()] gives
    for a [std::string]: the bytes before the first NUL. *)
Fixpoint c_str (bytes : list byte) : list byte :=
  match bytes with
  | [] => []
  | b :: rest => if Z.of_N (Byte.to_N b) =? 0x00 then [] else b :: c_str rest
  end.

(** Lines 320-333 of [generate_next_token_ffi]: the streaming assembler.
    The result is the string the returned [const char*] points to:
    [ret_buf.c_str()], which ends at the first NUL of [ret_buf], or the
    empty literal.  [cached_token_chars += ...], [ret_buf = ...] and
    [assistant_ss << ...] work on [std::string]s and carry every byte. *)
Definition emit_token_chars (new_token_chars : list byte) (s : state)
  : list byte * state :=
  let s := set_cached_token_chars (cached_token_chars s ++ new_token_chars) s in
  let s := set_ret_buf [] s in
  if is_valid_utf8 (Some (cached_token_chars s)) then
    let s := set_ret_buf (cached_token_chars s) s in
    let s := set_assistant_ss (assistant_ss s ++ cached_token_chars s) s in
    let s := set_cached_token_chars [] s in
    (c_str (ret_buf s), s)
  else ([], s).

(** [None] is the null pointer. *)
Definition generate_next_token_ffi (s : state) : option (list byte) * state :=
  match g_context s, g_sampler s with
  | Some _, Some sampler =>
      let s :=
        if current_position s >=? DEFAULT_CONTEXT_SIZE - OVERFLOW_HEADROOM
        then shift_context s else s in
      if current_position s >=? stop_generation_position s then (None, s)
      else
        let new_token_id := llama_sampler_sample E sampler (kv s) in
        let s := set_g_sampler (Some (llama_sampler_accept E sampler new_token_id)) s in
        let s := common_batch_clear s in
        let s := common_batch_add new_token_id (current_position s) [0] true s in
        let (r, s) := llama_decode s in
        if negb (r =? 0) then (None, s)
        else
          let s := set_current_position (Int32.add (current_position s) 1) s in
          if llama_vocab_is_eog E new_token_id then (None, s)
          else
            let new_token_chars := common_token_to_piece E new_token_id in
            let (chunk, s) := emit_token_chars new_token_chars s in
            (Some chunk, s)
  | _, _ => (None, s)
  end.

Definition stop_generation_ffi (s : state) : state :=
  reset_short_term_states s.

Definition reset_conversation_ffi (s : state) : state :=
  reset_short_term_states (reset_long_term_states true s).

Definition unload_ffi (s : state) : state :=
  let s := reset_long_term_states false s in
  let s := reset_short_term_states s in
  let s :=
    match g_sampler s with
    | Some _ => set_g_sampler None (log_call call_sampler_free s)
    | None => s
    end in
  let s :=
    match g_context s with
    | Some _ =>
        let s := log_call call_batch_free s in
        let s := log_call call_free s in
        set_kv [] (set_g_context None s)
    | None => s
    end in
  match g_model s with
  | Some _ => set_g_model None (log_call call_model_free s)
  | None => s
  end.

Definition shutdown_ffi (s : state) : state :=
  log_call call_backend_free (unload_ffi s).

End Session.

(** ** Vocabulary of the properties *)

(** The frees [unload_ffi] owes a state. *)
Definition frees_of (s : state) : list engine_call :=
  (match g_sampler s with Some _ => [call_sampler_free] | None => [] end)
  ++ (match g_context s with Some _ => [call_batch_free; call_free] | None => [] end)
  ++ (match g_model s with Some _ => [call_model_free] | None => [] end).

(** UTF-8 as the standard lays it out, by byte ranges: a continuation
    byte is 80..BF; a leading byte C0..DF opens a sequence of two bytes,
    E0..EF of three, F0..F7 of four. *)
Definition is_continuation (b : byte) : bool :=
  let v := Z.of_N (Byte.to_N b) in (0x80 <=? v) && (v <=? 0xBF).

Definition lead_length (b : byte) : option nat :=
  let v := Z.of_N (Byte.to_N b) in
  if (0xC0 <=? v) && (v <=? 0xDF) then Some 2%nat
  else if (0xE0 <=? v) && (v <=? 0xEF) then Some 3%nat
  else if (0xF0 <=? v) && (v <=? 0xF7) then Some 4%nat
  else None.

(** One character encoded on two, three or four bytes: a leading byte
    that announces the length, then that many continuation bytes less
    one. *)
Definition is_multibyte_char (ch : list byte) : bool :=
  match ch with
  | [] => false
  | lead :: conts =>
      match lead_length lead with
      | Some num => (length conts =? num - 1)%nat && forallb is_continuation conts
      | None => false
      end
  end.

(** The first byte of a character encoded on one byte: 00..7F. *)
Definition is_ascii (b : byte) : bool :=
  Z.of_N (Byte.to_N b) <=? 0x7F.

(** Text in UTF-8 by the rule of the validator's documentation: a run of
    characters, each one byte 00..7F or a leading byte with the
    continuation bytes it announces. *)
Inductive utf8_text : list byte -> Prop :=
| utf8_text_nil : utf8_text []
| utf8_text_ascii b rest :
    is_ascii b = true -> utf8_text rest -> utf8_text (b :: rest)
| utf8_text_multibyte ch rest :
    is_multibyte_char ch = true -> utf8_text rest -> utf8_text (ch ++ rest).

(** What a shift does to the memory of a state whose positions are
    [spp <= cur]. *)
Definition shifted (spp cur : Z) (m : llama_memory) : llama_memory :=
  let nd := (cur - spp) / 2 in
  memory_seq_add 0 (spp + nd) cur (- nd) (memory_seq_rm 0 spp (spp + nd) m).

(** A well-formed window below [c]: tokens of sequence 0 at pairwise
    distinct positions of [[0, c)]. *)
Definition window_ok (m : llama_memory) (c : Z) : Prop :=
  NoDup (map cell_pos m) /\
  Forall (fun x => cell_seq x = 0 /\ 0 <= cell_pos x < c) m.

(** Where a surviving token of sequence 0 ends up. *)
Definition renumbered (spp cur : Z) (p : Z) : Z :=
  if (spp + (cur - spp) / 2 <=? p) && (p <? cur) then p - (cur - spp) / 2 else p.

(** The globals the driver never assigns. *)
Definition frame (s : state) :=
  (g_model s, g_context s, g_sampler s, chat_msgs s, system_prompt_position s,
   stop_generation_position s, cached_token_chars s, assistant_ss s, ret_buf s).

(** The batches the engine decoded successfully, oldest first. *)
Definition decoded (tr : list engine_call) : list llama_batch :=
  flat_map (fun c => match c with
                     | call_decode b 0 => [b]
                     | _ => []
                     end) tr.

(** The batch entry and the memory cell of the [k]-th token of a sequence
    decoded from [start_pos]. *)
Definition entry_at (tokens : list llama_token) (start_pos : llama_pos) (cll : bool)
    (k : nat) : batch_entry :=
  mk_entry (nth k tokens 0) (start_pos + Z.of_nat k) [0]
    (cll && (Z.of_nat k =? Z.of_nat (length tokens) - 1)).

Definition cell_at (tokens : list llama_token) (start_pos : llama_pos) (k : nat)
  : kv_cell :=
  mk_cell 0 (start_pos + Z.of_nat k) (nth k tokens 0).

Definition system_tokens (E : Engine) (system_prompt : string) : list llama_token :=
  common_tokenize E ("System: " ++ system_prompt ++ LF)%string.

Definition user_tokens (E : Engine) (user_prompt : string) : list llama_token :=
  common_tokenize E ("User: " ++ user_prompt ++ LF ++ "Assistant: ")%string.

(** The tokens of the successfully decoded batches, in decode order. *)
Definition decoded_tokens (tr : list engine_call) : list llama_token :=
  map be_token (concat (decoded tr)).

(** The tokens [process_user_prompt_ffi] hands to the driver. *)
Definition user_tokens_kept (E : Engine) (user_prompt : string) : list llama_token :=
  if Int32.of_size (length (user_tokens E user_prompt))
       >? DEFAULT_CONTEXT_SIZE - OVERFLOW_HEADROOM
  then firstn 252 (user_tokens E user_prompt)
  else user_tokens E user_prompt.

(** ** The generation loop as the caller drives it *)

(** [n] calls of [generate_next_token_ffi], with what each returned. *)
Fixpoint generate_calls (E : Engine) (n : nat) (s : state)
  : list (option (list byte)) * state :=
  match n with
  | O => ([], s)
  | S n' =>
      let (chunk, s) := generate_next_token_ffi E s in
      let (chunks, s) := generate_calls E n' s in
      (chunk :: chunks, s)
  end.

(** How many of the calls returned text rather than the null pointer. *)
Definition text_chunks (chunks : list (option (list byte))) : nat :=
  length (filter (fun c => match c with Some _ => true | None => false end) chunks).

(** A checker for [window_ok]. *)
Fixpoint distinct (l : list Z) : bool :=
  match l with
  | [] => true
  | x :: l' => negb (existsb (Z.eqb x) l') && distinct l'
  end.

Definition window_okb (m : llama_memory) (c : Z) : bool :=
  distinct (map cell_pos m)
  && forallb (fun x => (cell_seq x =? 0) && (0 <=? cell_pos x) && (cell_pos x <? c)) m.

(** ** A byte-level engine, to run the session on concrete prompts

    One token per byte of the text; a decode succeeds as long as the
    memory has room within its 256 cells; the sampler always draws the
    token of the letter [a]; token 0 ends generation. *)

Module ByteEngine.

Definition tokenize (text : string) : list llama_token :=
  map (fun ch => Z.of_N (N_of_ascii ch)) (list_ascii_of_string text).

Definition piece (t : llama_token) : list byte :=
  match Byte.of_N (Z.to_N t) with
  | Some b => [b]
  | None => []
  end.

Definition engine : Engine := {|
  llama_model_load_from_file := fun _ => Some 1%nat;
  llama_init_from_model := fun _ _ => Some 1%nat;
  llama_sampler_chain_init := 0%nat;
  sysconf_nprocessors_onln := 8;
  common_tokenize := tokenize;
  llama_decode_status :=
    fun m b => if (length m + length b <=? 256)%nat then 0 else 1;
  llama_sampler_sample := fun _ _ => 97;
  llama_sampler_accept := fun sm _ => S sm;
  llama_vocab_is_eog := fun t => t =? 0;
  common_token_to_piece := piece
|}.

(** A text of [n] letters [x]. *)
Definition letters (n : nat) : string :=
  string_of_list_ascii (repeat "x"%char n).

(** load model, prepare session *)
Definition prepared : state :=
  snd (prepare_session_ffi engine
         (snd (load_model_ffi engine (Some "model.gguf"%string) initial_state))).

(** ... then a system prompt of one letter, which makes 10 tokens *)
Definition with_system_prompt : state :=
  snd (process_system_prompt_ffi engine (Some "S"%string) prepared).

(** ... then the user prompt [Hi], which makes 20 tokens, for 5 tokens
    of answer. *)
Definition after_hi : state :=
  snd (process_user_prompt_ffi engine (Some "Hi"%string) 5 with_system_prompt).

End ByteEngine.

(** ** Vocabulary of the further properties *)

(** Every [llama_decode] call of a trace with its status, oldest first. *)
Definition decode_calls (tr : list engine_call) : list (llama_batch * Z) :=
  flat_map (fun c => match c with
                     | call_decode b r => [(b, r)]
                     | _ => []
                     end) tr.

(** The integers [lo], [lo + 1], ... below [hi]. *)
Definition zrange (lo hi : Z) : list Z :=
  map (fun k => lo + Z.of_nat k) (seq 0 (Z.to_nat (hi - lo))).

(** A window without holes: the memory holds, in decode order, one token
    of sequence 0 at each of the positions 0, 1, ... below [c]. *)
Definition contiguous (m : llama_memory) (c : Z) : Prop :=
  map cell_pos m = zrange 0 c /\ Forall (fun x => cell_seq x = 0) m.

(** The streaming assembler fed a run of detokenised pieces: the chunks
    it returned, and the state it is left in. *)
Fixpoint feed (pieces : list (list byte)) (s : state) : list (list byte) * state :=
  match pieces with
  | [] => ([], s)
  | p :: rest =>
      let (chunk, s) := emit_token_chars p s in
      let (chunks, s) := feed rest s in
      (chunk :: chunks, s)
  end.

(** The byte-level engine with room for everything: its decodes never
    fail. *)
Module RoomyEngine.

Definition engine : Engine := {|
  llama_model_load_from_file := fun _ => Some 1%nat;
  llama_init_from_model := fun _ _ => Some 1%nat;
  llama_sampler_chain_init := 0%nat;
  sysconf_nprocessors_onln := 8;
  common_tokenize := ByteEngine.tokenize;
  llama_decode_status := fun _ _ => 0;
  llama_sampler_sample := fun _ _ => 97;
  llama_sampler_accept := fun sm _ => S sm;
  llama_vocab_is_eog := fun _ => false;
  common_token_to_piece := ByteEngine.piece
|}.

End RoomyEngine.

(** Where position [a] of a window with boundary [spp] and current
    position [cur] lands after a shift: the number of surviving positions
    below it. *)
Definition resettled (spp cur a : Z) : Z :=
  if a <? spp then a
  else if a <? spp + (cur - spp) / 2 then spp
  else a - (cur - spp) / 2.

(** The byte-level engine with a memory of four cells: it refuses every
    decode once four tokens are resident. *)
Module TightEngine.

Definition engine : Engine := {|
  llama_model_load_from_file := fun _ => Some 1%nat;
  llama_init_from_model := fun _ _ => Some 1%nat;
  llama_sampler_chain_init := 0%nat;
  sysconf_nprocessors_onln := 8;
  common_tokenize := ByteEngine.tokenize;
  llama_decode_status := fun mem _ => if (length mem <? 4)%nat then 0 else 1;
  llama_sampler_sample := fun _ _ => 97;
  llama_sampler_accept := fun sm _ => S sm;
  llama_vocab_is_eog := fun _ => false;
  common_token_to_piece := ByteEngine.piece
|}.

End TightEngine.

(** The byte-level engine with a sampler that draws the end-of-generation
    token first and letters afterwards. *)
Module EogEngine.

Definition engine : Engine := {|
  llama_model_load_from_file := fun _ => Some 1%nat;
  llama_init_from_model := fun _ _ => Some 1%nat;
  llama_sampler_chain_init := 0%nat;
  sysconf_nprocessors_onln := 8;
  common_tokenize := ByteEngine.tokenize;
  llama_decode_status := fun _ _ => 0;
  llama_sampler_sample := fun sm _ => match sm with O => 0 | S _ => 97 end;
  llama_sampler_accept := fun sm _ => S sm;
  llama_vocab_is_eog := fun t => t =? 0;
  common_token_to_piece := ByteEngine.piece
|}.

End EogEngine.

(** * Properties *)

(** ** Arithmetic helpers *)

Lemma int32_wrap_id z : Int32.in_range z -> Int32.wrap z = z.
Proof.
  unfold Int32.in_range, Int32.INT_MIN, Int32.INT_MAX, Int32.wrap. intros H.
  rewrite Z.mod_small; lia.
Qed.

Lemma int32_wrap_in_range z : Int32.in_range (Int32.wrap z).
Proof.
  unfold Int32.in_range, Int32.INT_MIN, Int32.INT_MAX, Int32.wrap.
  pose proof (Z.mod_pos_bound (z + 2147483648) 4294967296 eq_refl). lia.
Qed.

Lemma int32_small z : 0 <= z <= Int32.INT_MAX -> Int32.wrap z = z.
Proof.
  intros H. apply int32_wrap_id. unfold Int32.in_range, Int32.INT_MIN. lia.
Qed.

Ltac int32_simpl :=
  unfold Int32.add, Int32.sub, Int32.neg, Int32.div, Int32.of_size;
  repeat (rewrite int32_wrap_id
            by (unfold Int32.in_range, Int32.INT_MIN, Int32.INT_MAX in *; lia)).

Lemma quot2_div2 z : 0 <= z -> Z.quot z 2 = z / 2.
Proof. intros H. apply Z.quot_div_nonneg; lia. Qed.

Lemma half_bounds z : 0 <= z -> 0 <= z / 2 <= z.
Proof.
  intros H. split.
  - apply Z.div_pos; lia.
  - apply Z.div_le_upper_bound; lia.
Qed.

(** [n_discard] on a state whose positions are ordered. *)
Lemma n_discard_of_ordered s :
  Int32.in_range (current_position s) ->
  0 <= system_prompt_position s <= current_position s ->
  n_discard_of s = (current_position s - system_prompt_position s) / 2.
Proof.
  intros Hr Hord. unfold n_discard_of.
  unfold Int32.in_range, Int32.INT_MIN, Int32.INT_MAX in Hr.
  pose proof (half_bounds (current_position s - system_prompt_position s) ltac:(lia)).
  unfold Int32.sub, Int32.div.
  rewrite (int32_wrap_id (current_position s - system_prompt_position s))
    by (unfold Int32.in_range, Int32.INT_MIN, Int32.INT_MAX; lia).
  rewrite quot2_div2 by lia.
  apply int32_wrap_id. unfold Int32.in_range, Int32.INT_MIN, Int32.INT_MAX. lia.
Qed.

(** ** The shift *)

Lemma shift_context_unfold s :
  shift_context s =
  let nd := n_discard_of s in
  let spp := system_prompt_position s in
  let cur := current_position s in
  mk_state (g_model s) (g_context s) (g_batch s) (g_sampler s) (chat_msgs s)
    spp (Int32.sub cur nd) (stop_generation_position s)
    (cached_token_chars s) (assistant_ss s) (ret_buf s)
    (memory_seq_add 0 (Int32.add spp nd) cur (Int32.neg nd)
       (memory_seq_rm 0 spp (Int32.add spp nd) (kv s)))
    ((trace s ++ [call_memory_seq_rm 0 spp (Int32.add spp nd)])
       ++ [call_memory_seq_add 0 (Int32.add spp nd) cur (Int32.neg nd)]).
Proof. destruct s; reflexivity. Qed.

Lemma shift_context_current s :
  Int32.in_range (current_position s) ->
  0 <= system_prompt_position s <= current_position s ->
  current_position (shift_context s)
  = current_position s - (current_position s - system_prompt_position s) / 2.
Proof.
  intros Hr Hord. rewrite shift_context_unfold. cbn.
  rewrite n_discard_of_ordered by assumption.
  pose proof (half_bounds (current_position s - system_prompt_position s) ltac:(lia)).
  int32_simpl. reflexivity.
Qed.

Lemma filter_all {A} (f : A -> bool) (l : list A) :
  (forall x, In x l -> f x = true) -> filter f l = l.
Proof.
  induction l as [|a l IH]; intros H; cbn; [reflexivity|].
  rewrite (H a (or_introl eq_refl)). f_equal. apply IH.
  intros x Hx. apply H. right. exact Hx.
Qed.

Lemma map_fix {A} (f : A -> A) (l : list A) :
  (forall x, In x l -> f x = x) -> map f l = l.
Proof.
  induction l as [|a l IH]; intros H; cbn; [reflexivity|].
  rewrite (H a (or_introl eq_refl)). f_equal. apply IH.
  intros x Hx. apply H. right. exact Hx.
Qed.

Lemma pos_in_range_empty p0 p : 0 <= p0 -> pos_in_range p0 p0 p = false.
Proof.
  intros H. unfold pos_in_range.
  destruct (Z.ltb_spec p0 0); [lia|]. cbn.
  destruct (Z.leb_spec p0 p); destruct (Z.ltb_spec p p0); cbn; try reflexivity; lia.
Qed.

Lemma pos_in_range_spec p0 p1 p :
  0 <= p0 -> 0 <= p1 -> (pos_in_range p0 p1 p = true <-> p0 <= p < p1).
Proof.
  intros H0 H1. unfold pos_in_range.
  destruct (Z.ltb_spec p0 0); [lia|].
  destruct (Z.ltb_spec p1 0); [lia|]. cbn.
  destruct (Z.leb_spec p0 p); destruct (Z.ltb_spec p p1); cbn; split; intros;
    try discriminate; try lia; reflexivity.
Qed.

(** C4: on a state with [0 <= system_prompt_position <= current_position]
    (positions are [int]s), [shift_context] leaves [system_prompt_position]
    as it is and lowers [current_position] by exactly
    [(current_position - system_prompt_position) / 2]; when the two
    positions are equal, [n_discard] is 0 and neither the position nor the
    engine memory changes. *)
Theorem shift_context_halves (s : state) :
  Int32.in_range (current_position s) ->
  0 <= system_prompt_position s <= current_position s ->
  system_prompt_position (shift_context s) = system_prompt_position s /\
  current_position (shift_context s)
  = current_position s - (current_position s - system_prompt_position s) / 2 /\
  (current_position s = system_prompt_position s ->
   n_discard_of s = 0 /\
   current_position (shift_context s) = current_position s /\
   kv (shift_context s) = kv s).
Proof.
  intros Hr Hord. split; [rewrite shift_context_unfold; reflexivity|]. split.
  - apply shift_context_current; assumption.
  - intros Heq.
    assert (Hnd : n_discard_of s = 0).
    { rewrite n_discard_of_ordered by assumption.
      replace (current_position s - system_prompt_position s) with 0 by lia.
      reflexivity. }
    split; [exact Hnd|]. split.
    + rewrite shift_context_current by assumption.
      replace (current_position s - system_prompt_position s) with 0 by lia.
      cbn. lia.
    + rewrite shift_context_unfold. cbn. rewrite Hnd.
      assert (Hspp : Int32.add (system_prompt_position s) 0 = system_prompt_position s).
      { unfold Int32.in_range, Int32.INT_MIN, Int32.INT_MAX in Hr.
        unfold Int32.add. rewrite Z.add_0_r. apply int32_small.
        unfold Int32.INT_MAX. lia. }
      rewrite Hspp, <- Heq.
      unfold memory_seq_add, memory_seq_rm.
      rewrite map_fix.
      * apply filter_all. intros c _. unfold cell_selected.
        rewrite pos_in_range_empty by lia. rewrite andb_false_r. reflexivity.
      * intros c _. unfold cell_selected.
        rewrite pos_in_range_empty by lia. rewrite andb_false_r. reflexivity.
Qed.

Lemma shift_context_halves_witness :
  let s := mk_state None (Some 1%nat) [] None [] 10 110 0 [] [] [] [] [] in
  system_prompt_position (shift_context s) = 10 /\
  current_position (shift_context s) = 110 - (110 - 10) / 2.
Proof.
  intros s.
  destruct (shift_context_halves s) as (H1 & H2 & _).
  - unfold Int32.in_range, Int32.INT_MIN, Int32.INT_MAX. simpl. lia.
  - simpl. lia.
  - split; [exact H1 | exact H2].
Defined.

(** The two ranges [shift_context] hands to the engine. *)
Lemma shift_ranges s :
  Int32.in_range (current_position s) ->
  0 <= system_prompt_position s <= current_position s ->
  let nd := (current_position s - system_prompt_position s) / 2 in
  n_discard_of s = nd /\
  Int32.add (system_prompt_position s) nd = system_prompt_position s + nd /\
  Int32.neg nd = - nd /\
  0 <= nd /\ system_prompt_position s + nd <= current_position s.
Proof.
  intros Hr Hord nd.
  pose proof (half_bounds (current_position s - system_prompt_position s) ltac:(lia)) as Hh.
  fold nd in Hh.
  unfold Int32.in_range, Int32.INT_MIN, Int32.INT_MAX in Hr.
  split; [apply n_discard_of_ordered; assumption|].
  split; [int32_simpl; reflexivity|].
  split; [int32_simpl; reflexivity|]. lia.
Qed.

(** C5: on a state with [0 <= system_prompt_position <= current_position],
    the one removal [shift_context] asks of the engine is that of the
    range [[system_prompt_position, system_prompt_position + n_discard)]
    of sequence 0; every resident token below [system_prompt_position] is
    still resident, untouched, after the shift, and every resident token
    outside that range survives it (at its position, or renumbered down by
    [n_discard]). *)
Theorem shift_context_evicts_only_range (s : state) :
  Int32.in_range (current_position s) ->
  0 <= system_prompt_position s <= current_position s ->
  let spp := system_prompt_position s in
  let nd := (current_position s - spp) / 2 in
  trace (shift_context s)
  = trace s ++ [call_memory_seq_rm 0 spp (spp + nd);
                call_memory_seq_add 0 (spp + nd) (current_position s) (- nd)] /\
  forall c, In c (kv s) ->
    (cell_pos c < spp -> In c (kv (shift_context s))) /\
    (~ (spp <= cell_pos c < spp + nd) ->
     exists c', In c' (kv (shift_context s)) /\
                cell_seq c' = cell_seq c /\ cell_token c' = cell_token c /\
                (cell_pos c' = cell_pos c \/ cell_pos c' = cell_pos c - nd)).
Proof.
  intros Hr Hord spp nd.
  destruct (shift_ranges s Hr Hord) as (Hnd & Hadd & Hneg & Hnd0 & Hle).
  fold spp nd in Hnd, Hadd, Hneg, Hnd0, Hle.
  rewrite shift_context_unfold. cbn. fold spp. rewrite Hnd, Hadd, Hneg.
  split; [rewrite <- app_assoc; reflexivity|].
  intros c Hc.
  assert (Hkeep : ~ (spp <= cell_pos c < spp + nd) ->
                  In c (memory_seq_rm 0 spp (spp + nd) (kv s))).
  { intros Hout. unfold memory_seq_rm. apply filter_In. split; [exact Hc|].
    unfold cell_selected.
    destruct (pos_in_range spp (spp + nd) (cell_pos c)) eqn:Hin.
    - apply pos_in_range_spec in Hin; [contradiction | lia | lia].
    - rewrite andb_false_r. reflexivity. }
  split.
  - intros Hlow. unfold memory_seq_add.
    apply in_map_iff. exists c. split; [|apply Hkeep; lia].
    unfold cell_selected.
    destruct (pos_in_range (spp + nd) (current_position s) (cell_pos c)) eqn:Hin.
    + apply pos_in_range_spec in Hin; lia.
    + rewrite andb_false_r. reflexivity.
  - intros Hout. specialize (Hkeep Hout).
    eexists. split.
    + unfold memory_seq_add. apply in_map. exact Hkeep.
    + cbv beta.
      destruct (cell_selected 0 (spp + nd) (current_position s) c) eqn:Hsel; cbn.
      * repeat split; try reflexivity. right.
        unfold cell_selected in Hsel. apply andb_prop in Hsel. destruct Hsel as [_ Hin].
        apply pos_in_range_spec in Hin; [|lia|lia].
        unfold Int32.in_range, Int32.INT_MIN, Int32.INT_MAX in Hr.
        int32_simpl. lia.
      * repeat split; try reflexivity. left. reflexivity.
Qed.

Lemma shift_context_evicts_only_range_witness :
  let s := mk_state None (Some 1%nat) [] None [] 2 6 0 [] [] []
             [mk_cell 0 0 65; mk_cell 0 1 66; mk_cell 0 2 67; mk_cell 0 3 68;
              mk_cell 0 4 69; mk_cell 0 5 70] [] in
  In (mk_cell 0 1 66) (kv (shift_context s)).
Proof.
  intros s.
  assert (Hr : Int32.in_range (current_position s)).
  { unfold Int32.in_range, Int32.INT_MIN, Int32.INT_MAX. simpl. lia. }
  assert (Hord : 0 <= system_prompt_position s <= current_position s).
  { simpl. lia. }
  destruct (shift_context_evicts_only_range s Hr Hord) as [_ H].
  destruct (H (mk_cell 0 1 66)) as [Hlow _].
  - simpl. right. left. reflexivity.
  - apply Hlow. simpl. lia.
Defined.

(** ** Unload *)

(** C8: [unload_ffi] frees each of sampler, batch, context and model once
    if the session owns it (the batch goes with the context) and nulls the
    three handles; the backend is not freed; a second [unload_ffi] right
    after changes nothing, so it frees nothing. *)
Theorem unload_ffi_idempotent (s : state) :
  let s1 := unload_ffi s in
  trace s1 = trace s ++ frees_of s /\
  NoDup (frees_of s) /\
  ~ In call_backend_free (frees_of s) /\
  g_sampler s1 = None /\ g_context s1 = None /\ g_model s1 = None /\
  frees_of s1 = [] /\
  unload_ffi s1 = s1.
Proof.
  destruct s as [m c b sa msgs spp cur stop cached ss rb k tr].
  unfold frees_of.
  destruct m, c, sa; cbn;
    repeat rewrite <- app_assoc; cbn; rewrite ?app_nil_r;
    repeat split; try reflexivity;
    try (repeat constructor; cbn; intuition discriminate);
    try (intros H; cbn in H; intuition discriminate).
Qed.

(** ** The UTF-8 validator and the streaming assembler *)

Lemma check_continuation_length n bytes rest :
  check_continuation n bytes = Some rest -> (length rest <= length bytes)%nat.
Proof.
  revert bytes. induction n as [|n IH]; intros bytes H; cbn in H.
  - injection H as <-. lia.
  - destruct (negb (Z.land (deref bytes) 192 =? 128)); [discriminate|].
    apply IH in H. destruct bytes; cbn in *; lia.
Qed.

(** The validator terminates: its loop never needs more iterations than
    the string has bytes, plus one to see the terminator. *)
Lemma is_valid_utf8_loop_total fuel bytes :
  (length bytes < fuel)%nat -> exists r, is_valid_utf8_loop fuel bytes = Some r.
Proof.
  revert bytes. induction fuel as [|fuel IH]; intros bytes Hlen; [lia|].
  cbn [is_valid_utf8_loop].
  destruct (deref bytes =? 0) eqn:Hz; [eexists; reflexivity|].
  destruct (sequence_length (deref bytes)) as [num|]; [|eexists; reflexivity].
  destruct (check_continuation (num - 1) (tl bytes)) as [rest|] eqn:Hc;
    [|eexists; reflexivity].
  apply IH. apply check_continuation_length in Hc.
  destruct bytes as [|b bytes]; [discriminate Hz|]. cbn in *. lia.
Qed.

(** The masks of the validator pick out the ranges of the standard. *)
Lemma continuation_mask b :
  is_continuation b = (Z.land (Z.of_N (Byte.to_N b)) 0xC0 =? 0x80).
Proof. destruct b; reflexivity. Qed.

Lemma lead_length_mask b num :
  lead_length b = Some num ->
  sequence_length (Z.of_N (Byte.to_N b)) = Some num /\ (2 <= num)%nat /\
  (Z.of_N (Byte.to_N b) =? 0) = false.
Proof.
  intros H.
  destruct b; vm_compute in H; try discriminate H; injection H as <-;
    (split; [reflexivity | split; [lia | reflexivity]]).
Qed.

(** The validator itself always comes to an answer within its fuel. *)
Lemma is_valid_utf8_defined bytes :
  exists r, is_valid_utf8_loop (S (length bytes)) bytes = Some r /\
            is_valid_utf8 (Some bytes) = r.
Proof.
  destruct (is_valid_utf8_loop_total (S (length bytes)) bytes) as [r Hr]; [lia|].
  exists r. split; [exact Hr|]. unfold is_valid_utf8. rewrite Hr. reflexivity.
Qed.

Lemma check_continuation_all conts rest :
  forallb is_continuation conts = true ->
  check_continuation (length conts) (conts ++ rest) = Some rest.
Proof.
  induction conts as [|c conts IH]; intros H; cbn in *; [reflexivity|].
  apply andb_prop in H. destruct H as [Hc Hall].
  rewrite continuation_mask in Hc. rewrite Hc. cbn. apply IH. exact Hall.
Qed.

Lemma check_continuation_short conts n :
  forallb is_continuation conts = true ->
  (length conts < n)%nat ->
  check_continuation n conts = None.
Proof.
  revert n. induction conts as [|c conts IH]; intros n H Hlen.
  - destruct n; [cbn in Hlen; lia|]. reflexivity.
  - destruct n; [cbn in Hlen; lia|]. cbn in *.
    apply andb_prop in H. destruct H as [Hc Hall].
    rewrite continuation_mask in Hc. rewrite Hc. cbn. apply IH; [exact Hall | lia].
Qed.

Lemma multibyte_lead lead conts :
  is_multibyte_char (lead :: conts) = true ->
  exists num, sequence_length (Z.of_N (Byte.to_N lead)) = Some num /\
              (2 <= num)%nat /\ length conts = (num - 1)%nat /\
              forallb is_continuation conts = true /\
              (Z.of_N (Byte.to_N lead) =? 0) = false.
Proof.
  unfold is_multibyte_char.
  destruct (lead_length lead) as [num|] eqn:Hn; [|discriminate].
  intros H. apply andb_prop in H. destruct H as [Hlen Hall].
  apply Nat.eqb_eq in Hlen.
  destruct (lead_length_mask lead num Hn) as (Hseq & H2 & Hz).
  exists num. repeat split; assumption.
Qed.

Lemma multibyte_char_valid ch :
  is_multibyte_char ch = true -> is_valid_utf8 (Some ch) = true.
Proof.
  destruct ch as [|lead conts]; [discriminate|]. intros H.
  destruct (multibyte_lead _ _ H) as (num & Hn & H2 & Hlen & Hall & Hz).
  unfold is_valid_utf8. cbn [length is_valid_utf8_loop deref tl].
  rewrite Hz, Hn, <- Hlen.
  rewrite <- (app_nil_r conts) at 2.
  rewrite check_continuation_all by exact Hall.
  destruct (length conts); reflexivity.
Qed.

Lemma multibyte_prefix_invalid p1 p2 :
  is_multibyte_char (p1 ++ p2) = true -> p1 <> [] -> p2 <> [] ->
  is_valid_utf8 (Some p1) = false.
Proof.
  destruct p1 as [|lead c1]; [congruence|]. intros H _ Hp2.
  destruct (multibyte_lead _ _ H) as (num & Hn & H2 & Hlen & Hall & Hz).
  rewrite forallb_app in Hall. apply andb_prop in Hall. destruct Hall as [Hall1 _].
  rewrite length_app in Hlen.
  assert (length p2 <> 0)%nat by (destruct p2; [congruence | cbn; lia]).
  unfold is_valid_utf8. cbn [length is_valid_utf8_loop deref tl].
  rewrite Hz, Hn.
  rewrite check_continuation_short; [reflexivity | exact Hall1 | lia].
Qed.

(** *** C strings *)

Lemma byte_value_zero c : Z.of_N (Byte.to_N c) = 0 -> c = x00.
Proof. destruct c; intros H; try reflexivity; discriminate H. Qed.

Lemma c_str_no_nul bytes : ~ In x00 bytes -> c_str bytes = bytes.
Proof.
  induction bytes as [|b rest IH]; intros H; [reflexivity|].
  cbn [c_str].
  destruct (Z.eqb_spec (Z.of_N (Byte.to_N b)) 0) as [Hz|_].
  - exfalso. apply H. left. apply byte_value_zero. exact Hz.
  - rewrite IH; [reflexivity|]. intros Hin. apply H. right. exact Hin.
Qed.

Lemma c_str_nul_free bytes : ~ In x00 (c_str bytes).
Proof.
  induction bytes as [|b rest IH]; cbn [c_str]; [intros []|].
  destruct (Z.eqb_spec (Z.of_N (Byte.to_N b)) 0) as [_|Hz]; [intros []|].
  intros [Hb|Hin]; [|exact (IH Hin)].
  apply Hz. rewrite Hb. reflexivity.
Qed.

(** A C string is the head of the buffer it is read from. *)
Lemma c_str_head bytes : exists tail, bytes = c_str bytes ++ tail.
Proof.
  induction bytes as [|b rest [tail IH]]; [exists []; reflexivity|].
  cbn [c_str]. destruct (Z.of_N (Byte.to_N b) =? 0).
  - exists (b :: rest). reflexivity.
  - exists tail. cbn [app]. rewrite <- IH. reflexivity.
Qed.

Lemma c_str_continuation conts rest :
  forallb is_continuation conts = true ->
  c_str (conts ++ rest) = conts ++ c_str rest.
Proof.
  induction conts as [|c conts IH]; intros H; [reflexivity|].
  cbn [forallb] in H. apply andb_prop in H. destruct H as [Hc Hall].
  cbn [app c_str].
  assert (Hnz : (Z.of_N (Byte.to_N c) =? 0) = false).
  { unfold is_continuation in Hc. apply andb_prop in Hc. destruct Hc as [Hlo _].
    apply Z.leb_le in Hlo. apply Z.eqb_neq. lia. }
  rewrite Hnz, IH by exact Hall. reflexivity.
Qed.

(** *** The validator accepts exactly UTF-8 text *)

Lemma sequence_length_class b :
  sequence_length (Z.of_N (Byte.to_N b))
  = if is_ascii b then Some 1%nat else lead_length b.
Proof. destruct b; reflexivity. Qed.

Lemma ascii_not_lead b : is_ascii b = true -> lead_length b = None.
Proof. destruct b; intros H; try reflexivity; discriminate H. Qed.

Lemma multibyte_char_inv lead conts :
  is_multibyte_char (lead :: conts) = true ->
  exists num, lead_length lead = Some num /\ length conts = (num - 1)%nat /\
              forallb is_continuation conts = true.
Proof.
  unfold is_multibyte_char.
  destruct (lead_length lead) as [num|]; [|discriminate].
  intros H. apply andb_prop in H. destruct H as [Hlen Hall].
  apply Nat.eqb_eq in Hlen. exists num. auto.
Qed.

Lemma utf8_text_cons_inv b t :
  utf8_text (b :: t) ->
  is_ascii b = true /\ utf8_text t \/
  exists conts r,
    t = conts ++ r /\ is_multibyte_char (b :: conts) = true /\ utf8_text r.
Proof.
  intros H. remember (b :: t) as l eqn:Hl.
  destruct H as [|b' rest Ha Ht|ch rest Hch Ht]; [discriminate Hl| |].
  - injection Hl as <- <-. left. split; assumption.
  - destruct ch as [|lead conts]; [discriminate Hch|].
    cbn [app] in Hl. injection Hl as -> <-.
    right. exists conts, rest. repeat split; assumption.
Qed.

Lemma check_continuation_inv n : forall bytes rest,
  check_continuation n bytes = Some rest ->
  exists conts,
    bytes = conts ++ rest /\ length conts = n /\
    forallb is_continuation conts = true.
Proof.
  induction n as [|n IH]; intros bytes rest H.
  - cbn in H. injection H as <-. exists []. repeat split.
  - destruct bytes as [|b bytes]; [discriminate H|].
    cbn [check_continuation deref tl] in H.
    destruct (Z.land (Z.of_N (Byte.to_N b)) 192 =? 128) eqn:Hb;
      cbn [negb] in H; [|discriminate H].
    destruct (IH bytes rest H) as (conts & -> & Hlen & Hall).
    exists (b :: conts). cbn [app length forallb].
    rewrite continuation_mask, Hb, Hall, Hlen. repeat split.
Qed.

Lemma app_same_length (A : Type) (a a' b b' : list A) :
  length a = length a' -> a ++ b = a' ++ b' -> a = a' /\ b = b'.
Proof.
  revert a'. induction a as [|x a IH]; intros [|x' a'] Hlen H;
    try discriminate Hlen.
  - split; [reflexivity | exact H].
  - cbn in Hlen, H. injection H as -> H. injection Hlen as Hlen.
    destruct (IH a' Hlen H) as [-> ->]. split; reflexivity.
Qed.

(** The loop answers [true] exactly on the buffers whose C string is
    UTF-8 text. *)
Lemma is_valid_utf8_loop_text fuel : forall bytes,
  (length bytes < fuel)%nat ->
  is_valid_utf8_loop fuel bytes = Some true <-> utf8_text (c_str bytes).
Proof.
  induction fuel as [|fuel IH]; intros bytes Hlen; [lia|].
  destruct bytes as [|b rest].
  { cbn. split; [constructor | reflexivity]. }
  cbn [is_valid_utf8_loop deref tl c_str]. cbn [length] in Hlen.
  destruct (Z.of_N (Byte.to_N b) =? 0); [split; [constructor | reflexivity]|].
  rewrite sequence_length_class.
  destruct (is_ascii b) eqn:Ha.
  - cbn [Nat.sub check_continuation]. rewrite IH by lia. split.
    + intros H. apply utf8_text_ascii; assumption.
    + intros H. apply utf8_text_cons_inv in H.
      destruct H as [[_ H]|(conts & r & _ & Hch & _)]; [exact H|].
      destruct (multibyte_char_inv _ _ Hch) as (num & Hl & _).
      rewrite (ascii_not_lead b Ha) in Hl. discriminate Hl.
  - destruct (lead_length b) as [num|] eqn:Hl.
    + destruct (check_continuation (num - 1) rest) as [rest'|] eqn:Hc.
      * destruct (check_continuation_inv _ _ _ Hc) as (conts & -> & Hn & Hall).
        rewrite c_str_continuation by exact Hall.
        rewrite length_app in Hlen. rewrite IH by lia.
        assert (Hch : is_multibyte_char (b :: conts) = true).
        { unfold is_multibyte_char. rewrite Hl, Hn, Nat.eqb_refl, Hall. reflexivity. }
        split.
        -- intros H. exact (utf8_text_multibyte (b :: conts) (c_str rest') Hch H).
        -- intros H. apply utf8_text_cons_inv in H.
           destruct H as [[Ha' _]|(conts' & r & Heq & Hch' & Hr)]; [congruence|].
           destruct (multibyte_char_inv _ _ Hch') as (num' & Hl' & Hn' & _).
           assert (num' = num) as -> by congruence.
           destruct (app_same_length _ conts conts' (c_str rest') r) as [_ <-];
             [congruence | exact Heq | exact Hr].
      * split; [discriminate|]. intros H. exfalso.
        apply utf8_text_cons_inv in H.
        destruct H as [[Ha' _]|(conts' & r & Heq & Hch' & _)]; [congruence|].
        destruct (multibyte_char_inv _ _ Hch') as (num' & Hl' & Hn' & Hall').
        assert (num' = num) as -> by congruence.
        destruct (c_str_head rest) as [tail Hrest].
        rewrite Heq, <- app_assoc in Hrest.
        rewrite Hrest, <- Hn', check_continuation_all in Hc by exact Hall'.
        discriminate Hc.
    + split; [discriminate|]. intros H. exfalso.
      apply utf8_text_cons_inv in H.
      destruct H as [[Ha' _]|(conts' & r & _ & Hch' & _)]; [congruence|].
      destruct (multibyte_char_inv _ _ Hch') as (num' & Hl' & _). congruence.
Qed.

(** [is_valid_utf8] accepts a buffer exactly when the bytes before its
    first NUL are UTF-8 text. *)
Lemma is_valid_utf8_text bytes :
  is_valid_utf8 (Some bytes) = true <-> utf8_text (c_str bytes).
Proof.
  rewrite <- (is_valid_utf8_loop_text (S (length bytes)) bytes) by lia.
  destruct (is_valid_utf8_defined bytes) as (r & Hr & Hv).
  rewrite Hr, Hv. split; [intros ->; reflexivity | intros H; injection H as ->; reflexivity].
Qed.

Lemma is_valid_utf8_not_text bytes :
  is_valid_utf8 (Some bytes) = false <-> ~ utf8_text (c_str bytes).
Proof.
  rewrite <- is_valid_utf8_text.
  destruct (is_valid_utf8 (Some bytes)); split; intros H; congruence.
Qed.

Lemma c_str_multibyte ch : is_multibyte_char ch = true -> c_str ch = ch.
Proof.
  destruct ch as [|lead conts]; [discriminate|]. intros H.
  destruct (multibyte_lead _ _ H) as (num & _ & _ & _ & Hall & Hz).
  cbn [c_str]. rewrite Hz.
  rewrite <- (app_nil_r conts) at 1. rewrite c_str_continuation by exact Hall.
  cbn [c_str]. rewrite app_nil_r. reflexivity.
Qed.

(** *** The streaming assembler *)

Lemma emit_token_chars_valid piece s :
  is_valid_utf8 (Some (cached_token_chars s ++ piece)) = true ->
  fst (emit_token_chars piece s) = c_str (cached_token_chars s ++ piece) /\
  cached_token_chars (snd (emit_token_chars piece s)) = [] /\
  assistant_ss (snd (emit_token_chars piece s))
  = assistant_ss s ++ cached_token_chars s ++ piece.
Proof.
  destruct s. unfold emit_token_chars. cbn -[c_str]. intros ->. cbn -[c_str]. auto.
Qed.

Lemma emit_token_chars_invalid piece s :
  is_valid_utf8 (Some (cached_token_chars s ++ piece)) = false ->
  fst (emit_token_chars piece s) = [] /\
  cached_token_chars (snd (emit_token_chars piece s)) = cached_token_chars s ++ piece /\
  assistant_ss (snd (emit_token_chars piece s)) = assistant_ss s.
Proof.
  destruct s. unfold emit_token_chars. cbn. intros ->. cbn. auto.
Qed.

(** C6, as amended: the assembler appends the new bytes to the pending
    buffer and validates the whole buffer.  A buffer without a NUL byte
    that is UTF-8 text (a run of characters, each one byte 00..7F or a
    leading byte C0..F7 with the one to three continuation bytes 80..BF it
    announces) is returned whole as the chunk, appended to the accumulator,
    and cleared; one that is not such text gives an empty chunk, is kept,
    and leaves the accumulator as before.  In general the buffer is judged
    by, and handed out as, its C string, the bytes before its first NUL,
    while the accumulator receives the whole buffer.  So a multi-byte
    character fed in one call on an empty buffer comes back as the chunk,
    and fed in two non-empty parts it gives an empty chunk and then the
    whole character. *)
Theorem utf8_assembler (s : state) :
  (forall piece,
     let buffer := cached_token_chars s ++ piece in
     ~ In x00 buffer -> utf8_text buffer ->
     fst (emit_token_chars piece s) = buffer /\
     cached_token_chars (snd (emit_token_chars piece s)) = [] /\
     assistant_ss (snd (emit_token_chars piece s)) = assistant_ss s ++ buffer) /\
  (forall piece,
     let buffer := cached_token_chars s ++ piece in
     ~ In x00 buffer -> ~ utf8_text buffer ->
     fst (emit_token_chars piece s) = [] /\
     cached_token_chars (snd (emit_token_chars piece s)) = buffer /\
     assistant_ss (snd (emit_token_chars piece s)) = assistant_ss s) /\
  (forall piece,
     let buffer := cached_token_chars s ++ piece in
     (utf8_text (c_str buffer) ->
      fst (emit_token_chars piece s) = c_str buffer /\
      cached_token_chars (snd (emit_token_chars piece s)) = [] /\
      assistant_ss (snd (emit_token_chars piece s)) = assistant_ss s ++ buffer) /\
     (~ utf8_text (c_str buffer) ->
      fst (emit_token_chars piece s) = [] /\
      cached_token_chars (snd (emit_token_chars piece s)) = buffer /\
      assistant_ss (snd (emit_token_chars piece s)) = assistant_ss s)) /\
  (forall ch,
     cached_token_chars s = [] -> is_multibyte_char ch = true ->
     fst (emit_token_chars ch s) = ch /\
     cached_token_chars (snd (emit_token_chars ch s)) = []) /\
  (forall p1 p2,
     cached_token_chars s = [] -> is_multibyte_char (p1 ++ p2) = true ->
     p1 <> [] -> p2 <> [] ->
     let s1 := snd (emit_token_chars p1 s) in
     fst (emit_token_chars p1 s) = [] /\
     fst (emit_token_chars p2 s1) = p1 ++ p2 /\
     cached_token_chars (snd (emit_token_chars p2 s1)) = [] /\
     assistant_ss (snd (emit_token_chars p2 s1)) = assistant_ss s ++ p1 ++ p2).
Proof.
  assert (Hgen : forall piece,
            (utf8_text (c_str (cached_token_chars s ++ piece)) ->
             fst (emit_token_chars piece s) = c_str (cached_token_chars s ++ piece) /\
             cached_token_chars (snd (emit_token_chars piece s)) = [] /\
             assistant_ss (snd (emit_token_chars piece s))
             = assistant_ss s ++ cached_token_chars s ++ piece) /\
            (~ utf8_text (c_str (cached_token_chars s ++ piece)) ->
             fst (emit_token_chars piece s) = [] /\
             cached_token_chars (snd (emit_token_chars piece s))
             = cached_token_chars s ++ piece /\
             assistant_ss (snd (emit_token_chars piece s)) = assistant_ss s)).
  { intros piece. split; intros H.
    - apply emit_token_chars_valid. apply is_valid_utf8_text. exact H.
    - apply emit_token_chars_invalid. apply is_valid_utf8_not_text. exact H. }
  split.
  { intros piece buffer Hnul Htext. subst buffer.
    destruct (Hgen piece) as [Hyes _].
    rewrite (c_str_no_nul _ Hnul) in Hyes. exact (Hyes Htext). }
  split.
  { intros piece buffer Hnul Htext. subst buffer.
    destruct (Hgen piece) as [_ Hno].
    rewrite (c_str_no_nul _ Hnul) in Hno. exact (Hno Htext). }
  split; [exact Hgen|].
  split.
  - intros ch Hempty Hch.
    destruct (emit_token_chars_valid ch s) as (H1 & H2 & _).
    + rewrite Hempty. cbn [app]. apply multibyte_char_valid. exact Hch.
    + rewrite Hempty in H1. cbn [app] in H1.
      rewrite (c_str_multibyte ch Hch) in H1. split; assumption.
  - intros p1 p2 Hempty Hch Hp1 Hp2 s1.
    destruct (emit_token_chars_invalid p1 s) as (H1 & H2 & H3).
    { rewrite Hempty. cbn [app]. apply (multibyte_prefix_invalid p1 p2); assumption. }
    rewrite Hempty in H2. cbn [app] in H2. fold s1 in H2, H3.
    destruct (emit_token_chars_valid p2 s1) as (H4 & H5 & H6).
    { rewrite H2. apply multibyte_char_valid. exact Hch. }
    rewrite H2 in H4, H6. rewrite H3 in H6.
    rewrite (c_str_multibyte _ Hch) in H4.
    split; [exact H1|]. split; [exact H4|]. split; [exact H5 | exact H6].
Qed.

(** The character U+20AC, bytes E2 82 AC, whole and cut after its first
    byte; the text [H] U+00E9, bytes 48 C3 A9, in one piece, and the same
    bytes without the last one. *)
Lemma utf8_assembler_witness :
  fst (emit_token_chars [xe2; x82; xac] initial_state) = [xe2; x82; xac] /\
  fst (emit_token_chars [xe2] initial_state) = [] /\
  fst (emit_token_chars [x82; xac] (snd (emit_token_chars [xe2] initial_state)))
  = [xe2; x82; xac] /\
  fst (emit_token_chars [x48; xc3; xa9] initial_state) = [x48; xc3; xa9] /\
  fst (emit_token_chars [x48; xc3] initial_state) = [] /\
  cached_token_chars (snd (emit_token_chars [x48; xc3] initial_state)) = [x48; xc3].
Proof.
  destruct (utf8_assembler initial_state) as (Hyes & Hno & _ & Hone & Htwo).
  destruct (Hone [xe2; x82; xac]) as [H1 _]; [reflexivity | reflexivity |].
  destruct (Htwo [xe2] [x82; xac]) as (H2 & H3 & _);
    [reflexivity | reflexivity | discriminate | discriminate |].
  destruct (Hyes [x48; xc3; xa9]) as (H4 & _).
  { simpl. intros [H | [H | [H | H]]]; try discriminate H. exact H. }
  { apply utf8_text_ascii; [reflexivity|].
    apply (utf8_text_multibyte [xc3; xa9] []); [reflexivity | constructor]. }
  destruct (Hno [x48; xc3]) as (H5 & H6 & _).
  { simpl. intros [H | [H | H]]; try discriminate H. exact H. }
  { apply (is_valid_utf8_not_text [x48; xc3]). reflexivity. }
  split; [exact H1|]. split; [exact H2|]. split; [exact H3|].
  split; [exact H4|]. split; [exact H5 | exact H6].
Defined.

(** The claim as it stands fails on a buffer with a NUL byte.  The bytes
    61 00 62 are UTF-8 text and the validator accepts them, but the chunk
    the caller receives is 61 alone, not the entire buffer; and 61 00 FF,
    which is not UTF-8 text, is accepted and handed out as 61 instead of
    being retained behind an empty chunk. *)
Lemma utf8_assembler_cuts_at_nul :
  utf8_text [x61; x00; x62] /\
  is_valid_utf8 (Some [x61; x00; x62]) = true /\
  fst (emit_token_chars [x61; x00; x62] initial_state) = [x61] /\
  fst (emit_token_chars [x61; x00; x62] initial_state) <> [x61; x00; x62] /\
  assistant_ss (snd (emit_token_chars [x61; x00; x62] initial_state))
  = [x61; x00; x62] /\
  ~ utf8_text [x61; x00; xff] /\
  fst (emit_token_chars [x61; x00; xff] initial_state) = [x61] /\
  cached_token_chars (snd (emit_token_chars [x61; x00; xff] initial_state)) = [].
Proof.
  split; [repeat (apply utf8_text_ascii; [reflexivity|]); constructor|].
  split; [reflexivity|]. split; [reflexivity|]. split; [discriminate|].
  split; [reflexivity|].
  split; [|split; reflexivity].
  intros H.
  apply utf8_text_cons_inv in H.
  destruct H as [[_ H]|(conts & r & _ & Hch & _)];
    [|destruct (multibyte_char_inv _ _ Hch) as (num & Hl & _); discriminate Hl].
  apply utf8_text_cons_inv in H.
  destruct H as [[_ H]|(conts & r & _ & Hch & _)];
    [|destruct (multibyte_char_inv _ _ Hch) as (num & Hl & _); discriminate Hl].
  apply utf8_text_cons_inv in H.
  destruct H as [[Ha _]|(conts & r & _ & Hch & _)];
    [discriminate Ha|destruct (multibyte_char_inv _ _ Hch) as (num & Hl & _); discriminate Hl].
Qed.

(** ** The window as the engine holds it *)

Lemma kv_shift_context s :
  Int32.in_range (current_position s) ->
  0 <= system_prompt_position s <= current_position s ->
  kv (shift_context s) = shifted (system_prompt_position s) (current_position s) (kv s).
Proof.
  intros Hr Hord.
  destruct (shift_ranges s Hr Hord) as (Hnd & Hadd & Hneg & _).
  rewrite shift_context_unfold. cbn. rewrite Hnd, Hadd, Hneg. reflexivity.
Qed.

Lemma shifted_app spp cur m1 m2 :
  shifted spp cur (m1 ++ m2) = shifted spp cur m1 ++ shifted spp cur m2.
Proof.
  unfold shifted, memory_seq_add, memory_seq_rm.
  rewrite filter_app, map_app. reflexivity.
Qed.

(** Tokens at or above the current position are out of a shift's reach. *)
Lemma shifted_above spp cur m :
  0 <= spp <= cur ->
  Forall (fun x => cur <= cell_pos x) m -> shifted spp cur m = m.
Proof.
  intros Hord Hall.
  pose proof (half_bounds (cur - spp) ltac:(lia)) as Hh.
  unfold shifted, memory_seq_add, memory_seq_rm.
  rewrite Forall_forall in Hall.
  rewrite filter_all.
  - apply map_fix. intros x Hx. specialize (Hall x Hx). unfold cell_selected.
    destruct (pos_in_range (spp + (cur - spp) / 2) cur (cell_pos x)) eqn:Hin.
    + apply pos_in_range_spec in Hin; lia.
    + rewrite andb_false_r. reflexivity.
  - intros x Hx. specialize (Hall x Hx). unfold cell_selected.
    destruct (pos_in_range spp (spp + (cur - spp) / 2) (cell_pos x)) eqn:Hin.
    + apply pos_in_range_spec in Hin; lia.
    + rewrite andb_false_r. reflexivity.
Qed.

Lemma cell_selected_seq0 p0 p1 x :
  cell_seq x = 0 -> 0 <= p0 -> 0 <= p1 ->
  cell_selected 0 p0 p1 x = (p0 <=? cell_pos x) && (cell_pos x <? p1).
Proof.
  intros Hseq H0 H1. unfold cell_selected, pos_in_range. rewrite Hseq.
  destruct (Z.ltb_spec p0 0); [lia|].
  destruct (Z.ltb_spec p1 0); [lia|]. reflexivity.
Qed.

Lemma shifted_cons spp cur x m :
  0 <= spp <= cur /\ cur <= Int32.INT_MAX ->
  cell_seq x = 0 -> 0 <= cell_pos x < cur ->
  shifted spp cur (x :: m) =
  if (spp <=? cell_pos x) && (cell_pos x <? spp + (cur - spp) / 2)
  then shifted spp cur m
  else mk_cell 0 (renumbered spp cur (cell_pos x)) (cell_token x) :: shifted spp cur m.
Proof.
  intros Hord Hseq Hpos.
  pose proof (half_bounds (cur - spp) ltac:(lia)) as Hh.
  unfold shifted, memory_seq_add, memory_seq_rm, renumbered. cbn [filter].
  rewrite (cell_selected_seq0 spp _ x) by (assumption || lia).
  destruct ((spp <=? cell_pos x) && (cell_pos x <? spp + (cur - spp) / 2)) eqn:Hsel;
    cbn [negb]; [reflexivity|].
  cbn [map]. f_equal.
  rewrite (cell_selected_seq0 _ cur x) by (assumption || lia).
  destruct ((spp + (cur - spp) / 2 <=? cell_pos x) && (cell_pos x <? cur)) eqn:Hmv.
  - rewrite Hseq. f_equal. unfold Int32.add. apply int32_wrap_id.
    apply andb_prop in Hmv. destruct Hmv as [H1 H2].
    apply Z.leb_le in H1. apply Z.ltb_lt in H2.
    unfold Int32.in_range, Int32.INT_MIN, Int32.INT_MAX in *. lia.
  - destruct x as [sq p t]. cbn in *. subst sq. reflexivity.
Qed.

Lemma renumbered_inj spp cur p q :
  0 <= spp <= cur ->
  ~ (spp <= p < spp + (cur - spp) / 2) -> ~ (spp <= q < spp + (cur - spp) / 2) ->
  renumbered spp cur p = renumbered spp cur q -> p = q.
Proof.
  intros Hord Hp Hq. unfold renumbered.
  pose proof (half_bounds (cur - spp) ltac:(lia)) as Hh.
  destruct (Z.leb_spec (spp + (cur - spp) / 2) p); destruct (Z.ltb_spec p cur);
    destruct (Z.leb_spec (spp + (cur - spp) / 2) q); destruct (Z.ltb_spec q cur);
    cbn [andb]; lia.
Qed.

Lemma renumbered_bound spp cur p :
  0 <= spp <= cur -> 0 <= p < cur ->
  ~ (spp <= p < spp + (cur - spp) / 2) ->
  0 <= renumbered spp cur p < cur - (cur - spp) / 2.
Proof.
  intros Hord Hp Hout. unfold renumbered.
  pose proof (half_bounds (cur - spp) ltac:(lia)) as Hh.
  destruct (Z.leb_spec (spp + (cur - spp) / 2) p); destruct (Z.ltb_spec p cur);
    cbn [andb]; lia.
Qed.

(** Every token left by a shift is a renumbered survivor. *)
Lemma in_shifted spp cur m c' :
  0 <= spp <= cur /\ cur <= Int32.INT_MAX -> window_ok m cur ->
  In c' (shifted spp cur m) ->
  exists c, In c m /\ ~ (spp <= cell_pos c < spp + (cur - spp) / 2) /\
            cell_seq c' = 0 /\ cell_pos c' = renumbered spp cur (cell_pos c).
Proof.
  intros Hord [_ Hall]. induction m as [|x m IH]; intros Hin.
  - cbn in Hin. contradiction.
  - inversion Hall as [|? ? [Hseq Hpos] Hall']; subst.
    rewrite shifted_cons in Hin by assumption.
    destruct ((spp <=? cell_pos x) && (cell_pos x <? spp + (cur - spp) / 2)) eqn:Hsel.
    + destruct (IH Hall' Hin) as (c & Hc & Hrest). exists c. split; [right; exact Hc | exact Hrest].
    + destruct Hin as [<- | Hin].
      * exists x. split; [left; reflexivity|]. split; [|split; reflexivity].
        intros [H1 H2]. apply Z.leb_le in H1. apply Z.ltb_lt in H2.
        rewrite H1, H2 in Hsel. discriminate.
      * destruct (IH Hall' Hin) as (c & Hc & Hrest). exists c.
        split; [right; exact Hc | exact Hrest].
Qed.

(** A shift takes a well-formed window below [cur] to a well-formed
    window below the lowered position. *)
Lemma shifted_window_ok spp cur m :
  0 <= spp <= cur /\ cur <= Int32.INT_MAX -> window_ok m cur ->
  window_ok (shifted spp cur m) (cur - (cur - spp) / 2).
Proof.
  intros Hord Hok. split.
  - destruct Hok as [Hnd Hall]. induction m as [|x m IH]; [constructor|].
    inversion Hall as [|? ? [Hseq Hpos] Hall']; subst.
    cbn in Hnd. inversion Hnd as [|? ? Hfresh Hnd']; subst.
    rewrite shifted_cons by assumption.
    destruct ((spp <=? cell_pos x) && (cell_pos x <? spp + (cur - spp) / 2)) eqn:Hsel;
      [apply IH; assumption|].
    cbn [map cell_pos]. constructor; [|apply IH; assumption].
    intros Hin. apply in_map_iff in Hin. destruct Hin as (c' & Hpos' & Hc').
    destruct (in_shifted spp cur m c' Hord (conj Hnd' Hall') Hc')
      as (c & Hc & Hout & _ & Hren).
    apply Hfresh. apply in_map_iff. exists c. split; [|exact Hc].
    assert (Hx : ~ (spp <= cell_pos x < spp + (cur - spp) / 2)).
    { intros [H1 H2]. apply Z.leb_le in H1. apply Z.ltb_lt in H2.
      rewrite H1, H2 in Hsel. discriminate. }
    apply (renumbered_inj spp cur (cell_pos c) (cell_pos x)); [lia | exact Hout | exact Hx |].
    congruence.
  - apply Forall_forall. intros c' Hc'.
    destruct (in_shifted spp cur m c' Hord Hok Hc') as (c & Hc & Hout & Hseq & Hren).
    split; [exact Hseq|]. rewrite Hren.
    destruct Hok as [_ Hall]. rewrite Forall_forall in Hall.
    apply renumbered_bound; [lia | apply (Hall c Hc) | exact Hout].
Qed.

(** Pigeonhole: a well-formed window below [c] holds at most [c] tokens. *)
Lemma window_ok_length m c :
  0 <= c -> window_ok m c -> Z.of_nat (length m) <= c.
Proof.
  intros Hc [Hnd Hall].
  assert (Hincl : incl (map cell_pos m) (map Z.of_nat (seq 0 (Z.to_nat c)))).
  { intros p Hp. apply in_map_iff in Hp. destruct Hp as (x & <- & Hx).
    rewrite Forall_forall in Hall. destruct (Hall x Hx) as [_ Hb].
    apply in_map_iff. exists (Z.to_nat (cell_pos x)). split; [lia|].
    apply in_seq. lia. }
  apply NoDup_incl_length in Hincl; [|exact Hnd].
  rewrite !length_map, length_seq in Hincl. lia.
Qed.

(** ** The batched decode driver *)

Lemma decoded_app tr1 tr2 : decoded (tr1 ++ tr2) = decoded tr1 ++ decoded tr2.
Proof. apply flat_map_app. Qed.

Section Driver.

Variable E : Engine.

Lemma common_batch_clear_unfold s :
  common_batch_clear s =
  mk_state (g_model s) (g_context s) [] (g_sampler s) (chat_msgs s)
    (system_prompt_position s) (current_position s) (stop_generation_position s)
    (cached_token_chars s) (assistant_ss s) (ret_buf s) (kv s) (trace s).
Proof. destruct s; reflexivity. Qed.

Lemma common_batch_add_unfold id pos seqs lg s :
  common_batch_add id pos seqs lg s =
  mk_state (g_model s) (g_context s) (g_batch s ++ [mk_entry id pos seqs lg])
    (g_sampler s) (chat_msgs s)
    (system_prompt_position s) (current_position s) (stop_generation_position s)
    (cached_token_chars s) (assistant_ss s) (ret_buf s) (kv s) (trace s).
Proof. destruct s; reflexivity. Qed.

Lemma llama_decode_unfold s :
  llama_decode E s =
  let r := llama_decode_status E (kv s) (g_batch s) in
  (r, mk_state (g_model s) (g_context s) (g_batch s) (g_sampler s) (chat_msgs s)
        (system_prompt_position s) (current_position s) (stop_generation_position s)
        (cached_token_chars s) (assistant_ss s) (ret_buf s)
        (if r =? 0 then kv s ++ cells_of_batch (g_batch s) else kv s)
        (trace s ++ [call_decode (g_batch s) r])).
Proof.
  destruct s. unfold llama_decode. cbn.
  destruct (llama_decode_status E _ _ =? 0); reflexivity.
Qed.

Lemma fill_batch_frame n j tokens start_pos cll i s :
  frame (fill_batch n j tokens start_pos cll i s) = frame s /\
  current_position (fill_batch n j tokens start_pos cll i s) = current_position s /\
  kv (fill_batch n j tokens start_pos cll i s) = kv s /\
  trace (fill_batch n j tokens start_pos cll i s) = trace s.
Proof.
  revert j s. induction n as [|n IH]; intros j s; cbn [fill_batch]; [auto|].
  destruct (IH (j + 1)
              (common_batch_add (nth (Z.to_nat (Int32.add i j)) tokens 0)
                 (Int32.add (Int32.add start_pos i) j) [0]
                 (cll && (Int32.add i j =? Z.of_nat (length tokens) - 1)) s))
    as (H1 & H2 & H3 & H4).
  rewrite H1, H2, H3, H4. rewrite common_batch_add_unfold. auto.
Qed.

(** Whatever the engine answers, the driver leaves the system prompt
    boundary alone and never raises the current position, which stays at
    or above the boundary. *)
Lemma decode_batches_positions k : forall i tokens start_pos cll s,
  Int32.in_range (current_position s) ->
  0 <= system_prompt_position s <= current_position s ->
  let s' := snd (decode_batches E k i tokens start_pos cll s) in
  frame s' = frame s /\
  system_prompt_position s <= current_position s' <= current_position s.
Proof.
  induction k as [|k IH]; intros i tokens start_pos cll s Hr Hord;
    cbn [decode_batches snd]; [split; [reflexivity | lia]|].
  destruct (negb (i <? Int32.of_size (length tokens)));
    [cbn [snd]; split; [reflexivity | lia]|].
  set (cbs := Z.min (Int32.sub (Int32.of_size (length tokens)) i) BATCH_SIZE).
  set (s2 := if Int32.add (Int32.add start_pos i) cbs
                  >=? DEFAULT_CONTEXT_SIZE - OVERFLOW_HEADROOM
             then shift_context (common_batch_clear s) else common_batch_clear s).
  assert (H2 : frame s2 = frame s /\
               system_prompt_position s <= current_position s2 <= current_position s).
  { subst s2.
    destruct (Int32.add (Int32.add start_pos i) cbs
                >=? DEFAULT_CONTEXT_SIZE - OVERFLOW_HEADROOM).
    - assert (Hc : current_position (common_batch_clear s) = current_position s)
        by (rewrite common_batch_clear_unfold; reflexivity).
      assert (Hs : system_prompt_position (common_batch_clear s)
                   = system_prompt_position s)
        by (rewrite common_batch_clear_unfold; reflexivity).
      split.
      + rewrite shift_context_unfold, common_batch_clear_unfold. reflexivity.
      + rewrite shift_context_current by (rewrite ?Hc, ?Hs; assumption).
        rewrite Hc, Hs.
        pose proof (half_bounds (current_position s - system_prompt_position s)
                      ltac:(lia)). lia.
    - rewrite common_batch_clear_unfold. cbn. split; [reflexivity | lia]. }
  destruct H2 as [Hf2 Hc2].
  destruct (fill_batch_frame (Z.to_nat cbs) 0 tokens start_pos cll i s2)
    as (Hf3 & Hc3 & _ & _).
  set (s3 := fill_batch (Z.to_nat cbs) 0 tokens start_pos cll i s2) in *.
  rewrite llama_decode_unfold. cbv zeta.
  set (r := llama_decode_status E (kv s3) (g_batch s3)).
  set (s4 := mk_state _ _ _ _ _ _ _ _ _ _ _ _ _).
  assert (Hf4 : frame s4 = frame s) by (rewrite <- Hf2, <- Hf3; reflexivity).
  assert (Hc4 : current_position s4 = current_position s2)
    by (rewrite <- Hc3; reflexivity).
  cbv beta iota.
  destruct (negb (r =? 0)); cbn [snd].
  - split; [exact Hf4 | rewrite Hc4; exact Hc2].
  - assert (Hs4 : system_prompt_position s4 = system_prompt_position s).
    { unfold frame in Hf4. congruence. }
    destruct (IH (Int32.add i BATCH_SIZE) tokens start_pos cll s4) as [Hf Hc].
    + rewrite Hc4. unfold Int32.in_range, Int32.INT_MIN in *. lia.
    + rewrite Hc4, Hs4. lia.
    + rewrite Hs4, Hc4 in Hc. split; [congruence | lia].
Qed.

End Driver.

Section DriverRun.

Variable E : Engine.
Variable tokens : list llama_token.
Variable start_pos : llama_pos.
Variable cll : bool.

Hypothesis Hstart : 0 <= start_pos.
Hypothesis Hend : start_pos + Z.of_nat (length tokens) <= Int32.INT_MAX.

Lemma trip_count_size : trip_count (Int32.of_size (length tokens)) = length tokens.
Proof.
  unfold trip_count, BATCH_SIZE, Int32.of_size.
  rewrite int32_small by lia.
  replace (Z.of_nat (length tokens) + 1 - 1) with (Z.of_nat (length tokens)) by lia.
  rewrite Z.div_1_r. apply Nat2Z.id.
Qed.

(** One iteration of the outer loop, with the [int] arithmetic done. *)
Lemma decode_batches_S k (i : nat) s :
  (i < length tokens)%nat ->
  decode_batches E (S k) (Z.of_nat i) tokens start_pos cll s =
  let s2 := if start_pos + Z.of_nat i + 1 >=? DEFAULT_CONTEXT_SIZE - OVERFLOW_HEADROOM
            then shift_context (common_batch_clear s) else common_batch_clear s in
  let s3 := common_batch_add (nth i tokens 0) (start_pos + Z.of_nat i) [0]
              (cll && (Z.of_nat i =? Z.of_nat (length tokens) - 1)) s2 in
  let (r, s4) := llama_decode E s3 in
  if negb (r =? 0) then (1, s4)
  else decode_batches E k (Z.of_nat (S i)) tokens start_pos cll s4.
Proof.
  intros Hi. cbn [decode_batches].
  unfold Int32.INT_MAX in Hend.
  assert (Hsz : Int32.of_size (length tokens) = Z.of_nat (length tokens))
    by (int32_simpl; reflexivity).
  rewrite Hsz.
  destruct (Z.ltb_spec (Z.of_nat i) (Z.of_nat (length tokens))); [|lia].
  cbn [negb].
  assert (Hsub : Int32.sub (Z.of_nat (length tokens)) (Z.of_nat i)
                 = Z.of_nat (length tokens) - Z.of_nat i)
    by (int32_simpl; reflexivity).
  rewrite Hsub. unfold BATCH_SIZE.
  rewrite Z.min_r by lia.
  assert (Hp : Int32.add start_pos (Z.of_nat i) = start_pos + Z.of_nat i)
    by (int32_simpl; reflexivity).
  rewrite Hp.
  assert (Hp1 : Int32.add (start_pos + Z.of_nat i) 1 = start_pos + Z.of_nat i + 1)
    by (int32_simpl; reflexivity).
  rewrite Hp1.
  change (Z.to_nat 1) with 1%nat. cbn [fill_batch]. rewrite ?Hp.
  assert (Hi0 : Int32.add (Z.of_nat i) 0 = Z.of_nat i)
    by (int32_simpl; f_equal; lia).
  rewrite Hi0, Nat2Z.id.
  assert (Hp0 : Int32.add (start_pos + Z.of_nat i) 0 = start_pos + Z.of_nat i)
    by (int32_simpl; lia).
  rewrite Hp0.
  assert (Hi1 : Int32.add (Z.of_nat i) 1 = Z.of_nat (S i))
    by (int32_simpl; lia).
  rewrite Hi1. reflexivity.
Qed.

(** A run of the driver in which every decode succeeded: the positions
    handed to the engine are [start_pos], [start_pos + 1], ... whatever
    shifts happened in between; the window below the current position
    stays well formed; the tokens already at or above [start_pos] are
    not moved and the new ones are added behind them. *)
Lemma decode_batches_run k : forall (i : nat) s s',
  (i + k = length tokens)%nat ->
  0 <= system_prompt_position s <= current_position s ->
  current_position s <= start_pos ->
  decode_batches E k (Z.of_nat i) tokens start_pos cll s = (0, s') ->
  decoded (trace s')
  = decoded (trace s) ++ map (fun j => [entry_at tokens start_pos cll j]) (seq i k) /\
  forall L N,
    kv s = L ++ N -> window_ok L (current_position s) ->
    Forall (fun x => start_pos <= cell_pos x) N ->
    exists L',
      kv s' = L' ++ N ++ map (cell_at tokens start_pos) (seq i k) /\
      window_ok L' (current_position s').
Proof.
  induction k as [|k IH]; intros i s s' Hik Hord Hle Hrun.
  - cbn in Hrun. injection Hrun as <-. cbn [seq map]. rewrite !app_nil_r.
    split; [reflexivity|]. intros L N HL Hok _. exists L.
    rewrite app_nil_r. auto.
  - rewrite decode_batches_S in Hrun by lia. cbv zeta in Hrun.
    set (cond := start_pos + Z.of_nat i + 1
                   >=? DEFAULT_CONTEXT_SIZE - OVERFLOW_HEADROOM) in Hrun.
    set (s2 := if cond then shift_context (common_batch_clear s)
               else common_batch_clear s) in Hrun.
    assert (Hr : Int32.in_range (current_position s)).
    { unfold Int32.in_range, Int32.INT_MIN, Int32.INT_MAX in *. lia. }
    assert (Hc1 : current_position (common_batch_clear s) = current_position s)
      by (rewrite common_batch_clear_unfold; reflexivity).
    assert (Hs1 : system_prompt_position (common_batch_clear s)
                  = system_prompt_position s)
      by (rewrite common_batch_clear_unfold; reflexivity).
    assert (Hk1 : kv (common_batch_clear s) = kv s)
      by (rewrite common_batch_clear_unfold; reflexivity).
    assert (Ht1 : trace (common_batch_clear s) = trace s)
      by (rewrite common_batch_clear_unfold; reflexivity).
    pose proof (half_bounds (current_position s - system_prompt_position s)
                  ltac:(lia)) as Hh.
    assert (H2 : system_prompt_position s2 = system_prompt_position s /\
                 system_prompt_position s <= current_position s2 <= current_position s /\
                 decoded (trace s2) = decoded (trace s) /\
                 forall L N, kv s = L ++ N -> window_ok L (current_position s) ->
                   Forall (fun x => start_pos <= cell_pos x) N ->
                   exists L', kv s2 = L' ++ N /\ window_ok L' (current_position s2)).
    { subst s2. destruct cond.
      - split; [rewrite shift_context_unfold; cbn; exact Hs1|].
        split.
        { rewrite shift_context_current by (rewrite ?Hc1, ?Hs1; assumption).
          rewrite Hc1, Hs1. lia. }
        split.
        { rewrite shift_context_unfold. cbn. rewrite Ht1, !decoded_app. cbn.
          rewrite !app_nil_r. reflexivity. }
        intros L N HL Hok HN.
        rewrite kv_shift_context by (rewrite ?Hc1, ?Hs1; assumption).
        rewrite shift_context_current by (rewrite ?Hc1, ?Hs1; assumption).
        rewrite Hc1, Hs1, Hk1, HL, shifted_app.
        rewrite (shifted_above _ _ N).
        + eexists. split; [reflexivity|].
          apply shifted_window_ok; [|exact Hok].
          unfold Int32.INT_MAX in *. lia.
        + lia.
        + eapply Forall_impl; [|exact HN]. cbv beta. intros x Hx. lia.
      - rewrite Hc1, Hs1, Hk1, Ht1.
        split; [reflexivity|]. split; [lia|]. split; [reflexivity|].
        intros L N HL Hok _. exists L. auto. }
    destruct H2 as (Hs2 & Hc2 & Ht2 & Hk2).
    rewrite llama_decode_unfold in Hrun. cbv zeta in Hrun.
    rewrite common_batch_add_unfold in Hrun. cbn [kv g_batch] in Hrun.
    set (r := llama_decode_status E _ _) in Hrun. cbv beta iota in Hrun.
    destruct (Z.eqb_spec r 0) as [Hr0|Hr0]; cbn [negb] in Hrun; [|discriminate].
    apply IH in Hrun; [| lia | cbn; lia | cbn; lia].
    cbn [trace kv current_position] in Hrun.
    destruct Hrun as [Htr Hkv]. split.
    + rewrite Htr, decoded_app, Ht2. cbn [decoded flat_map].
      rewrite Hr0. replace (g_batch s2) with (@nil batch_entry).
      * cbn. rewrite <- app_assoc. reflexivity.
      * subst s2. destruct cond;
          rewrite ?shift_context_unfold, common_batch_clear_unfold; reflexivity.
    + intros L N HL Hok HN.
      destruct (Hk2 L N HL Hok HN) as (L2 & HL2 & Hok2).
      destruct (Hkv L2 (N ++ [cell_at tokens start_pos i])) as (L' & HL' & Hok').
      * rewrite HL2.
        replace (g_batch s2) with (@nil batch_entry).
        -- cbn. rewrite app_assoc. reflexivity.
        -- subst s2. destruct cond;
             rewrite ?shift_context_unfold, common_batch_clear_unfold; reflexivity.
      * exact Hok2.
      * apply Forall_app. split; [exact HN|]. constructor; [cbn; lia | constructor].
      * exists L'. split; [|exact Hok'].
        rewrite HL'. cbn [seq map]. rewrite <- !app_assoc. reflexivity.
Qed.

(** With an engine that never fails, neither does the driver. *)
Lemma decode_batches_ok k : forall i s,
  (forall m b, llama_decode_status E m b = 0) ->
  fst (decode_batches E k i tokens start_pos cll s) = 0.
Proof.
  induction k as [|k IH]; intros i s Hok; cbn [decode_batches]; [reflexivity|].
  destruct (negb (i <? Int32.of_size (length tokens))); [reflexivity|].
  rewrite llama_decode_unfold. cbv zeta. rewrite Hok. cbn [Z.eqb negb].
  apply IH. exact Hok.
Qed.

(** The trip count is the number of iterations the loop makes: with it,
    the loop stops by its own test, and more fuel changes nothing. *)
Lemma decode_batches_fuel k : forall (i : nat) extra s,
  (i + k = length tokens)%nat ->
  decode_batches E (k + extra) (Z.of_nat i) tokens start_pos cll s
  = decode_batches E k (Z.of_nat i) tokens start_pos cll s.
Proof.
  induction k as [|k IH]; intros i extra s Hik.
  - destruct extra as [|extra]; [reflexivity|].
    cbn [Nat.add decode_batches].
    unfold Int32.of_size. rewrite int32_small by lia.
    destruct (Z.ltb_spec (Z.of_nat i) (Z.of_nat (length tokens))); [lia | reflexivity].
  - cbn [Nat.add]. rewrite !decode_batches_S by lia. cbv zeta.
    destruct (llama_decode E _) as [r s4].
    destruct (negb (r =? 0)); [reflexivity|].
    apply IH. lia.
Qed.

End DriverRun.

(** ** Prompts *)

Lemma decoded_tokens_app tr1 tr2 :
  decoded_tokens (tr1 ++ tr2) = decoded_tokens tr1 ++ decoded_tokens tr2.
Proof.
  unfold decoded_tokens. rewrite decoded_app, concat_app, map_app. reflexivity.
Qed.

Lemma entry_tokens tokens start_pos cll : forall i k,
  (i + k <= length tokens)%nat ->
  map be_token (concat (map (fun j => [entry_at tokens start_pos cll j]) (seq i k)))
  = firstn k (skipn i tokens).
Proof.
  intros i k. revert i. induction k as [|k IH]; intros i Hik; [reflexivity|].
  cbn [seq map concat app be_token entry_at].
  rewrite IH by lia.
  assert (Hi : (i < length tokens)%nat) by lia.
  clear - Hi. revert i Hi. induction tokens as [|t tokens IHt]; intros i Hi;
    [cbn in Hi; lia|].
  destruct i as [|i]; [reflexivity|].
  cbn [nth skipn]. apply IHt. cbn in Hi. lia.
Qed.

Lemma vector_resize_shrink n v :
  (n <= length v)%nat -> vector_resize n v = firstn n v.
Proof.
  intros H. unfold vector_resize.
  replace (n - length v)%nat with 0%nat by lia. cbn. apply app_nil_r.
Qed.

Lemma reset_short_term_states_unfold s :
  reset_short_term_states s =
  mk_state (g_model s) (g_context s) (g_batch s) (g_sampler s) (chat_msgs s)
    (system_prompt_position s) (current_position s) 0 [] [] (ret_buf s) (kv s) (trace s).
Proof. destruct s; reflexivity. Qed.

Section UserPrompt.

Variable E : Engine.

(** A successful [process_user_prompt_ffi], step by step. *)
Lemma process_user_prompt_ffi_run s s' user_prompt n_predict ctx :
  g_context s = Some ctx ->
  Z.of_nat (length (user_tokens E user_prompt)) <= Int32.INT_MAX ->
  process_user_prompt_ffi E (Some user_prompt) n_predict s = (0, s') ->
  exists s1,
    decode_tokens_in_batches E (user_tokens_kept E user_prompt) (current_position s)
      true (reset_short_term_states s) = (0, s1) /\
    current_position s'
    = Int32.add (current_position s1) (Z.of_nat (length (user_tokens E user_prompt))) /\
    stop_generation_position s' = Int32.add (current_position s') n_predict /\
    system_prompt_position s' = system_prompt_position s1 /\
    kv s' = kv s1 /\ trace s' = trace s1 /\
    g_context s' = g_context s1 /\ g_sampler s' = g_sampler s1.
Proof.
  intros Hctx Hsz Hrun. unfold process_user_prompt_ffi in Hrun.
  rewrite Hctx in Hrun.
  cbv beta iota zeta in Hrun. fold (user_tokens E user_prompt) in Hrun.
  replace (current_position (reset_short_term_states s)) with (current_position s)
    in Hrun by (rewrite reset_short_term_states_unfold; reflexivity).
  assert (Hkept : (if Int32.of_size (length (user_tokens E user_prompt))
                        >? DEFAULT_CONTEXT_SIZE - OVERFLOW_HEADROOM
                   then vector_resize
                          (Z.to_nat (DEFAULT_CONTEXT_SIZE - OVERFLOW_HEADROOM))
                          (user_tokens E user_prompt)
                   else user_tokens E user_prompt)
                  = user_tokens_kept E user_prompt).
  { unfold user_tokens_kept.
    destruct (Z.gtb_spec (Int32.of_size (length (user_tokens E user_prompt)))
                (DEFAULT_CONTEXT_SIZE - OVERFLOW_HEADROOM)) as [Hgt|]; [|reflexivity].
    change (Z.to_nat (DEFAULT_CONTEXT_SIZE - OVERFLOW_HEADROOM)) with 252%nat.
    apply vector_resize_shrink.
    unfold Int32.of_size in Hgt. rewrite int32_small in Hgt by lia.
    unfold DEFAULT_CONTEXT_SIZE, OVERFLOW_HEADROOM in Hgt. lia. }
  rewrite Hkept in Hrun.
  destruct (decode_tokens_in_batches E (user_tokens_kept E user_prompt)
              (current_position s) true (reset_short_term_states s))
    as [r s1] eqn:Hd.
  destruct (Z.eqb_spec r 0) as [->|]; cbn [negb] in Hrun; [|discriminate].
  injection Hrun as <-. exists s1. split; [reflexivity|].
  unfold Int32.of_size. rewrite int32_small by lia.
  destruct s1; cbn. repeat split; reflexivity.
Qed.

End UserPrompt.

Section DriverWhole.

Variable E : Engine.

(** The driver as the FFI functions call it, on a successful run. *)
Lemma decode_tokens_in_batches_run tokens start_pos cll s s' :
  0 <= system_prompt_position s <= current_position s ->
  current_position s <= start_pos ->
  start_pos + Z.of_nat (length tokens) <= Int32.INT_MAX ->
  decode_tokens_in_batches E tokens start_pos cll s = (0, s') ->
  frame s' = frame s /\
  system_prompt_position s <= current_position s' <= current_position s /\
  decoded (trace s')
  = decoded (trace s)
    ++ map (fun j => [entry_at tokens start_pos cll j]) (seq 0 (length tokens)) /\
  forall L N,
    kv s = L ++ N -> window_ok L (current_position s) ->
    Forall (fun x => start_pos <= cell_pos x) N ->
    exists L',
      kv s' = L' ++ N ++ map (cell_at tokens start_pos) (seq 0 (length tokens)) /\
      window_ok L' (current_position s').
Proof.
  intros Hord Hle Hend Hrun. unfold decode_tokens_in_batches in Hrun.
  rewrite (trip_count_size tokens start_pos) in Hrun by lia.
  assert (Hr : Int32.in_range (current_position s)).
  { unfold Int32.in_range, Int32.INT_MIN, Int32.INT_MAX in *. lia. }
  pose proof (decode_batches_positions E (length tokens) 0 tokens start_pos cll s
                Hr Hord) as Hpos.
  rewrite Hrun in Hpos. cbn [snd] in Hpos. destruct Hpos as [Hf Hc].
  split; [exact Hf|]. split; [exact Hc|].
  apply (decode_batches_run E tokens start_pos cll ltac:(lia) Hend
           (length tokens) 0%nat s s'); auto.
Qed.

End DriverWhole.

Section DriverShifts.

Variable E : Engine.
Variable tokens : list llama_token.
Variable start_pos : llama_pos.
Variable cll : bool.

Hypothesis Hstart : 0 <= start_pos.
Hypothesis Hend : start_pos + Z.of_nat (length tokens) <= Int32.INT_MAX.
Hypothesis Hfull :
  DEFAULT_CONTEXT_SIZE - OVERFLOW_HEADROOM <= start_pos + Z.of_nat (length tokens).

(** When the sequence reaches the limit, the last batch at the latest
    triggers a shift; with two or more tokens behind the system prompt
    that shift discards, so the current position ends below [start_pos]. *)
Lemma decode_batches_discards k : forall (i : nat) s s',
  (i + S k = length tokens)%nat ->
  0 <= system_prompt_position s <= current_position s ->
  current_position s <= start_pos ->
  current_position s < start_pos \/
  2 <= current_position s - system_prompt_position s ->
  decode_batches E (S k) (Z.of_nat i) tokens start_pos cll s = (0, s') ->
  current_position s' < start_pos.
Proof.
  induction k as [|k IH]; intros i s s' Hik Hord Hle Hpre Hrun;
    rewrite (decode_batches_S E tokens start_pos cll Hstart Hend) in Hrun by lia;
    cbv zeta in Hrun;
    rewrite llama_decode_unfold in Hrun; cbv zeta in Hrun;
    rewrite common_batch_add_unfold in Hrun; cbn [kv g_batch] in Hrun;
    set (r := llama_decode_status E _ _) in Hrun; cbv beta iota in Hrun;
    (destruct (Z.eqb_spec r 0) as [Hr0|Hr0]; cbn [negb] in Hrun; [|discriminate]);
    assert (Hr : Int32.in_range (current_position s))
      by (unfold Int32.in_range, Int32.INT_MIN, Int32.INT_MAX in *; lia);
    assert (Hc1 : current_position (common_batch_clear s) = current_position s)
      by (rewrite common_batch_clear_unfold; reflexivity);
    assert (Hs1 : system_prompt_position (common_batch_clear s)
                  = system_prompt_position s)
      by (rewrite common_batch_clear_unfold; reflexivity);
    pose proof (half_bounds (current_position s - system_prompt_position s)
                  ltac:(lia)) as Hh.
  - (* the last batch *)
    destruct (Z.geb_spec (start_pos + Z.of_nat i + 1)
                (DEFAULT_CONTEXT_SIZE - OVERFLOW_HEADROOM)) as [_|Hlt]; [|lia].
    cbn in Hrun. injection Hrun as <-. cbn [current_position].
    rewrite shift_context_current by (rewrite ?Hc1, ?Hs1; assumption).
    rewrite Hc1, Hs1.
    destruct Hpre as [Hlt | Hgap]; [lia|].
    assert (1 <= (current_position s - system_prompt_position s) / 2)
      by (apply Z.div_le_lower_bound; lia).
    lia.
  - (* an earlier batch *)
    apply IH in Hrun; [exact Hrun | lia | | | ]; cbn [current_position system_prompt_position].
    + destruct (start_pos + Z.of_nat i + 1 >=? DEFAULT_CONTEXT_SIZE - OVERFLOW_HEADROOM).
      * rewrite shift_context_current by (rewrite ?Hc1, ?Hs1; assumption).
        rewrite shift_context_unfold. cbn. rewrite Hc1, Hs1. lia.
      * rewrite Hc1, Hs1. lia.
    + destruct (start_pos + Z.of_nat i + 1 >=? DEFAULT_CONTEXT_SIZE - OVERFLOW_HEADROOM).
      * rewrite shift_context_current by (rewrite ?Hc1, ?Hs1; assumption).
        rewrite Hc1, Hs1. lia.
      * rewrite Hc1. lia.
    + destruct (start_pos + Z.of_nat i + 1 >=? DEFAULT_CONTEXT_SIZE - OVERFLOW_HEADROOM).
      * rewrite shift_context_current by (rewrite ?Hc1, ?Hs1; assumption).
        rewrite shift_context_unfold. cbn. rewrite Hc1, Hs1.
        destruct Hpre as [Hlt | Hgap]; [left; lia|].
        assert (1 <= (current_position s - system_prompt_position s) / 2)
          by (apply Z.div_le_lower_bound; lia).
        left. lia.
      * rewrite Hc1, Hs1. exact Hpre.
Qed.

End DriverShifts.

(** ** The driver and the shift (C10) *)

(** C10: the driver gives the [j]-th token of the sequence the position
    [start_pos + j], whether or not it shifted the context on the way: the
    batches it has decoded are exactly those, one token each.  Called as
    the FFI functions call it, from the current position of a well-formed
    window, it leaves every earlier token below the (possibly lowered)
    current position and puts the new ones at [start_pos] and above; no
    token sits in between, and when the sequence reaches the limit with at
    least two tokens behind the system prompt, the current position has
    been lowered, so the new tokens do not follow on the resident ones. *)
Theorem driver_positions_ignore_shift (E : Engine) (tokens : list llama_token)
    (cll : bool) (s s' : state) :
  let start_pos := current_position s in
  0 <= system_prompt_position s <= current_position s ->
  start_pos + Z.of_nat (length tokens) <= Int32.INT_MAX ->
  window_ok (kv s) (current_position s) ->
  decode_tokens_in_batches E tokens start_pos cll s = (0, s') ->
  decoded (trace s')
  = decoded (trace s)
    ++ map (fun j => [entry_at tokens start_pos cll j]) (seq 0 (length tokens)) /\
  (forall j, (j < length tokens)%nat -> In (cell_at tokens start_pos j) (kv s')) /\
  (forall c, In c (kv s') -> cell_pos c < current_position s' \/ start_pos <= cell_pos c) /\
  current_position s' <= start_pos /\
  (DEFAULT_CONTEXT_SIZE - OVERFLOW_HEADROOM <= start_pos + Z.of_nat (length tokens) ->
   (1 <= length tokens)%nat ->
   2 <= current_position s - system_prompt_position s ->
   current_position s' < start_pos).
Proof.
  intros start_pos Hord Hend Hok Hrun.
  destruct (decode_tokens_in_batches_run E tokens start_pos cll s s' Hord
              ltac:(unfold start_pos; lia) Hend Hrun) as (_ & Hc & Htr & Hkv).
  destruct (Hkv (kv s) []) as (L' & HL' & Hok');
    [symmetry; apply app_nil_r | exact Hok | constructor |].
  cbn [app] in HL'.
  split; [exact Htr|]. split; [|split; [|split]].
  - intros j Hj. rewrite HL'. apply in_or_app. right.
    apply in_map. apply in_seq. lia.
  - intros c Hin. rewrite HL' in Hin. apply in_app_or in Hin.
    destruct Hin as [Hin | Hin].
    + left. destruct Hok' as [_ Hall]. rewrite Forall_forall in Hall.
      apply (Hall c Hin).
    + right. apply in_map_iff in Hin. destruct Hin as (j & <- & _). cbn. lia.
  - unfold start_pos. lia.
  - intros Hfull Hlen Hgap.
    unfold decode_tokens_in_batches in Hrun.
    rewrite (trip_count_size tokens start_pos) in Hrun by (unfold start_pos; lia).
    destruct (length tokens) as [|k] eqn:Hk; [lia|].
    apply (decode_batches_discards E tokens start_pos cll ltac:(unfold start_pos; lia)
             ltac:(rewrite Hk; exact Hend) ltac:(rewrite Hk; exact Hfull)
             k 0%nat s s');
      [lia | exact Hord | unfold start_pos; lia | right; exact Hgap | exact Hrun].
Qed.

(** ** Over-long user prompts (C1, C9) *)

Lemma user_tokens_kept_long E user_prompt :
  Z.of_nat (length (user_tokens E user_prompt)) <= Int32.INT_MAX ->
  DEFAULT_CONTEXT_SIZE - OVERFLOW_HEADROOM < Z.of_nat (length (user_tokens E user_prompt)) ->
  user_tokens_kept E user_prompt = firstn 252 (user_tokens E user_prompt) /\
  length (firstn 252 (user_tokens E user_prompt)) = 252%nat.
Proof.
  intros Hmax Hlong. unfold user_tokens_kept, Int32.of_size.
  rewrite int32_small by lia.
  destruct (Z.gtb_spec (Z.of_nat (length (user_tokens E user_prompt)))
              (DEFAULT_CONTEXT_SIZE - OVERFLOW_HEADROOM)); [|lia].
  split; [reflexivity|]. rewrite length_firstn.
  unfold DEFAULT_CONTEXT_SIZE, OVERFLOW_HEADROOM in Hlong. lia.
Qed.

Lemma process_user_prompt_ffi_status E s user_prompt n_predict ctx :
  g_context s = Some ctx ->
  (forall m b, llama_decode_status E m b = 0) ->
  fst (process_user_prompt_ffi E (Some user_prompt) n_predict s) = 0.
Proof.
  intros Hctx Hok. unfold process_user_prompt_ffi. rewrite Hctx. cbv beta iota zeta.
  match goal with
  | |- context [decode_tokens_in_batches E ?t ?p ?c ?st] =>
      pose proof (decode_batches_ok E t p c
                    (trip_count (Int32.of_size (length t))) 0 st Hok) as Hd;
      fold (decode_tokens_in_batches E t p c st) in Hd;
      destruct (decode_tokens_in_batches E t p c st) as [r s1]
  end.
  cbn [fst] in Hd. subst r. reflexivity.
Qed.

(** C1, as the code has it: a user prompt of more than 252 tokens is cut
    down to exactly 252 tokens, and the ones kept are the FIRST 252
    ([resize] drops the tail).  The call does not fail for the length: it
    returns 0 whenever the engine decodes every batch; and when it returns
    0, the tokens decoded are that prefix, in order, at the positions that
    follow the current one. *)
Theorem user_prompt_truncation_keeps_head (E : Engine) (s : state)
    (user_prompt : string) (n_predict : Z) (ctx : llama_context) :
  let toks := user_tokens E user_prompt in
  let r := process_user_prompt_ffi E (Some user_prompt) n_predict s in
  g_context s = Some ctx ->
  0 <= system_prompt_position s <= current_position s ->
  current_position s + Z.of_nat (length toks) <= Int32.INT_MAX ->
  DEFAULT_CONTEXT_SIZE - OVERFLOW_HEADROOM < Z.of_nat (length toks) ->
  length (firstn 252 toks) = 252%nat /\
  ((forall m b, llama_decode_status E m b = 0) -> fst r = 0) /\
  (fst r = 0 ->
   decoded_tokens (trace (snd r)) = decoded_tokens (trace s) ++ firstn 252 toks /\
   decoded (trace (snd r))
   = decoded (trace s)
     ++ map (fun j => [entry_at (firstn 252 toks) (current_position s) true j])
          (seq 0 252)).
Proof.
  intros toks r Hctx Hord Hend Hlong.
  destruct (user_tokens_kept_long E user_prompt ltac:(fold toks; lia) Hlong)
    as [Hkept Hlen].
  fold toks in Hkept, Hlen.
  split; [exact Hlen|]. split.
  - intros Hok. apply process_user_prompt_ffi_status with (ctx := ctx); assumption.
  - intros Hr0. destruct r as [st s'] eqn:Hr. cbn [fst snd] in *. subst st.
    destruct (process_user_prompt_ffi_run E s s' user_prompt n_predict ctx Hctx
                ltac:(fold toks; lia) Hr)
      as (s1 & Hd & _ & _ & _ & _ & Htr & _).
    rewrite Hkept in Hd.
    apply decode_tokens_in_batches_run in Hd;
      [| rewrite reset_short_term_states_unfold; exact Hord
       | rewrite reset_short_term_states_unfold; cbn; lia
       | rewrite Hlen; unfold DEFAULT_CONTEXT_SIZE, OVERFLOW_HEADROOM in Hlong; lia ].
    destruct Hd as (_ & _ & Hdec & _).
    rewrite reset_short_term_states_unfold in Hdec. cbn [trace] in Hdec.
    rewrite Hlen in Hdec. rewrite Htr.
    split; [|exact Hdec].
    unfold decoded_tokens. rewrite Hdec, concat_app, map_app.
    f_equal.
    rewrite <- Hlen at 1. rewrite entry_tokens by lia.
    cbn [skipn]. rewrite Hlen. rewrite <- Hlen at 1. apply firstn_all.
Qed.

(** C9: when the prompt is cut (more than 252 tokens), a successful
    [process_user_prompt_ffi] has decoded 252 tokens but moves
    [current_position] on by the length of the whole prompt from where the
    driver left it.  The position therefore ends above 252, and, starting
    from a well-formed window, above the number of tokens in memory. *)
Theorem truncated_prompt_advances_by_original_size (E : Engine) (s s' : state)
    (user_prompt : string) (n_predict : Z) (ctx : llama_context) :
  let toks := user_tokens E user_prompt in
  g_context s = Some ctx ->
  0 <= system_prompt_position s <= current_position s ->
  current_position s + Z.of_nat (length toks) <= Int32.INT_MAX ->
  DEFAULT_CONTEXT_SIZE - OVERFLOW_HEADROOM < Z.of_nat (length toks) ->
  window_ok (kv s) (current_position s) ->
  process_user_prompt_ffi E (Some user_prompt) n_predict s = (0, s') ->
  exists s1,
    decode_tokens_in_batches E (firstn 252 toks) (current_position s) true
      (reset_short_term_states s) = (0, s1) /\
    length (decoded (trace s')) = (length (decoded (trace s)) + 252)%nat /\
    current_position s' = current_position s1 + Z.of_nat (length toks) /\
    DEFAULT_CONTEXT_SIZE - OVERFLOW_HEADROOM < current_position s' /\
    Z.of_nat (length (kv s')) < current_position s'.
Proof.
  intros toks Hctx Hord Hend Hlong Hok Hrun.
  destruct (user_tokens_kept_long E user_prompt ltac:(fold toks; lia) Hlong)
    as [Hkept Hlen].
  fold toks in Hkept, Hlen.
  destruct (process_user_prompt_ffi_run E s s' user_prompt n_predict ctx Hctx
              ltac:(fold toks; lia) Hrun)
    as (s1 & Hd & Hcur & _ & _ & Hkv & Htr & _).
  fold toks in Hcur. rewrite Hkept in Hd.
  exists s1. split; [exact Hd|].
  apply decode_tokens_in_batches_run in Hd;
    [| rewrite reset_short_term_states_unfold; exact Hord
     | rewrite reset_short_term_states_unfold; cbn; lia
     | rewrite Hlen; unfold DEFAULT_CONTEXT_SIZE, OVERFLOW_HEADROOM in Hlong; lia ].
  destruct Hd as (_ & Hc1 & Hdec & Hmem).
  rewrite reset_short_term_states_unfold in Hc1, Hdec, Hmem.
  cbn [system_prompt_position current_position trace kv] in Hc1, Hdec, Hmem.
  destruct (Hmem (kv s) []) as (L' & HL' & Hok');
    [symmetry; apply app_nil_r | exact Hok | constructor |].
  cbn [app] in HL'.
  assert (Hcur' : current_position s' = current_position s1 + Z.of_nat (length toks)).
  { rewrite Hcur. unfold Int32.add. apply int32_small. lia. }
  split.
  { rewrite Htr, Hdec, length_app, length_map, length_seq. lia. }
  split; [exact Hcur'|].
  unfold DEFAULT_CONTEXT_SIZE, OVERFLOW_HEADROOM in *.
  split; [lia|].
  rewrite Hkv, HL', length_app, length_map, length_seq, Hlen.
  pose proof (window_ok_length L' (current_position s1) ltac:(lia) Hok'). lia.
Qed.

(** Takes the last component off an equation between tuples, without
    computing in it. *)
Ltac last_component H Hlast :=
  apply pair_equal_spec in H; destruct H as [H Hlast].

Lemma distinct_NoDup l : distinct l = true -> NoDup l.
Proof.
  induction l as [|x l IH]; intros H; [constructor|].
  cbn in H. apply andb_prop in H. destruct H as [Hx Hl].
  constructor; [|apply IH; exact Hl].
  intros Hin. apply negb_true_iff in Hx.
  assert (existsb (Z.eqb x) l = true); [|congruence].
  apply existsb_exists. exists x. split; [exact Hin | apply Z.eqb_refl].
Qed.

Lemma window_okb_sound m c : window_okb m c = true -> window_ok m c.
Proof.
  unfold window_okb, window_ok. intros H. apply andb_prop in H. destruct H as [Hd Hf].
  split; [apply distinct_NoDup; exact Hd|].
  apply Forall_forall. intros x Hx.
  rewrite forallb_forall in Hf. specialize (Hf x Hx).
  apply andb_prop in Hf. destruct Hf as [Hf Hlt].
  apply andb_prop in Hf. destruct Hf as [Hseq Hle].
  apply Z.eqb_eq in Hseq. apply Z.leb_le in Hle. apply Z.ltb_lt in Hlt. lia.
Qed.

(** The claim of C1 read literally fails: of the 253 tokens of this
    prompt the call decodes the first 252, whose first token is that of
    [U]; the last 252 would start at the second token. *)
Lemma user_prompt_truncation_not_tail :
  let toks := user_tokens ByteEngine.engine (ByteEngine.letters 235) in
  let r := process_user_prompt_ffi ByteEngine.engine
             (Some (ByteEngine.letters 235)) 5 ByteEngine.prepared in
  length toks = 253%nat /\ fst r = 0 /\
  decoded_tokens (trace (snd r)) = firstn 252 toks /\
  decoded_tokens (trace (snd r)) <> skipn (253 - 252) toks.
Proof.
  intros toks r.
  assert (H : (length toks, fst r, decoded_tokens (trace (snd r)))
              = (253%nat, 0, firstn 252 toks)) by (vm_compute; reflexivity).
  last_component H Hdec. last_component H Hst.
  split; [exact H|]. split; [exact Hst|]. split; [exact Hdec|].
  rewrite Hdec. intros Hne. vm_compute in Hne. discriminate Hne.
Qed.

Lemma user_prompt_truncation_keeps_head_witness :
  let toks := user_tokens ByteEngine.engine (ByteEngine.letters 235) in
  let r := process_user_prompt_ffi ByteEngine.engine
             (Some (ByteEngine.letters 235)) 5 ByteEngine.prepared in
  decoded_tokens (trace (snd r)) = firstn 252 toks.
Proof.
  intros toks r.
  destruct (user_prompt_truncation_keeps_head ByteEngine.engine ByteEngine.prepared
              (ByteEngine.letters 235) 5 1%nat) as (_ & _ & H).
  - reflexivity.
  - vm_compute. split; discriminate.
  - vm_compute. discriminate.
  - vm_compute. reflexivity.
  - destruct H as [H _]; [vm_compute; reflexivity|]. exact H.
Defined.

Lemma truncated_prompt_advances_by_original_size_witness :
  let s' := snd (process_user_prompt_ffi ByteEngine.engine
                   (Some (ByteEngine.letters 235)) 5 ByteEngine.prepared) in
  DEFAULT_CONTEXT_SIZE - OVERFLOW_HEADROOM < current_position s' /\
  Z.of_nat (length (kv s')) < current_position s'.
Proof.
  intros s'.
  destruct (truncated_prompt_advances_by_original_size ByteEngine.engine
              ByteEngine.prepared s' (ByteEngine.letters 235) 5 1%nat)
    as (s1 & _ & _ & _ & H1 & H2).
  - reflexivity.
  - vm_compute. split; discriminate.
  - vm_compute. discriminate.
  - vm_compute. reflexivity.
  - apply window_okb_sound. vm_compute. reflexivity.
  - vm_compute. reflexivity.
  - split; [exact H1 | exact H2].
Defined.

Lemma driver_positions_ignore_shift_witness :
  let s := ByteEngine.after_hi in
  let tokens := ByteEngine.tokenize (ByteEngine.letters 225) in
  let s' := snd (decode_tokens_in_batches ByteEngine.engine tokens
                   (current_position s) true s) in
  In (cell_at tokens (current_position s) 0) (kv s') /\
  current_position s' < current_position s.
Proof.
  intros s tokens s'.
  destruct (driver_positions_ignore_shift ByteEngine.engine tokens true s s')
    as (_ & Hin & _ & _ & Hlow).
  - vm_compute. split; discriminate.
  - vm_compute. discriminate.
  - apply window_okb_sound. vm_compute. reflexivity.
  - vm_compute. reflexivity.
  - split.
    + apply Hin. vm_compute. lia.
    + apply Hlow.
      * vm_compute. discriminate.
      * vm_compute. lia.
      * vm_compute. discriminate.
Defined.

(** ** Over-long system prompts (C3) *)

Lemma reset_long_term_states_unfold s ctx :
  g_context s = Some ctx ->
  reset_long_term_states true s =
  mk_state (g_model s) (g_context s) (g_batch s) (g_sampler s) [] 0 0
    (stop_generation_position s) (cached_token_chars s) (assistant_ss s) (ret_buf s)
    [] (trace s ++ [call_memory_clear]).
Proof. destruct s. cbn. intros ->. reflexivity. Qed.

(** C3, as the code has it: a system prompt of more than 252 tokens is
    rejected with status 1 and nothing of it is decoded (it is not cut
    down); but the reset at the entry of the call has already been done, so
    [current_position] and [system_prompt_position] are 0 afterwards and
    the engine memory is cleared, whatever they were before. *)
Theorem system_prompt_too_long_rejected (E : Engine) (s : state)
    (system_prompt : string) (ctx : llama_context) :
  let r := process_system_prompt_ffi E (Some system_prompt) s in
  g_context s = Some ctx ->
  Z.of_nat (length (system_tokens E system_prompt)) <= Int32.INT_MAX ->
  DEFAULT_CONTEXT_SIZE - OVERFLOW_HEADROOM
  < Z.of_nat (length (system_tokens E system_prompt)) ->
  fst r = 1 /\
  decoded (trace (snd r)) = decoded (trace s) /\
  trace (snd r) = trace s ++ [call_memory_clear] /\
  current_position (snd r) = 0 /\
  system_prompt_position (snd r) = 0 /\
  kv (snd r) = [].
Proof.
  intros r Hctx Hmax Hlong. subst r. unfold process_system_prompt_ffi.
  rewrite Hctx. cbv beta iota zeta. fold (system_tokens E system_prompt).
  unfold Int32.of_size. rewrite int32_small by lia.
  destruct (Z.gtb_spec (Z.of_nat (length (system_tokens E system_prompt)))
              (DEFAULT_CONTEXT_SIZE - OVERFLOW_HEADROOM)); [|lia].
  rewrite (reset_long_term_states_unfold s ctx Hctx).
  rewrite reset_short_term_states_unfold. cbn.
  rewrite decoded_app. cbn. rewrite app_nil_r. repeat split; reflexivity.
Qed.

Lemma system_prompt_too_long_rejected_witness :
  let r := process_system_prompt_ffi ByteEngine.engine
             (Some (ByteEngine.letters 250)) ByteEngine.after_hi in
  fst r = 1 /\ current_position (snd r) = 0.
Proof.
  intros r.
  destruct (system_prompt_too_long_rejected ByteEngine.engine ByteEngine.after_hi
              (ByteEngine.letters 250) 1%nat) as (H1 & _ & _ & H2 & _).
  - reflexivity.
  - vm_compute. discriminate.
  - vm_compute. reflexivity.
  - split; [exact H1 | exact H2].
Defined.

(** The claim of C3 read literally fails: in a session that stands at
    position 30, the rejected call leaves [current_position] at 0. *)
Lemma system_prompt_too_long_alters_position :
  let s := ByteEngine.after_hi in
  let r := process_system_prompt_ffi ByteEngine.engine
             (Some (ByteEngine.letters 250)) s in
  length (system_tokens ByteEngine.engine (ByteEngine.letters 250)) = 259%nat /\
  fst r = 1 /\
  current_position s = 30 /\
  current_position (snd r) <> current_position s.
Proof.
  intros s r.
  assert (H : (length (system_tokens ByteEngine.engine (ByteEngine.letters 250)),
               fst r, current_position s, current_position (snd r))
              = (259%nat, 1, 30, 0)) by (vm_compute; reflexivity).
  last_component H Hafter. last_component H Hbefore. last_component H Hst.
  split; [exact H|]. split; [exact Hst|]. split; [exact Hbefore|].
  rewrite Hafter, Hbefore. discriminate.
Qed.

(** ** Positions during generation (C2, C7) *)

(** C2 at a concrete session: after the 10 tokens of the system prompt, a
    user prompt of 243 tokens (no truncation, and the 253 tokens fit the
    256 cells of the engine) leaves [current_position] at 253, above
    252. *)
Theorem position_bound_exceeded :
  let r := process_user_prompt_ffi ByteEngine.engine
             (Some (ByteEngine.letters 225)) 5 ByteEngine.with_system_prompt in
  length (user_tokens ByteEngine.engine (ByteEngine.letters 225)) = 243%nat /\
  fst r = 0 /\
  system_prompt_position (snd r) = 10 /\
  current_position (snd r) = 253 /\
  length (kv (snd r)) = 253%nat /\
  ~ (current_position (snd r) <= DEFAULT_CONTEXT_SIZE - OVERFLOW_HEADROOM).
Proof.
  intros r.
  assert (H : (length (user_tokens ByteEngine.engine (ByteEngine.letters 225)),
               fst r, system_prompt_position (snd r), current_position (snd r),
               length (kv (snd r)))
              = (243%nat, 0, 10, 253, 253%nat)) by (vm_compute; reflexivity).
  last_component H Hkv. last_component H Hcur. last_component H Hspp.
  last_component H Hst.
  split; [exact H|]. split; [exact Hst|]. split; [exact Hspp|].
  split; [exact Hcur|]. split; [exact Hkv|].
  rewrite Hcur. unfold DEFAULT_CONTEXT_SIZE, OVERFLOW_HEADROOM. lia.
Qed.

(** C7 at two concrete sessions.  With the turn starting at position 252
    and [n_predict = 0], the first call finds [current_position >=
    stop_generation_position], shifts, and returns text.  With the turn
    starting at 250 and [n_predict = 5], twenty calls in a row all return
    text: the shift at 252 lowers the position and 255 is never reached. *)
Theorem generation_outruns_n_predict :
  let s0 := snd (process_user_prompt_ffi ByteEngine.engine
                   (Some (ByteEngine.letters 224)) 0 ByteEngine.with_system_prompt) in
  let s5 := snd (process_user_prompt_ffi ByteEngine.engine
                   (Some (ByteEngine.letters 222)) 5 ByteEngine.with_system_prompt) in
  (current_position s0 = 252 /\ stop_generation_position s0 = 252 /\
   fst (generate_next_token_ffi ByteEngine.engine s0) = Some [x61]) /\
  (current_position s5 = 250 /\ stop_generation_position s5 = 255 /\
   text_chunks (fst (generate_calls ByteEngine.engine 20 s5)) = 20%nat).
Proof.
  intros s0 s5. split.
  - assert (H : (current_position s0, stop_generation_position s0,
                 fst (generate_next_token_ffi ByteEngine.engine s0))
                = (252, 252, Some [x61])) by (vm_compute; reflexivity).
    last_component H Hchunk. last_component H Hstop.
    split; [exact H|]. split; [exact Hstop | exact Hchunk].
  - assert (H : (current_position s5, stop_generation_position s5,
                 text_chunks (fst (generate_calls ByteEngine.engine 20 s5)))
                = (250, 255, 20%nat)) by (vm_compute; reflexivity).
    last_component H Hchunks. last_component H Hstop.
    split; [exact H|]. split; [exact Hstop | exact Hchunks].
Qed.

Section Generation.

Variable E : Engine.

Lemma emit_token_chars_positions piece s :
  current_position (snd (emit_token_chars piece s)) = current_position s /\
  stop_generation_position (snd (emit_token_chars piece s))
  = stop_generation_position s /\
  system_prompt_position (snd (emit_token_chars piece s)) = system_prompt_position s.
Proof.
  destruct s. unfold emit_token_chars. cbn -[is_valid_utf8].
  destruct (is_valid_utf8 _); cbn; auto.
Qed.

(** Below the limit, with the stop position ahead, a token the engine
    decodes and that does not end the generation goes through the
    assembler, and the call returns the assembler's chunk. *)
Lemma generate_next_token_ffi_assembles s ctx sm :
  g_context s = Some ctx -> g_sampler s = Some sm ->
  current_position s < DEFAULT_CONTEXT_SIZE - OVERFLOW_HEADROOM ->
  current_position s < stop_generation_position s ->
  let tok := llama_sampler_sample E sm (kv s) in
  llama_decode_status E (kv s) [mk_entry tok (current_position s) [0] true] = 0 ->
  llama_vocab_is_eog E tok = false ->
  exists s1,
    cached_token_chars s1 = cached_token_chars s /\
    assistant_ss s1 = assistant_ss s /\
    generate_next_token_ffi E s
    = (Some (fst (emit_token_chars (common_token_to_piece E tok) s1)),
       snd (emit_token_chars (common_token_to_piece E tok) s1)).
Proof.
  destruct s as [m c b sa msgs spp cur stop cached ss rb mem tr].
  cbn [g_context g_sampler current_position stop_generation_position kv
       cached_token_chars assistant_ss].
  intros -> -> Hlim Hstop Hdec Heog.
  unfold generate_next_token_ffi.
  cbn [g_context g_sampler current_position stop_generation_position].
  destruct (Z.geb_spec cur (DEFAULT_CONTEXT_SIZE - OVERFLOW_HEADROOM)); [lia|].
  cbn [current_position stop_generation_position].
  destruct (Z.geb_spec cur stop); [lia|].
  cbn [kv].
  unfold llama_decode. cbn. rewrite Hdec. cbn. rewrite Heog.
  match goal with
  | |- context [emit_token_chars ?p ?st] =>
      exists st; destruct (emit_token_chars p st) as [chunk s2]
  end.
  cbn. auto.
Qed.

(** One call below the limit: no shift, the stop position stays, and the
    position moves on by one exactly when the stop position is ahead and
    the decode succeeds; text is returned only then. *)
Lemma generate_next_token_ffi_step s :
  0 <= current_position s < DEFAULT_CONTEXT_SIZE - OVERFLOW_HEADROOM ->
  let r := generate_next_token_ffi E s in
  stop_generation_position (snd r) = stop_generation_position s /\
  (current_position (snd r) = current_position s /\ fst r = None \/
   current_position s < stop_generation_position s /\
   current_position (snd r) = current_position s + 1).
Proof.
  destruct s as [m c b sa msgs spp cur stop cached ss rb mem tr].
  cbn [current_position stop_generation_position]. intros Hcur.
  unfold generate_next_token_ffi. cbn [g_context g_sampler].
  destruct c as [ctx|]; [|cbn; auto].
  destruct sa as [sm|]; [|cbn; auto].
  cbn [current_position stop_generation_position].
  destruct (Z.geb_spec cur (DEFAULT_CONTEXT_SIZE - OVERFLOW_HEADROOM)); [lia|].
  cbn [current_position stop_generation_position].
  destruct (Z.geb_spec cur stop); [cbn; auto|].
  unfold llama_decode. cbn.
  destruct (llama_decode_status E mem _ =? 0); cbn; [|auto].
  assert (Hadd : Int32.add cur 1 = cur + 1).
  { unfold Int32.add. apply int32_small.
    unfold DEFAULT_CONTEXT_SIZE, OVERFLOW_HEADROOM, Int32.INT_MAX in *. lia. }
  destruct (llama_vocab_is_eog E _).
  - cbn. rewrite Hadd. split; [reflexivity|]. right. lia.
  - match goal with
    | |- context [emit_token_chars ?p ?st] =>
        pose proof (emit_token_chars_positions p st) as (H1 & H2 & _);
        destruct (emit_token_chars p st) as [chunk s2]
    end.
    cbn in *. rewrite H1, H2, Hadd. split; [reflexivity|]. right. lia.
Qed.

(** A turn that stays clear of the limit returns text at most as many
    times as the stop position is ahead. *)
Lemma generation_bounded_without_shift n : forall s,
  0 <= current_position s < DEFAULT_CONTEXT_SIZE - OVERFLOW_HEADROOM ->
  stop_generation_position s < DEFAULT_CONTEXT_SIZE - OVERFLOW_HEADROOM ->
  (text_chunks (fst (generate_calls E n s))
   <= Z.to_nat (stop_generation_position s - current_position s))%nat.
Proof.
  induction n as [|n IH]; intros s Hcur Hstop; [cbn; lia|].
  cbn [generate_calls].
  pose proof (generate_next_token_ffi_step s Hcur) as Hstep. cbv zeta in Hstep.
  destruct (generate_next_token_ffi E s) as [chunk s1]. cbn [fst snd] in Hstep.
  destruct Hstep as [Hst Hpos].
  assert (Hcur1 : 0 <= current_position s1
                  < DEFAULT_CONTEXT_SIZE - OVERFLOW_HEADROOM) by lia.
  specialize (IH s1 Hcur1 ltac:(lia)).
  destruct (generate_calls E n s1) as [chunks s2]. cbn [fst] in *.
  unfold text_chunks in *. cbn [filter].
  destruct Hpos as [[Hsame ->] | [Hahead Hnext]].
  - rewrite Hst, Hsame in IH. exact IH.
  - rewrite Hst, Hnext in IH. destruct chunk; cbn [length]; lia.
Qed.

End Generation.

(** ** What does hold of the positions

    The ordering [0 <= system_prompt_position <= current_position], which
    the theorems on the shift and the driver assume, is established by a
    successful system prompt and kept by every later call. *)

Section Ordering.

Variable E : Engine.

Lemma process_system_prompt_ffi_positions s s' system_prompt :
  Z.of_nat (length (system_tokens E system_prompt)) <= Int32.INT_MAX ->
  process_system_prompt_ffi E (Some system_prompt) s = (0, s') ->
  system_prompt_position s' = Z.of_nat (length (system_tokens E system_prompt)) /\
  current_position s' = Z.of_nat (length (system_tokens E system_prompt)) /\
  current_position s' <= DEFAULT_CONTEXT_SIZE - OVERFLOW_HEADROOM.
Proof.
  intros Hmax Hrun. unfold process_system_prompt_ffi in Hrun.
  destruct (g_context s); [|discriminate].
  cbv beta iota zeta in Hrun. fold (system_tokens E system_prompt) in Hrun.
  unfold Int32.of_size in Hrun. rewrite int32_small in Hrun by lia.
  destruct (Z.gtb_spec (Z.of_nat (length (system_tokens E system_prompt)))
              (DEFAULT_CONTEXT_SIZE - OVERFLOW_HEADROOM)); [discriminate|].
  destruct (decode_tokens_in_batches E _ _ _ _) as [r s1].
  destruct (Z.eqb_spec r 0); cbn [negb] in Hrun; [|discriminate].
  injection Hrun as <-. destruct s1. cbn. auto.
Qed.

Lemma process_user_prompt_ffi_positions s user_prompt n_predict :
  0 <= system_prompt_position s <= current_position s ->
  current_position s + Z.of_nat (length (user_tokens E user_prompt)) <= Int32.INT_MAX ->
  let s' := snd (process_user_prompt_ffi E (Some user_prompt) n_predict s) in
  system_prompt_position s' = system_prompt_position s /\
  system_prompt_position s <= current_position s'.
Proof.
  intros Hord Hend. unfold process_user_prompt_ffi.
  destruct (g_context s); [|cbn; split; [reflexivity | lia]].
  cbv beta iota zeta. fold (user_tokens E user_prompt).
  assert (Hr : Int32.in_range (current_position (reset_short_term_states s))).
  { rewrite reset_short_term_states_unfold. cbn.
    unfold Int32.in_range, Int32.INT_MIN, Int32.INT_MAX in *. lia. }
  assert (Ho : 0 <= system_prompt_position (reset_short_term_states s)
               <= current_position (reset_short_term_states s)).
  { rewrite reset_short_term_states_unfold. exact Hord. }
  match goal with
  | |- context [decode_tokens_in_batches E ?t ?p ?c ?st] =>
      pose proof (decode_batches_positions E (trip_count (Int32.of_size (length t)))
                    0 t p c st Hr Ho) as Hpos;
      fold (decode_tokens_in_batches E t p c st) in Hpos;
      destruct (decode_tokens_in_batches E t p c st) as [r s1]
  end.
  cbv zeta in Hpos. cbn [snd] in Hpos. destruct Hpos as [Hf Hc].
  rewrite reset_short_term_states_unfold in Hf, Hc.
  cbn [system_prompt_position current_position] in Hc.
  assert (Hs : system_prompt_position s1 = system_prompt_position s).
  { unfold frame in Hf. cbn in Hf. congruence. }
  destruct (negb (r =? 0)); cbn [snd]; [split; [exact Hs | lia]|].
  unfold Int32.of_size. rewrite int32_small by lia.
  destruct s1. cbn in *. split; [exact Hs|].
  unfold Int32.add. rewrite int32_small by lia. lia.
Qed.

Lemma generate_next_token_ffi_positions s :
  0 <= system_prompt_position s <= current_position s ->
  current_position s < Int32.INT_MAX ->
  let s' := snd (generate_next_token_ffi E s) in
  system_prompt_position s' = system_prompt_position s /\
  system_prompt_position s <= current_position s' <= current_position s + 1.
Proof.
  intros Hord Hmax.
  assert (Hr : Int32.in_range (current_position s)).
  { unfold Int32.in_range, Int32.INT_MIN, Int32.INT_MAX in *. lia. }
  pose proof (n_discard_of_ordered s Hr Hord) as Hnd.
  pose proof (half_bounds (current_position s - system_prompt_position s) ltac:(lia))
    as Hh.
  destruct s as [m c b sa msgs spp cur stop cached ss rb mem tr].
  cbn [current_position system_prompt_position] in Hord, Hmax, Hr, Hh.
  cbn [current_position system_prompt_position] in Hnd.
  assert (Hsub : Int32.sub cur ((cur - spp) / 2) = cur - (cur - spp) / 2).
  { unfold Int32.sub. apply int32_small. unfold Int32.INT_MAX in *. lia. }
  assert (Hstep : forall p, spp <= p <= cur ->
            Int32.add p 1 = p + 1 /\ spp <= p + 1 <= cur + 1).
  { intros p Hp. split; [|lia]. unfold Int32.add. apply int32_small.
    unfold Int32.INT_MAX in *. lia. }
  unfold generate_next_token_ffi. cbn [g_context g_sampler].
  destruct c as [ctx|]; [|cbn; split; [reflexivity | lia]].
  destruct sa as [sm|]; [|cbn; split; [reflexivity | lia]].
  cbn [current_position]. cbv zeta.
  assert (Hrest : forall s2,
            system_prompt_position s2 = spp -> spp <= current_position s2 <= cur ->
            let r :=
              if current_position s2 >=? stop_generation_position s2 then (None, s2)
              else
                let new_token_id := llama_sampler_sample E sm (kv s2) in
                let s3 := set_g_sampler (Some (llama_sampler_accept E sm new_token_id)) s2 in
                let s3 := common_batch_clear s3 in
                let s3 := common_batch_add new_token_id (current_position s3) [0] true s3 in
                let (r, s3) := llama_decode E s3 in
                if negb (r =? 0) then (None, s3)
                else
                  let s3 := set_current_position (Int32.add (current_position s3) 1) s3 in
                  if llama_vocab_is_eog E new_token_id then (None, s3)
                  else
                    let (chunk, s3) :=
                      emit_token_chars (common_token_to_piece E new_token_id) s3 in
                    (Some chunk, s3) in
            system_prompt_position (snd r) = spp /\
            spp <= current_position (snd r) <= cur + 1).
  { intros s2 Hs2 Hc2.
    destruct s2 as [m2 c2 b2 sa2 msgs2 spp2 cur2 stop2 cached2 ss2 rb2 mem2 tr2].
    cbn [current_position system_prompt_position stop_generation_position kv] in *.
    subst spp2. cbv zeta.
    destruct (cur2 >=? stop2); [cbn; split; [reflexivity | lia]|].
    unfold llama_decode. cbn.
    destruct (llama_decode_status E _ _ =? 0); cbn; [|split; [reflexivity | lia]].
    destruct (Hstep cur2 Hc2) as [Hadd Hbound].
    destruct (llama_vocab_is_eog E _).
    - cbn. rewrite Hadd. split; [reflexivity | lia].
    - match goal with
      | |- context [emit_token_chars ?p ?st] =>
          pose proof (emit_token_chars_positions p st) as (H1 & _ & H3);
          destruct (emit_token_chars p st) as [chunk s4]
      end.
      cbn in *. rewrite H1, H3, Hadd. split; [reflexivity | lia]. }
  destruct (cur >=? DEFAULT_CONTEXT_SIZE - OVERFLOW_HEADROOM).
  - apply Hrest; rewrite shift_context_unfold; cbn [system_prompt_position
      current_position]; [reflexivity|].
    rewrite Hnd, Hsub. lia.
  - apply Hrest; cbn; [reflexivity | lia].
Qed.

End Ordering.

(** * Further properties of the session *)

(** ** The driver when a decode fails *)

Lemma decode_calls_app tr1 tr2 :
  decode_calls (tr1 ++ tr2) = decode_calls tr1 ++ decode_calls tr2.
Proof. apply flat_map_app. Qed.

Section DriverFailure.

Variable E : Engine.
Variable tokens : list llama_token.
Variable start_pos : llama_pos.
Variable cll : bool.

Hypothesis Hstart : 0 <= start_pos.
Hypothesis Hend : start_pos + Z.of_nat (length tokens) <= Int32.INT_MAX.

(** The state in which a batch is handed to the engine: the shift, if
    any, has left no decode call in the trace. *)
Lemma batch_ready_calls (i : nat) s :
  let s2 := if start_pos + Z.of_nat i + 1 >=? DEFAULT_CONTEXT_SIZE - OVERFLOW_HEADROOM
            then shift_context (common_batch_clear s) else common_batch_clear s in
  decode_calls (trace s2) = decode_calls (trace s) /\ g_batch s2 = [].
Proof.
  destruct (start_pos + Z.of_nat i + 1 >=? DEFAULT_CONTEXT_SIZE - OVERFLOW_HEADROOM);
    cbv zeta; rewrite ?shift_context_unfold, common_batch_clear_unfold; cbn;
    rewrite ?decode_calls_app; cbn; rewrite ?app_nil_r; auto.
Qed.

Lemma decode_batches_calls k : forall (i : nat) s r s',
  (i + k = length tokens)%nat ->
  decode_batches E k (Z.of_nat i) tokens start_pos cll s = (r, s') ->
  exists j,
    (j <= k)%nat /\
    (r = 0 /\ j = k /\
     decode_calls (trace s')
     = decode_calls (trace s)
       ++ map (fun x => ([entry_at tokens start_pos cll x], 0)) (seq i j)
     \/
     r = 1 /\ (j < k)%nat /\
     exists status,
       status <> 0 /\
       decode_calls (trace s')
       = decode_calls (trace s)
         ++ map (fun x => ([entry_at tokens start_pos cll x], 0)) (seq i j)
         ++ [([entry_at tokens start_pos cll (i + j)], status)]).
Proof.
  induction k as [|k IH]; intros i s r s' Hik Hrun.
  - cbn in Hrun. injection Hrun as <- <-. exists 0%nat. split; [lia|]. left.
    cbn. rewrite app_nil_r. auto.
  - rewrite (decode_batches_S E tokens start_pos cll Hstart Hend) in Hrun by lia.
    cbv zeta in Hrun.
    destruct (batch_ready_calls i s) as [Hcalls Hbatch]. cbv zeta in Hcalls, Hbatch.
    set (s2 := if start_pos + Z.of_nat i + 1 >=? DEFAULT_CONTEXT_SIZE - OVERFLOW_HEADROOM
               then shift_context (common_batch_clear s) else common_batch_clear s) in *.
    rewrite llama_decode_unfold in Hrun. cbv zeta in Hrun.
    rewrite common_batch_add_unfold in Hrun. cbn [kv g_batch] in Hrun.
    rewrite Hbatch in Hrun. cbn [app] in Hrun.
    fold (entry_at tokens start_pos cll i) in Hrun.
    set (st := llama_decode_status E _ _) in Hrun. cbv beta iota in Hrun.
    destruct (Z.eqb_spec st 0) as [Hst|Hst]; cbn [negb] in Hrun.
    + apply IH in Hrun; [|lia]. cbn [trace] in Hrun.
      rewrite decode_calls_app, Hcalls in Hrun. cbn [decode_calls flat_map app] in Hrun.
      rewrite Hst in Hrun.
      destruct Hrun as (j & Hj & Hcase). exists (S j). split; [lia|].
      destruct Hcase as [(-> & -> & Htr) | (-> & Hlt & status & Hne & Htr)].
      * left. split; [reflexivity|]. split; [reflexivity|].
        rewrite Htr. cbn [seq map]. rewrite <- app_assoc. reflexivity.
      * right. split; [reflexivity|]. split; [lia|].
        exists status. split; [exact Hne|].
        rewrite Htr. cbn [seq map]. rewrite <- app_assoc. cbn [app].
        replace (i + S j)%nat with (S i + j)%nat by lia. reflexivity.
    + injection Hrun as <- <-. exists 0%nat. split; [lia|]. right.
      split; [reflexivity|]. split; [lia|].
      exists st. split; [exact Hst|].
      cbn [trace]. rewrite decode_calls_app, Hcalls. cbn.
      replace (i + 0)%nat with i by lia. reflexivity.
Qed.

End DriverFailure.

(** X1: [decode_tokens_in_batches] stops at the first batch the engine
    refuses.  It returns 0 or 1; with 0 every token was decoded, one batch
    each, in order; with 1 the tokens before the refused one were decoded,
    the refused batch is the last engine decode of the call, and no later
    token was tried. *)
Theorem driver_stops_at_first_failure (E : Engine) (tokens : list llama_token)
    (start_pos : llama_pos) (cll : bool) (s s' : state) (r : Z) :
  0 <= start_pos ->
  start_pos + Z.of_nat (length tokens) <= Int32.INT_MAX ->
  decode_tokens_in_batches E tokens start_pos cll s = (r, s') ->
  exists j,
    (j <= length tokens)%nat /\
    (r = 0 /\ j = length tokens /\
     decode_calls (trace s')
     = decode_calls (trace s)
       ++ map (fun x => ([entry_at tokens start_pos cll x], 0)) (seq 0 j)
     \/
     r = 1 /\ (j < length tokens)%nat /\
     exists status,
       status <> 0 /\
       decode_calls (trace s')
       = decode_calls (trace s)
         ++ map (fun x => ([entry_at tokens start_pos cll x], 0)) (seq 0 j)
         ++ [([entry_at tokens start_pos cll j], status)]).
Proof.
  intros Hstart Hend Hrun. unfold decode_tokens_in_batches in Hrun.
  rewrite (trip_count_size tokens start_pos) in Hrun by lia.
  apply (decode_batches_calls E tokens start_pos cll Hstart Hend
           (length tokens) 0%nat s r s' eq_refl Hrun).
Qed.

Lemma driver_stops_at_first_failure_witness :
  let tokens := ByteEngine.tokenize (ByteEngine.letters 250) in
  let res := decode_tokens_in_batches ByteEngine.engine tokens 10 false
               ByteEngine.with_system_prompt in
  exists j,
    (j <= length tokens)%nat /\
    (fst res = 0 /\ j = length tokens /\
     decode_calls (trace (snd res))
     = decode_calls (trace ByteEngine.with_system_prompt)
       ++ map (fun x => ([entry_at tokens 10 false x], 0)) (seq 0 j)
     \/
     fst res = 1 /\ (j < length tokens)%nat /\
     exists status,
       status <> 0 /\
       decode_calls (trace (snd res))
       = decode_calls (trace ByteEngine.with_system_prompt)
         ++ map (fun x => ([entry_at tokens 10 false x], 0)) (seq 0 j)
         ++ [([entry_at tokens 10 false j], status)]).
Proof.
  intros tokens res.
  apply (driver_stops_at_first_failure ByteEngine.engine tokens 10 false
           ByteEngine.with_system_prompt (snd res) (fst res)).
  - lia.
  - vm_compute. discriminate.
  - apply surjective_pairing.
Defined.

(** ** Prompts that fit *)

Lemma seq_from a n : seq a n = map (fun k => (a + k)%nat) (seq 0 n).
Proof.
  revert a. induction n as [|n IH]; intros a; [reflexivity|].
  rewrite !seq_S, map_app, <- IH. cbn. reflexivity.
Qed.

Lemma zrange_app lo mid hi :
  lo <= mid <= hi -> zrange lo hi = zrange lo mid ++ zrange mid hi.
Proof.
  intros H. unfold zrange.
  replace (Z.to_nat (hi - lo)) with (Z.to_nat (mid - lo) + Z.to_nat (hi - mid))%nat by lia.
  rewrite seq_app, map_app. f_equal. cbn [Nat.add].
  rewrite (seq_from (Z.to_nat (mid - lo))), map_map.
  apply map_ext. intros k. lia.
Qed.

Lemma zrange_length lo hi : lo <= hi -> Z.of_nat (length (zrange lo hi)) = hi - lo.
Proof. intros H. unfold zrange. rewrite length_map, length_seq. lia. Qed.

Lemma cells_positions tokens start n :
  map cell_pos (map (cell_at tokens start) (seq 0 n)) = zrange start (start + Z.of_nat n) /\
  Forall (fun x => cell_seq x = 0) (map (cell_at tokens start) (seq 0 n)).
Proof.
  split.
  - unfold zrange. rewrite map_map. cbn [cell_pos cell_at].
    replace (Z.to_nat (start + Z.of_nat n - start)) with n by lia. reflexivity.
  - apply Forall_forall. intros x Hx. apply in_map_iff in Hx.
    destruct Hx as (k & <- & _). reflexivity.
Qed.

(** Tokens decoded at the current position of a window without holes
    leave a window without holes. *)
Lemma contiguous_app m c tokens n :
  0 <= c -> contiguous m c ->
  contiguous (m ++ map (cell_at tokens c) (seq 0 n)) (c + Z.of_nat n).
Proof.
  intros Hc [Hpos Hseq]. destruct (cells_positions tokens c n) as [Hp Hs].
  split.
  - rewrite map_app, Hpos, Hp. symmetry. apply zrange_app. lia.
  - apply Forall_app. split; assumption.
Qed.

Section DriverFits.

Variable E : Engine.
Variable tokens : list llama_token.
Variable start_pos : llama_pos.
Variable cll : bool.

Hypothesis Hstart : 0 <= start_pos.
Hypothesis Hfits :
  start_pos + Z.of_nat (length tokens) < DEFAULT_CONTEXT_SIZE - OVERFLOW_HEADROOM.

(** A sequence that ends below the limit is decoded without any shift:
    the driver only adds decode calls to the trace, and the tokens it
    decoded are appended to the memory. *)
Lemma decode_batches_fits k : forall (i : nat) s r s',
  (i + k = length tokens)%nat ->
  decode_batches E k (Z.of_nat i) tokens start_pos cll s = (r, s') ->
  exists j,
    (j <= k)%nat /\ (r = 0 -> j = k) /\ (r <> 0 -> (j < k)%nat) /\
    kv s' = kv s ++ map (cell_at tokens start_pos) (seq i j) /\
    current_position s' = current_position s /\
    system_prompt_position s' = system_prompt_position s /\
    exists calls,
      trace s' = trace s ++ map (fun c => call_decode (fst c) (snd c)) calls.
Proof.
  assert (Hend : start_pos + Z.of_nat (length tokens) <= Int32.INT_MAX).
  { unfold DEFAULT_CONTEXT_SIZE, OVERFLOW_HEADROOM, Int32.INT_MAX in *. lia. }
  induction k as [|k IH]; intros i s r s' Hik Hrun.
  - cbn in Hrun. injection Hrun as <- <-. exists 0%nat.
    split; [lia|]. split; [reflexivity|]. split; [intros Hr; contradiction|].
    cbn. rewrite app_nil_r.
    repeat split. exists []. cbn. rewrite app_nil_r. reflexivity.
  - rewrite (decode_batches_S E tokens start_pos cll Hstart Hend) in Hrun by lia.
    cbv zeta in Hrun.
    destruct (Z.geb_spec (start_pos + Z.of_nat i + 1)
                (DEFAULT_CONTEXT_SIZE - OVERFLOW_HEADROOM)) as [Hge|_] in Hrun; [lia|].
    rewrite llama_decode_unfold in Hrun. cbv zeta in Hrun.
    rewrite common_batch_add_unfold, common_batch_clear_unfold in Hrun.
    cbn [kv g_batch app] in Hrun.
    set (st := llama_decode_status E _ _) in Hrun. cbv beta iota in Hrun.
    destruct (Z.eqb_spec st 0) as [Hst|Hst]; cbn [negb] in Hrun.
    + apply IH in Hrun; [|lia].
      cbn [trace kv current_position system_prompt_position] in Hrun.
      destruct Hrun as (j & Hj & Hall & Hlt & Hkv & Hcur & Hspp & calls & Htr).
      exists (S j). split; [lia|]. split; [intros Hr; rewrite (Hall Hr); reflexivity|].
      split; [intros Hr; specialize (Hlt Hr); lia|].
      split.
      { rewrite Hkv. cbn [cells_of_batch flat_map be_seq_ids map be_pos be_token app seq].
        rewrite <- app_assoc. reflexivity. }
      split; [exact Hcur|]. split; [exact Hspp|].
      eexists ((_, st) :: calls). rewrite Htr, <- app_assoc. reflexivity.
    + injection Hrun as <- <-. exists 0%nat.
      split; [lia|]. split; [intros Hr; discriminate Hr|]. split; [intros _; lia|].
      cbn. rewrite app_nil_r. repeat split.
      eexists [(_, st)]. reflexivity.
Qed.

End DriverFits.

(** The driver assigns none of the globals of [frame], whatever the
    engine answers. *)
Lemma decode_batches_frame (E : Engine) k : forall i tokens start_pos cll s,
  frame (snd (decode_batches E k i tokens start_pos cll s)) = frame s.
Proof.
  induction k as [|k IH]; intros i tokens start_pos cll s;
    cbn [decode_batches snd]; [reflexivity|].
  destruct (negb (i <? Int32.of_size (length tokens))); [reflexivity|].
  set (cbs := Z.min (Int32.sub (Int32.of_size (length tokens)) i) BATCH_SIZE).
  set (s2 := if Int32.add (Int32.add start_pos i) cbs
                  >=? DEFAULT_CONTEXT_SIZE - OVERFLOW_HEADROOM
             then shift_context (common_batch_clear s) else common_batch_clear s).
  assert (Hf2 : frame s2 = frame s).
  { subst s2.
    destruct (Int32.add (Int32.add start_pos i) cbs
                >=? DEFAULT_CONTEXT_SIZE - OVERFLOW_HEADROOM);
      rewrite ?shift_context_unfold, common_batch_clear_unfold; reflexivity. }
  destruct (fill_batch_frame (Z.to_nat cbs) 0 tokens start_pos cll i s2) as (Hf3 & _).
  set (s3 := fill_batch (Z.to_nat cbs) 0 tokens start_pos cll i s2) in *.
  rewrite llama_decode_unfold. cbv zeta.
  set (r := llama_decode_status E (kv s3) (g_batch s3)).
  set (s4 := mk_state _ _ _ _ _ _ _ _ _ _ _ _ _).
  assert (Hf4 : frame s4 = frame s) by (rewrite <- Hf2, <- Hf3; reflexivity).
  cbv beta iota.
  destruct (negb (r =? 0)); cbn [snd]; [exact Hf4|].
  rewrite IH. exact Hf4.
Qed.

(** What a successful [process_user_prompt_ffi] leaves, in terms of the
    state the driver returned. *)
Lemma process_user_prompt_ffi_result (E : Engine) s s' user_prompt n_predict ctx :
  g_context s = Some ctx ->
  Z.of_nat (length (user_tokens E user_prompt)) <= Int32.INT_MAX ->
  process_user_prompt_ffi E (Some user_prompt) n_predict s = (0, s') ->
  exists s1,
    decode_tokens_in_batches E (user_tokens_kept E user_prompt) (current_position s)
      true (reset_short_term_states s) = (0, s1) /\
    frame s1 = frame (reset_short_term_states s) /\
    s' = mk_state (g_model s1) (g_context s1) (g_batch s1) (g_sampler s1) (chat_msgs s1)
           (system_prompt_position s1)
           (Int32.add (current_position s1)
              (Z.of_nat (length (user_tokens E user_prompt))))
           (Int32.add (Int32.add (current_position s1)
                         (Z.of_nat (length (user_tokens E user_prompt)))) n_predict)
           (cached_token_chars s1) (assistant_ss s1) (ret_buf s1) (kv s1) (trace s1).
Proof.
  intros Hctx Hsz Hrun.
  destruct (process_user_prompt_ffi_run E s s' user_prompt n_predict ctx Hctx Hsz Hrun)
    as (s1 & Hd & _).
  exists s1. split; [exact Hd|]. split.
  - pose proof (decode_batches_frame E
                  (trip_count (Int32.of_size (length (user_tokens_kept E user_prompt))))
                  0 (user_tokens_kept E user_prompt) (current_position s) true
                  (reset_short_term_states s)) as Hf.
    fold (decode_tokens_in_batches E (user_tokens_kept E user_prompt)
            (current_position s) true (reset_short_term_states s)) in Hf.
    rewrite Hd in Hf. exact Hf.
  - unfold process_user_prompt_ffi in Hrun. rewrite Hctx in Hrun.
    cbv beta iota zeta in Hrun. fold (user_tokens E user_prompt) in Hrun.
    replace (current_position (reset_short_term_states s)) with (current_position s)
      in Hrun by (rewrite reset_short_term_states_unfold; reflexivity).
    assert (Hkept : (if Int32.of_size (length (user_tokens E user_prompt))
                          >? DEFAULT_CONTEXT_SIZE - OVERFLOW_HEADROOM
                     then vector_resize
                            (Z.to_nat (DEFAULT_CONTEXT_SIZE - OVERFLOW_HEADROOM))
                            (user_tokens E user_prompt)
                     else user_tokens E user_prompt)
                    = user_tokens_kept E user_prompt).
    { unfold user_tokens_kept.
      destruct (Z.gtb_spec (Int32.of_size (length (user_tokens E user_prompt)))
                  (DEFAULT_CONTEXT_SIZE - OVERFLOW_HEADROOM)) as [Hgt|]; [|reflexivity].
      change (Z.to_nat (DEFAULT_CONTEXT_SIZE - OVERFLOW_HEADROOM)) with 252%nat.
      apply vector_resize_shrink.
      unfold Int32.of_size in Hgt. rewrite int32_small in Hgt by lia.
      unfold DEFAULT_CONTEXT_SIZE, OVERFLOW_HEADROOM in Hgt. lia. }
    rewrite Hkept, Hd in Hrun. cbn [Z.eqb negb] in Hrun.
    injection Hrun as <-.
    unfold Int32.of_size. rewrite int32_small by lia.
    destruct s1; reflexivity.
Qed.

(** X2: a user prompt that ends below the limit goes in without any
    eviction.  When [process_user_prompt_ffi] returns 0 for a prompt with
    [current_position + size < 252], the engine was asked for decodes only,
    the memory is the old one followed by the prompt's tokens at the
    positions from the old [current_position] on, [current_position] has
    advanced by exactly the number of tokens, the pending bytes and the
    accumulated answer are empty, and a window without holes is still
    one. *)
Theorem user_prompt_that_fits (E : Engine) (s s' : state) (user_prompt : string)
    (n_predict : Z) (ctx : llama_context) :
  let toks := user_tokens E user_prompt in
  g_context s = Some ctx ->
  0 <= current_position s ->
  current_position s + Z.of_nat (length toks) < DEFAULT_CONTEXT_SIZE - OVERFLOW_HEADROOM ->
  process_user_prompt_ffi E (Some user_prompt) n_predict s = (0, s') ->
  kv s' = kv s ++ map (cell_at toks (current_position s)) (seq 0 (length toks)) /\
  current_position s' = current_position s + Z.of_nat (length toks) /\
  stop_generation_position s' = Int32.add (current_position s') n_predict /\
  system_prompt_position s' = system_prompt_position s /\
  cached_token_chars s' = [] /\ assistant_ss s' = [] /\
  (exists calls, trace s' = trace s ++ map (fun c => call_decode (fst c) (snd c)) calls) /\
  (contiguous (kv s) (current_position s) -> contiguous (kv s') (current_position s')).
Proof.
  intros toks Hctx Hcur Hfits Hrun.
  assert (Hmax : Z.of_nat (length toks) <= Int32.INT_MAX).
  { unfold DEFAULT_CONTEXT_SIZE, OVERFLOW_HEADROOM, Int32.INT_MAX in *. lia. }
  destruct (process_user_prompt_ffi_result E s s' user_prompt n_predict ctx Hctx Hmax Hrun)
    as (s1 & Hd & Hframe & ->).
  fold toks.
  assert (Hkept : user_tokens_kept E user_prompt = toks).
  { unfold user_tokens_kept, Int32.of_size. fold toks. rewrite int32_small by lia.
    destruct (Z.gtb_spec (Z.of_nat (length toks))
                (DEFAULT_CONTEXT_SIZE - OVERFLOW_HEADROOM)); [lia | reflexivity]. }
  rewrite Hkept in Hd.
  unfold decode_tokens_in_batches in Hd.
  rewrite (trip_count_size toks (current_position s)) in Hd
    by (unfold DEFAULT_CONTEXT_SIZE, OVERFLOW_HEADROOM, Int32.INT_MAX in *; lia).
  destruct (decode_batches_fits E toks (current_position s) true Hcur Hfits
              (length toks) 0%nat (reset_short_term_states s) 0 s1 eq_refl Hd)
    as (j & _ & Hall & _ & Hkv1 & Hc1 & Hs1 & calls & Htr1).
  specialize (Hall eq_refl). subst j.
  rewrite reset_short_term_states_unfold in Hkv1, Hc1, Hs1, Htr1, Hframe.
  cbn [kv current_position system_prompt_position trace] in Hkv1, Hc1, Hs1, Htr1.
  unfold frame in Hframe. cbn in Hframe.
  injection Hframe as _ _ _ _ _ _ Hcached Hss _.
  cbn [kv current_position stop_generation_position system_prompt_position
       cached_token_chars assistant_ss trace].
  assert (Hadd : Int32.add (current_position s1) (Z.of_nat (length toks))
                 = current_position s + Z.of_nat (length toks)).
  { rewrite Hc1. unfold Int32.add. apply int32_small.
    unfold DEFAULT_CONTEXT_SIZE, OVERFLOW_HEADROOM, Int32.INT_MAX in *. lia. }
  rewrite Hadd.
  split; [exact Hkv1|]. split; [reflexivity|]. split; [reflexivity|].
  split; [exact Hs1|]. split; [exact Hcached|]. split; [exact Hss|].
  split; [exists calls; exact Htr1|].
  intros Hcont. rewrite Hkv1. apply contiguous_app; assumption.
Qed.

Lemma user_prompt_that_fits_witness :
  current_position ByteEngine.after_hi
  = current_position ByteEngine.with_system_prompt
    + Z.of_nat (length (user_tokens ByteEngine.engine "Hi")) /\
  kv ByteEngine.after_hi
  = kv ByteEngine.with_system_prompt
    ++ map (cell_at (user_tokens ByteEngine.engine "Hi")
              (current_position ByteEngine.with_system_prompt))
         (seq 0 (length (user_tokens ByteEngine.engine "Hi"))).
Proof.
  destruct (user_prompt_that_fits ByteEngine.engine ByteEngine.with_system_prompt
              ByteEngine.after_hi "Hi" 5 1%nat) as (Hkv & Hcur & _).
  - reflexivity.
  - vm_compute. discriminate.
  - vm_compute. reflexivity.
  - vm_compute. reflexivity.
  - split; [exact Hcur | exact Hkv].
Defined.

(** ** A system prompt starts the conversation afresh *)

Lemma window_ok_empty L c : c <= 0 -> window_ok L c -> L = [].
Proof.
  intros Hc [_ Hall]. destruct L as [|x L]; [reflexivity|].
  inversion Hall as [|? ? [_ Hpos] _]. lia.
Qed.

(** X3: whatever the session held before, a [process_system_prompt_ffi]
    that returns 0 leaves exactly the tokens of the formatted system prompt
    in the engine memory, in order at the positions 0, 1, ..., with
    [system_prompt_position = current_position =] their number (at most
    252), the stop position at 0, and the history, the pending bytes and
    the accumulated answer empty. *)
Theorem system_prompt_starts_afresh (E : Engine) (s s' : state)
    (system_prompt : string) :
  let toks := system_tokens E system_prompt in
  Z.of_nat (length toks) <= Int32.INT_MAX ->
  process_system_prompt_ffi E (Some system_prompt) s = (0, s') ->
  kv s' = map (cell_at toks 0) (seq 0 (length toks)) /\
  contiguous (kv s') (current_position s') /\
  system_prompt_position s' = Z.of_nat (length toks) /\
  current_position s' = Z.of_nat (length toks) /\
  Z.of_nat (length toks) <= DEFAULT_CONTEXT_SIZE - OVERFLOW_HEADROOM /\
  stop_generation_position s' = 0 /\
  chat_msgs s' = [] /\ cached_token_chars s' = [] /\ assistant_ss s' = [].
Proof.
  intros toks Hmax Hrun.
  destruct (process_system_prompt_ffi_positions E s s' system_prompt Hmax Hrun)
    as (Hspp & Hcur & Hle).
  fold toks in Hspp, Hcur. rewrite Hcur in Hle.
  unfold process_system_prompt_ffi in Hrun.
  destruct (g_context s) as [ctx|] eqn:Hctx; [|discriminate].
  cbv beta iota zeta in Hrun. fold (system_tokens E system_prompt) in Hrun.
  fold toks in Hrun.
  unfold Int32.of_size in Hrun. rewrite int32_small in Hrun by lia.
  destruct (Z.gtb_spec (Z.of_nat (length toks))
              (DEFAULT_CONTEXT_SIZE - OVERFLOW_HEADROOM)); [discriminate|].
  rewrite (reset_long_term_states_unfold s ctx Hctx) in Hrun.
  rewrite reset_short_term_states_unfold in Hrun.
  cbn [g_model g_context g_batch g_sampler chat_msgs system_prompt_position
       current_position stop_generation_position cached_token_chars assistant_ss
       ret_buf kv trace] in Hrun.
  match type of Hrun with
  | context [decode_tokens_in_batches E toks 0 false ?st] => set (s0 := st) in *
  end.
  destruct (decode_tokens_in_batches E toks 0 false s0) as [r s1] eqn:Hd.
  destruct (Z.eqb_spec r 0) as [->|]; cbn [negb] in Hrun; [|discriminate].
  injection Hrun as <-.
  destruct (decode_tokens_in_batches_run E toks 0 false s0 s1) as (Hf & Hc1 & _ & Hmem).
  { subst s0. cbn. lia. }
  { subst s0. cbn. lia. }
  { lia. }
  { exact Hd. }
  destruct (Hmem [] []) as (L' & HL' & Hok');
    [reflexivity | split; constructor | constructor |].
  assert (L' = []) as ->.
  { apply (window_ok_empty L' (current_position s1)); [|exact Hok'].
    subst s0. cbn in Hc1. lia. }
  cbn [app] in HL'.
  unfold frame in Hf. subst s0. cbn in Hf.
  injection Hf as _ _ _ Hmsgs _ Hstop Hcached Hss _.
  destruct s1 as [m1 c1 b1 sa1 msgs1 spp1 cur1 stop1 cached1 ss1 rb1 mem1 tr1].
  cbn in *. subst.
  split; [reflexivity|].
  split.
  { destruct (cells_positions toks 0 (length toks)) as [Hp Hs].
    split; [exact Hp | exact Hs]. }
  repeat split; try reflexivity. exact Hle.
Qed.

Lemma system_prompt_starts_afresh_witness :
  let s' := snd (process_system_prompt_ffi ByteEngine.engine (Some "S"%string)
                   ByteEngine.after_hi) in
  kv s' = map (cell_at (system_tokens ByteEngine.engine "S") 0)
            (seq 0 (length (system_tokens ByteEngine.engine "S"))) /\
  current_position s' = Z.of_nat (length (system_tokens ByteEngine.engine "S")).
Proof.
  intros s'.
  destruct (system_prompt_starts_afresh ByteEngine.engine ByteEngine.after_hi s' "S")
    as (Hkv & _ & _ & Hcur & _).
  - vm_compute. discriminate.
  - vm_compute. reflexivity.
  - split; [exact Hkv | exact Hcur].
Defined.

(** ** Turns that are closed *)

Section ClosedTurn.

Variable E : Engine.

(** With the stop position at or below the system prompt boundary, a call
    returns the null pointer without sampling or decoding. *)
Lemma generate_next_token_ffi_closed s :
  0 <= system_prompt_position s <= current_position s ->
  current_position s <= Int32.INT_MAX ->
  stop_generation_position s <= system_prompt_position s ->
  let r := generate_next_token_ffi E s in
  fst r = None /\
  decode_calls (trace (snd r)) = decode_calls (trace s) /\
  g_sampler (snd r) = g_sampler s /\
  stop_generation_position (snd r) = stop_generation_position s /\
  system_prompt_position (snd r) = system_prompt_position s /\
  system_prompt_position s <= current_position (snd r) <= current_position s.
Proof.
  intros Hord Hmax Hstop.
  assert (Hr : Int32.in_range (current_position s)).
  { unfold Int32.in_range, Int32.INT_MIN, Int32.INT_MAX in *. lia. }
  pose proof (n_discard_of_ordered s Hr Hord) as Hnd.
  pose proof (half_bounds (current_position s - system_prompt_position s) ltac:(lia))
    as Hh.
  destruct s as [m c b sa msgs spp cur stop cached ss rb mem tr].
  cbn [current_position system_prompt_position stop_generation_position] in *.
  assert (Hsub : Int32.sub cur ((cur - spp) / 2) = cur - (cur - spp) / 2).
  { unfold Int32.sub. apply int32_small. unfold Int32.INT_MAX in *. lia. }
  unfold generate_next_token_ffi. cbn [g_context g_sampler].
  destruct c as [ctx|]; [|cbn; repeat split; lia].
  destruct sa as [sm|]; [|cbn; repeat split; lia].
  cbn [current_position]. cbv zeta.
  destruct (cur >=? DEFAULT_CONTEXT_SIZE - OVERFLOW_HEADROOM).
  - rewrite shift_context_unfold. cbn [current_position stop_generation_position].
    cbv zeta. rewrite Hnd, Hsub.
    destruct (Z.geb_spec (cur - (cur - spp) / 2) stop); [|lia].
    cbn. rewrite !decode_calls_app. cbn. rewrite !app_nil_r.
    repeat split; lia.
  - cbn [current_position stop_generation_position].
    destruct (Z.geb_spec cur stop); [|lia].
    cbn. repeat split; lia.
Qed.

Lemma generate_calls_closed n : forall s,
  0 <= system_prompt_position s <= current_position s ->
  current_position s <= Int32.INT_MAX ->
  stop_generation_position s <= system_prompt_position s ->
  fst (generate_calls E n s) = repeat None n /\
  decode_calls (trace (snd (generate_calls E n s))) = decode_calls (trace s) /\
  g_sampler (snd (generate_calls E n s)) = g_sampler s.
Proof.
  induction n as [|n IH]; intros s Hord Hmax Hstop; [cbn; auto|].
  cbn [generate_calls repeat].
  pose proof (generate_next_token_ffi_closed s Hord Hmax Hstop) as Hstep.
  cbv zeta in Hstep.
  destruct (generate_next_token_ffi E s) as [chunk s1]. cbn [fst snd] in Hstep.
  destruct Hstep as (-> & Hcalls & Hsm & Hst & Hspp & Hcur).
  destruct (IH s1) as (Hchunks & Hcalls' & Hsm'); [lia | lia | lia |].
  destruct (generate_calls E n s1) as [chunks s2]. cbn [fst snd] in *.
  rewrite Hchunks. repeat split; congruence.
Qed.

End ClosedTurn.

(** X4: [stop_generation_ffi] closes the turn and keeps the conversation.
    Positions and engine memory are as before, the pending bytes and the
    accumulated answer are dropped, and from then on every
    [generate_next_token_ffi] returns the null pointer without sampling a
    token or decoding anything, however often it is called. *)
Theorem stop_generation_closes_turn (E : Engine) (s : state) (n : nat) :
  0 <= system_prompt_position s <= current_position s ->
  current_position s <= Int32.INT_MAX ->
  let s1 := stop_generation_ffi s in
  kv s1 = kv s /\ current_position s1 = current_position s /\
  system_prompt_position s1 = system_prompt_position s /\
  cached_token_chars s1 = [] /\ assistant_ss s1 = [] /\
  fst (generate_calls E n s1) = repeat None n /\
  decode_calls (trace (snd (generate_calls E n s1))) = decode_calls (trace s) /\
  g_sampler (snd (generate_calls E n s1)) = g_sampler s.
Proof.
  intros Hord Hmax s1. subst s1. unfold stop_generation_ffi.
  destruct (generate_calls_closed E n (reset_short_term_states s))
    as (Hchunks & Hcalls & Hsm);
    try (rewrite reset_short_term_states_unfold; cbn; lia).
  assert (Htr : trace (reset_short_term_states s) = trace s)
    by (rewrite reset_short_term_states_unfold; reflexivity).
  assert (Hsa : g_sampler (reset_short_term_states s) = g_sampler s)
    by (rewrite reset_short_term_states_unfold; reflexivity).
  rewrite Htr in Hcalls. rewrite Hsa in Hsm.
  split; [rewrite reset_short_term_states_unfold; reflexivity|].
  split; [rewrite reset_short_term_states_unfold; reflexivity|].
  split; [rewrite reset_short_term_states_unfold; reflexivity|].
  split; [rewrite reset_short_term_states_unfold; reflexivity|].
  split; [rewrite reset_short_term_states_unfold; reflexivity|].
  split; [exact Hchunks|]. split; [exact Hcalls | exact Hsm].
Qed.

Lemma stop_generation_closes_turn_witness :
  fst (generate_calls ByteEngine.engine 3 (stop_generation_ffi ByteEngine.after_hi))
  = [None; None; None].
Proof.
  destruct (stop_generation_closes_turn ByteEngine.engine ByteEngine.after_hi 3)
    as (_ & _ & _ & _ & _ & H & _).
  - vm_compute. split; discriminate.
  - vm_compute. discriminate.
  - exact H.
Defined.

(** X5: a [process_user_prompt_ffi] that fails on a decode (status 2)
    leaves the turn closed: the stop position is 0, the pending bytes and
    the accumulated answer are empty, [current_position] has not moved
    forward, and every following [generate_next_token_ffi] returns the null
    pointer without decoding. *)
Theorem failed_user_prompt_closes_turn (E : Engine) (s : state)
    (user_prompt : string) (n_predict : Z) (n : nat) :
  let r := process_user_prompt_ffi E (Some user_prompt) n_predict s in
  0 <= system_prompt_position s <= current_position s ->
  current_position s <= Int32.INT_MAX ->
  fst r = 2 ->
  stop_generation_position (snd r) = 0 /\
  cached_token_chars (snd r) = [] /\ assistant_ss (snd r) = [] /\
  system_prompt_position (snd r) = system_prompt_position s /\
  system_prompt_position s <= current_position (snd r) <= current_position s /\
  fst (generate_calls E n (snd r)) = repeat None n /\
  decode_calls (trace (snd (generate_calls E n (snd r)))) = decode_calls (trace (snd r)).
Proof.
  intros r Hord Hmax Hst. subst r. unfold process_user_prompt_ffi in *.
  destruct (g_context s); [|discriminate Hst].
  cbv beta iota zeta in *.
  assert (Hr : Int32.in_range (current_position (reset_short_term_states s))).
  { rewrite reset_short_term_states_unfold. cbn.
    unfold Int32.in_range, Int32.INT_MIN, Int32.INT_MAX in *. lia. }
  assert (Ho : 0 <= system_prompt_position (reset_short_term_states s)
               <= current_position (reset_short_term_states s)).
  { rewrite reset_short_term_states_unfold. exact Hord. }
  match goal with
  | |- context [decode_tokens_in_batches E ?t ?p ?c ?st] =>
      pose proof (decode_batches_positions E (trip_count (Int32.of_size (length t)))
                    0 t p c st Hr Ho) as Hpos;
      fold (decode_tokens_in_batches E t p c st) in Hpos;
      destruct (decode_tokens_in_batches E t p c st) as [r1 s1]
  end.
  cbv zeta in Hpos. cbn [snd] in Hpos. destruct Hpos as [Hf Hc].
  rewrite reset_short_term_states_unfold in Hf, Hc.
  cbn [system_prompt_position current_position] in Hc.
  unfold frame in Hf. cbn in Hf.
  injection Hf as _ _ _ _ Hspp Hstop Hcached Hss _.
  destruct (negb (r1 =? 0)); cbn [fst snd] in *; [|discriminate Hst].
  destruct (generate_calls_closed E n s1) as (Hchunks & Hcalls & _); try lia.
  repeat split; try assumption; lia.
Qed.

Lemma failed_user_prompt_closes_turn_witness :
  let r := process_user_prompt_ffi ByteEngine.engine (Some (ByteEngine.letters 235)) 5
             ByteEngine.with_system_prompt in
  stop_generation_position (snd r) = 0 /\
  fst (generate_calls ByteEngine.engine 2 (snd r)) = [None; None].
Proof.
  intros r.
  destruct (failed_user_prompt_closes_turn ByteEngine.engine
              ByteEngine.with_system_prompt (ByteEngine.letters 235) 5 2)
    as (H1 & _ & _ & _ & _ & H2 & _).
  - vm_compute. split; discriminate.
  - vm_compute. discriminate.
  - vm_compute. reflexivity.
  - split; [exact H1 | exact H2].
Defined.

(** ** Turns that run to their end *)

Section FullTurn.

Variable E : Engine.

Hypothesis Hdecodes : forall m b, llama_decode_status E m b = 0.
Hypothesis Hno_eog : forall t, llama_vocab_is_eog E t = false.

(** Below the limit and before the stop position, with an engine that
    decodes and a token that does not end the generation, a call returns
    text and moves one position on. *)
Lemma generate_next_token_ffi_text s ctx sm :
  g_context s = Some ctx -> g_sampler s = Some sm ->
  0 <= current_position s < DEFAULT_CONTEXT_SIZE - OVERFLOW_HEADROOM ->
  current_position s < stop_generation_position s ->
  exists chunk s' sm',
    generate_next_token_ffi E s = (Some chunk, s') /\
    g_context s' = Some ctx /\ g_sampler s' = Some sm' /\
    current_position s' = current_position s + 1 /\
    stop_generation_position s' = stop_generation_position s /\
    kv s' = kv s ++ [mk_cell 0 (current_position s)
                       (llama_sampler_sample E sm (kv s))].
Proof.
  destruct s as [m c b sa msgs spp cur stop cached ss rb mem tr].
  cbn [g_context g_sampler current_position stop_generation_position kv].
  intros -> -> Hcur Hstop.
  unfold generate_next_token_ffi.
  cbn [g_context g_sampler current_position stop_generation_position].
  destruct (Z.geb_spec cur (DEFAULT_CONTEXT_SIZE - OVERFLOW_HEADROOM)); [lia|].
  cbn [current_position stop_generation_position].
  destruct (Z.geb_spec cur stop); [lia|].
  unfold llama_decode. cbn. rewrite Hdecodes. cbn. rewrite Hno_eog.
  assert (Hadd : Int32.add cur 1 = cur + 1).
  { unfold Int32.add. apply int32_small.
    unfold DEFAULT_CONTEXT_SIZE, OVERFLOW_HEADROOM, Int32.INT_MAX in *. lia. }
  unfold emit_token_chars. cbn -[is_valid_utf8].
  destruct (is_valid_utf8 _); cbn; rewrite Hadd;
    do 3 eexists; repeat split; reflexivity.
Qed.

(** Below the limit, at or past the stop position, a call changes
    nothing. *)
Lemma generate_next_token_ffi_at_stop s :
  current_position s < DEFAULT_CONTEXT_SIZE - OVERFLOW_HEADROOM ->
  stop_generation_position s <= current_position s ->
  generate_next_token_ffi E s = (None, s).
Proof.
  destruct s as [m c b sa msgs spp cur stop cached ss rb mem tr].
  cbn [current_position stop_generation_position]. intros Hcur Hstop.
  unfold generate_next_token_ffi. cbn [g_context g_sampler].
  destruct c; [|reflexivity]. destruct sa; [|reflexivity].
  cbn [current_position].
  destruct (Z.geb_spec cur (DEFAULT_CONTEXT_SIZE - OVERFLOW_HEADROOM)); [lia|].
  cbn [current_position stop_generation_position].
  destruct (Z.geb_spec cur stop); [reflexivity | lia].
Qed.

Lemma generate_calls_full_turn n : forall s ctx sm,
  g_context s = Some ctx -> g_sampler s = Some sm ->
  0 <= current_position s <= stop_generation_position s ->
  stop_generation_position s < DEFAULT_CONTEXT_SIZE - OVERFLOW_HEADROOM ->
  let k := Nat.min n (Z.to_nat (stop_generation_position s - current_position s)) in
  exists texts,
    length texts = k /\
    fst (generate_calls E n s) = map Some texts ++ repeat None (n - k) /\
    current_position (snd (generate_calls E n s)) = current_position s + Z.of_nat k /\
    Z.of_nat (length (kv (snd (generate_calls E n s))))
    = Z.of_nat (length (kv s)) + Z.of_nat k.
Proof.
  induction n as [|n IH]; intros s ctx sm Hctx Hsm Hcur Hstop k.
  - exists []. subst k. cbn. repeat split; lia.
  - cbn [generate_calls].
    destruct (Z.eq_dec (current_position s) (stop_generation_position s)) as [Heq|Hne].
    + (* the stop position is reached: this call and all later ones return null *)
      rewrite generate_next_token_ffi_at_stop by lia.
      destruct (IH s ctx sm Hctx Hsm Hcur Hstop) as (texts & Hlen & Hchunks & Hpos & Hkv).
      destruct (generate_calls E n s) as [chunks s2]. cbn [fst snd] in *.
      assert (Hk0 : k = 0%nat) by (subst k; lia).
      assert (texts = []) as ->.
      { destruct texts; [reflexivity|]. cbn in Hlen. lia. }
      exists []. rewrite Hk0. cbn [length map app] in *.
      replace (Nat.min n (Z.to_nat (stop_generation_position s - current_position s)))
        with 0%nat in * by lia.
      rewrite Nat.sub_0_r in *. cbn [repeat]. rewrite Hchunks.
      repeat split; lia.
    + destruct (generate_next_token_ffi_text s ctx sm Hctx Hsm ltac:(lia) ltac:(lia))
        as (chunk & s1 & sm1 & Hg & Hctx1 & Hsm1 & Hc1 & Hst1 & Hkv1).
      rewrite Hg.
      destruct (IH s1 ctx sm1 Hctx1 Hsm1 ltac:(lia) ltac:(lia))
        as (texts & Hlen & Hchunks & Hpos & Hkv).
      destruct (generate_calls E n s1) as [chunks s2]. cbn [fst snd] in *.
      exists (chunk :: texts).
      rewrite Hst1, Hc1 in *.
      assert (Hk : k = S (Nat.min n (Z.to_nat (stop_generation_position s
                                              - (current_position s + 1)))))
        by (subst k; lia).
      rewrite Hk. cbn [length map app Nat.sub]. rewrite Hlen, Hchunks, Hpos, Hkv, Hkv1.
      rewrite length_app. cbn [length]. repeat split; lia.
Qed.

End FullTurn.

(** X6: with an engine that decodes every batch and a sampler that never
    draws an end-of-generation token, a turn whose stop position lies below
    252 returns text on each of the first [stop_generation_position -
    current_position] calls of [generate_next_token_ffi] and the null
    pointer on every call after them; each text call moves
    [current_position] one on and puts one token into the memory. *)
Theorem generation_runs_to_stop_position (E : Engine) (n : nat) (s : state)
    (ctx : llama_context) (sm : llama_sampler) :
  (forall m b, llama_decode_status E m b = 0) ->
  (forall t, llama_vocab_is_eog E t = false) ->
  g_context s = Some ctx -> g_sampler s = Some sm ->
  0 <= current_position s <= stop_generation_position s ->
  stop_generation_position s < DEFAULT_CONTEXT_SIZE - OVERFLOW_HEADROOM ->
  let k := Nat.min n (Z.to_nat (stop_generation_position s - current_position s)) in
  exists texts,
    length texts = k /\
    fst (generate_calls E n s) = map Some texts ++ repeat None (n - k) /\
    current_position (snd (generate_calls E n s)) = current_position s + Z.of_nat k /\
    Z.of_nat (length (kv (snd (generate_calls E n s))))
    = Z.of_nat (length (kv s)) + Z.of_nat k.
Proof.
  intros Hdecodes Hno_eog Hctx Hsm Hcur Hstop.
  exact (generate_calls_full_turn E Hdecodes Hno_eog n s ctx sm Hctx Hsm Hcur Hstop).
Qed.

Lemma generation_runs_to_stop_position_witness :
  let s := snd (process_user_prompt_ffi RoomyEngine.engine (Some "Hi"%string) 5
                  (snd (process_system_prompt_ffi RoomyEngine.engine (Some "S"%string)
                          ByteEngine.prepared))) in
  let k := Nat.min 8 (Z.to_nat (stop_generation_position s - current_position s)) in
  exists texts,
    length texts = k /\
    fst (generate_calls RoomyEngine.engine 8 s) = map Some texts ++ repeat None (8 - k) /\
    current_position (snd (generate_calls RoomyEngine.engine 8 s))
    = current_position s + Z.of_nat k /\
    Z.of_nat (length (kv (snd (generate_calls RoomyEngine.engine 8 s))))
    = Z.of_nat (length (kv s)) + Z.of_nat k.
Proof.
  intros s.
  apply (generation_runs_to_stop_position RoomyEngine.engine 8 s 1%nat 0%nat).
  - intros m b. reflexivity.
  - intros t. reflexivity.
  - vm_compute. reflexivity.
  - vm_compute. reflexivity.
  - vm_compute. split; discriminate.
  - vm_compute. reflexivity.
Defined.

(** ** Shifts keep the window without holes *)

Lemma zrange_cons lo hi : lo < hi -> zrange lo hi = lo :: zrange (lo + 1) hi.
Proof.
  intros H. unfold zrange.
  replace (Z.to_nat (hi - lo)) with (S (Z.to_nat (hi - (lo + 1)))) by lia.
  cbn [seq map]. f_equal; [lia|].
  rewrite <- seq_shift, map_map. apply map_ext. intros k. lia.
Qed.

Lemma zrange_nil lo hi : hi <= lo -> zrange lo hi = [].
Proof. intros H. unfold zrange. replace (Z.to_nat (hi - lo)) with 0%nat by lia. reflexivity. Qed.

Section ShiftContinuity.

Variables spp cur : Z.
Hypothesis Hord : 0 <= spp <= cur /\ cur <= Int32.INT_MAX.

Let nd := (cur - spp) / 2.

Lemma nd_bounds : 0 <= nd /\ spp + nd <= cur.
Proof.
  pose proof (half_bounds (cur - spp) ltac:(lia)) as H. fold nd in H. lia.
Qed.

Lemma resettled_next a :
  0 <= a < cur ->
  (spp <= a < spp + nd -> resettled spp cur (a + 1) = resettled spp cur a) /\
  (~ (spp <= a < spp + nd) ->
   resettled spp cur (a + 1) = resettled spp cur a + 1 /\
   renumbered spp cur a = resettled spp cur a).
Proof.
  intros Ha. pose proof nd_bounds as Hnd.
  unfold resettled, renumbered. fold nd.
  destruct (Z.ltb_spec a spp); destruct (Z.ltb_spec (a + 1) spp);
    destruct (Z.ltb_spec a (spp + nd)); destruct (Z.ltb_spec (a + 1) (spp + nd));
    destruct (Z.leb_spec (spp + nd) a); destruct (Z.ltb_spec a cur);
    cbn [andb]; split; intros; try split; lia.
Qed.

Lemma resettled_mono_aux a (n : nat) :
  0 <= a -> resettled spp cur a <= resettled spp cur (a + Z.of_nat n).
Proof.
  intros Ha. pose proof nd_bounds as Hnd.
  unfold resettled. fold nd.
  destruct (Z.ltb_spec a spp); destruct (Z.ltb_spec (a + Z.of_nat n) spp);
    destruct (Z.ltb_spec a (spp + nd));
    destruct (Z.ltb_spec (a + Z.of_nat n) (spp + nd)); lia.
Qed.

(** A run of consecutive positions from [a] on goes to a run of
    consecutive positions; the tokens kept are those before the boundary
    and those from [spp + n_discard] on, in order. *)
Lemma shifted_run l : forall a,
  0 <= a -> a + Z.of_nat (length l) <= cur ->
  map cell_pos l = zrange a (a + Z.of_nat (length l)) ->
  Forall (fun x => cell_seq x = 0) l ->
  map cell_pos (shifted spp cur l)
  = zrange (resettled spp cur a) (resettled spp cur (a + Z.of_nat (length l))) /\
  Forall (fun x => cell_seq x = 0) (shifted spp cur l) /\
  map cell_token (shifted spp cur l)
  = map cell_token (firstn (Z.to_nat (spp - a)) l ++ skipn (Z.to_nat (spp + nd - a)) l).
Proof.
  pose proof nd_bounds as Hnd.
  induction l as [|x l IH]; intros a Ha Hlen Hpos Hseq.
  - cbn. rewrite Z.add_0_r, zrange_nil by lia.
    rewrite firstn_nil, skipn_nil. auto.
  - cbn [length] in *. rewrite Nat2Z.inj_succ in *.
    rewrite zrange_cons in Hpos by lia. cbn [map] in Hpos.
    injection Hpos as Hx Hpos.
    inversion Hseq as [|? ? Hsx Hseq']; subst.
    replace (cell_pos x + Z.succ (Z.of_nat (length l)))
      with (cell_pos x + 1 + Z.of_nat (length l)) in * by lia.
    destruct (IH (cell_pos x + 1) ltac:(lia) ltac:(lia) Hpos Hseq') as (IHp & IHs & IHt).
    rewrite shifted_cons by (assumption || lia).
    destruct (resettled_next (cell_pos x) ltac:(lia)) as [Hdrop Hkeep].
    fold nd.
    destruct (Z.leb_spec spp (cell_pos x)) as [H1|H1];
      destruct (Z.ltb_spec (cell_pos x) (spp + nd)) as [H2|H2]; cbn [andb].
    + (* evicted *)
      rewrite <- (Hdrop (conj H1 H2)).
      split; [exact IHp|]. split; [exact IHs|].
      rewrite IHt.
      replace (Z.to_nat (spp - cell_pos x)) with 0%nat by lia.
      replace (Z.to_nat (spp - (cell_pos x + 1))) with 0%nat by lia.
      replace (Z.to_nat (spp + nd - cell_pos x))
        with (S (Z.to_nat (spp + nd - (cell_pos x + 1)))) by lia.
      reflexivity.
    + (* at or above the shifted range *)
      destruct Hkeep as [Hnext Hren]; [lia|].
      cbn [map cell_pos cell_seq cell_token].
      rewrite IHp, Hnext, Hren.
      split.
      { symmetry. apply zrange_cons.
        (* the run continues: the next position is resettled one higher *)
        pose proof (resettled_mono_aux (cell_pos x + 1) (length l) ltac:(lia)) as Hm. lia. }
      split; [constructor; [reflexivity | exact IHs]|].
      rewrite IHt.
      replace (Z.to_nat (spp - cell_pos x)) with 0%nat by lia.
      replace (Z.to_nat (spp - (cell_pos x + 1))) with 0%nat by lia.
      replace (Z.to_nat (spp + nd - cell_pos x)) with 0%nat by lia.
      replace (Z.to_nat (spp + nd - (cell_pos x + 1))) with 0%nat by lia.
      reflexivity.
    + (* below the boundary *)
      destruct Hkeep as [Hnext Hren]; [lia|].
      cbn [map cell_pos cell_seq cell_token].
      rewrite IHp, Hnext, Hren.
      split.
      { symmetry. apply zrange_cons.
        pose proof (resettled_mono_aux (cell_pos x + 1) (length l) ltac:(lia)) as Hm. lia. }
      split; [constructor; [reflexivity | exact IHs]|].
      rewrite IHt.
      replace (Z.to_nat (spp - cell_pos x))
        with (S (Z.to_nat (spp - (cell_pos x + 1)))) by lia.
      replace (Z.to_nat (spp + nd - cell_pos x))
        with (S (Z.to_nat (spp + nd - (cell_pos x + 1)))) by lia.
      reflexivity.
    + (* below the boundary and above the range: impossible *)
      lia.
Qed.

End ShiftContinuity.

Lemma resettled_ends spp cur :
  0 <= spp <= cur ->
  resettled spp cur 0 = 0 /\ resettled spp cur cur = cur - (cur - spp) / 2.
Proof.
  intros H. pose proof (half_bounds (cur - spp) ltac:(lia)) as Hh.
  unfold resettled.
  destruct (Z.ltb_spec 0 spp); destruct (Z.ltb_spec 0 (spp + (cur - spp) / 2));
    destruct (Z.ltb_spec cur spp); destruct (Z.ltb_spec cur (spp + (cur - spp) / 2));
    split; lia.
Qed.

Lemma contiguous_length m c : 0 <= c -> contiguous m c -> Z.of_nat (length m) = c.
Proof.
  intros Hc [Hpos _]. rewrite <- (length_map cell_pos), Hpos.
  rewrite zrange_length by lia. lia.
Qed.

(** The window after a shift, from a window without holes. *)
Lemma shift_context_run (s : state) :
  0 <= system_prompt_position s <= current_position s ->
  current_position s <= Int32.INT_MAX ->
  contiguous (kv s) (current_position s) ->
  let nd := (current_position s - system_prompt_position s) / 2 in
  contiguous (kv (shift_context s)) (current_position (shift_context s)) /\
  map cell_token (kv (shift_context s))
  = firstn (Z.to_nat (system_prompt_position s)) (map cell_token (kv s))
    ++ skipn (Z.to_nat (system_prompt_position s + nd)) (map cell_token (kv s)) /\
  Z.of_nat (length (kv (shift_context s))) = current_position s - nd.
Proof.
  intros Hord Hmax Hcont nd.
  assert (Hr : Int32.in_range (current_position s)).
  { unfold Int32.in_range, Int32.INT_MIN, Int32.INT_MAX in *. lia. }
  pose proof (contiguous_length (kv s) (current_position s) ltac:(lia) Hcont) as Hlen.
  destruct Hcont as [Hpos Hseq].
  destruct (resettled_ends (system_prompt_position s) (current_position s) Hord)
    as [H0 Hc].
  destruct (shifted_run (system_prompt_position s) (current_position s)
              (conj Hord Hmax) (kv s) 0)
    as (Hp & Hs & Ht); [lia | lia | rewrite Hlen; exact Hpos | exact Hseq |].
  rewrite Z.add_0_l, Hlen, H0, Hc in Hp. rewrite !Z.sub_0_r in Ht.
  rewrite kv_shift_context, shift_context_current by assumption.
  fold nd in Hp, Ht |- *.
  split; [split; assumption|].
  split.
  - rewrite Ht, map_app, firstn_map, skipn_map. reflexivity.
  - rewrite <- (length_map cell_pos), Hp.
    pose proof (half_bounds (current_position s - system_prompt_position s) ltac:(lia)).
    fold nd in H. rewrite zrange_length by lia. lia.
Qed.

(** X7: a shift keeps the window free of holes.  From a
    memory that holds one token at each position below [current_position],
    [shift_context] leaves one token at each position below the lowered
    [current_position]: the tokens below the system prompt boundary followed
    by those that stood at [system_prompt_position + n_discard] and above,
    in their order; [n_discard] tokens are gone. *)
Theorem shift_context_keeps_continuity (s : state) :
  0 <= system_prompt_position s <= current_position s ->
  current_position s <= Int32.INT_MAX ->
  contiguous (kv s) (current_position s) ->
  let nd := (current_position s - system_prompt_position s) / 2 in
  contiguous (kv (shift_context s)) (current_position (shift_context s)) /\
  map cell_token (kv (shift_context s))
  = firstn (Z.to_nat (system_prompt_position s)) (map cell_token (kv s))
    ++ skipn (Z.to_nat (system_prompt_position s + nd)) (map cell_token (kv s)) /\
  Z.of_nat (length (kv (shift_context s))) = current_position s - nd.
Proof.
  intros Hord Hmax Hcont. exact (shift_context_run s Hord Hmax Hcont).
Qed.

Lemma shift_context_keeps_continuity_witness :
  let s := mk_state None (Some 1%nat) [] None [] 2 6 0 [] [] []
             [mk_cell 0 0 65; mk_cell 0 1 66; mk_cell 0 2 67; mk_cell 0 3 68;
              mk_cell 0 4 69; mk_cell 0 5 70] [] in
  map cell_token (kv (shift_context s))
  = firstn (Z.to_nat 2) [65; 66; 67; 68; 69; 70]
    ++ skipn (Z.to_nat (2 + (6 - 2) / 2)) [65; 66; 67; 68; 69; 70] /\
  Z.of_nat (length (kv (shift_context s))) = 6 - (6 - 2) / 2.
Proof.
  intros s.
  destruct (shift_context_keeps_continuity s) as (_ & Ht & Hl).
  - simpl. lia.
  - vm_compute. discriminate.
  - split; [reflexivity | repeat constructor].
  - split; [exact Ht | exact Hl].
Defined.

Lemma emit_token_chars_window piece s :
  kv (snd (emit_token_chars piece s)) = kv s /\
  current_position (snd (emit_token_chars piece s)) = current_position s.
Proof.
  destruct s. unfold emit_token_chars. cbn -[is_valid_utf8].
  destruct (is_valid_utf8 _); cbn; auto.
Qed.

(** X8: [generate_next_token_ffi] keeps the window without holes,
    whatever its outcome (shift or not, stop position reached, decode
    refused, end-of-generation token, text): if the memory holds one token
    at each position below [current_position] before the call, it does so
    after it. *)
Theorem generate_keeps_continuity (E : Engine) (s : state) :
  0 <= system_prompt_position s <= current_position s ->
  current_position s < Int32.INT_MAX ->
  contiguous (kv s) (current_position s) ->
  let s' := snd (generate_next_token_ffi E s) in
  contiguous (kv s') (current_position s').
Proof.
  intros Hord Hmax Hcont.
  destruct (shift_context_run s Hord ltac:(lia) Hcont) as (Hshift & _ & _).
  assert (Hr : Int32.in_range (current_position s)).
  { unfold Int32.in_range, Int32.INT_MIN, Int32.INT_MAX in *. lia. }
  pose proof (shift_context_current s Hr Hord) as Hsc.
  pose proof (half_bounds (current_position s - system_prompt_position s) ltac:(lia))
    as Hh.
  assert (Hrest : forall s2 sm,
            contiguous (kv s2) (current_position s2) ->
            0 <= current_position s2 < Int32.INT_MAX ->
            let r :=
              if current_position s2 >=? stop_generation_position s2 then (None, s2)
              else
                let new_token_id := llama_sampler_sample E sm (kv s2) in
                let s3 := set_g_sampler (Some (llama_sampler_accept E sm new_token_id)) s2 in
                let s3 := common_batch_clear s3 in
                let s3 := common_batch_add new_token_id (current_position s3) [0] true s3 in
                let (r, s3) := llama_decode E s3 in
                if negb (r =? 0) then (None, s3)
                else
                  let s3 := set_current_position (Int32.add (current_position s3) 1) s3 in
                  if llama_vocab_is_eog E new_token_id then (None, s3)
                  else
                    let (chunk, s3) :=
                      emit_token_chars (common_token_to_piece E new_token_id) s3 in
                    (Some chunk, s3) in
            contiguous (kv (snd r)) (current_position (snd r))).
  { intros s2 sm Hc2 Hcur2.
    destruct s2 as [m2 c2 b2 sa2 msgs2 spp2 cur2 stop2 cached2 ss2 rb2 mem2 tr2].
    cbn [current_position stop_generation_position kv] in *. cbv zeta.
    destruct (cur2 >=? stop2); [exact Hc2|].
    unfold llama_decode. cbn.
    destruct (llama_decode_status E _ _ =? 0); cbn; [|exact Hc2].
    assert (Hadd : Int32.add cur2 1 = cur2 + 1).
    { unfold Int32.add. apply int32_small. unfold Int32.INT_MAX in *. lia. }
    assert (Hnew : contiguous
                     (mem2 ++ [mk_cell 0 cur2 (llama_sampler_sample E sm mem2)])
                     (cur2 + 1)).
    { destruct Hc2 as [Hp2 Hs2]. split.
      - rewrite map_app, Hp2. cbn [map cell_pos].
        rewrite (zrange_app 0 cur2 (cur2 + 1)) by lia.
        rewrite (zrange_cons cur2) by lia.
        rewrite (zrange_nil (cur2 + 1) (cur2 + 1)) by lia. reflexivity.
      - apply Forall_app. split; [exact Hs2 | repeat constructor]. }
    destruct (llama_vocab_is_eog E _).
    - cbn. rewrite Hadd. exact Hnew.
    - match goal with
      | |- context [emit_token_chars ?p ?st] =>
          pose proof (emit_token_chars_window p st) as (H1 & H2);
          destruct (emit_token_chars p st) as [chunk s4]
      end.
      cbn in *. rewrite H1, H2, Hadd. exact Hnew. }
  unfold generate_next_token_ffi. cbv zeta.
  destruct (g_context s); [|exact Hcont].
  destruct (g_sampler s) as [sm|]; [|exact Hcont].
  destruct (current_position s >=? DEFAULT_CONTEXT_SIZE - OVERFLOW_HEADROOM).
  - apply Hrest; [exact Hshift|]. rewrite Hsc. lia.
  - apply Hrest; [exact Hcont | lia].
Qed.

Lemma contiguous_by_check m c :
  forallb (fun x => cell_seq x =? 0) m = true ->
  map cell_pos m = zrange 0 c ->
  contiguous m c.
Proof.
  intros Hseq Hpos. split; [exact Hpos|].
  apply Forall_forall. intros x Hx.
  rewrite forallb_forall in Hseq. apply Z.eqb_eq. apply Hseq. exact Hx.
Qed.

Lemma generate_keeps_continuity_witness :
  let s' := snd (generate_next_token_ffi ByteEngine.engine ByteEngine.after_hi) in
  contiguous (kv s') (current_position s').
Proof.
  apply (generate_keeps_continuity ByteEngine.engine ByteEngine.after_hi).
  - vm_compute. split; discriminate.
  - vm_compute. reflexivity.
  - apply contiguous_by_check; vm_compute; reflexivity.
Defined.

(** ** Teardown *)

Lemma unload_ffi_handles s :
  g_model (unload_ffi s) = None /\ g_context (unload_ffi s) = None /\
  g_sampler (unload_ffi s) = None /\
  system_prompt_position (unload_ffi s) = 0 /\ current_position (unload_ffi s) = 0 /\
  stop_generation_position (unload_ffi s) = 0 /\ kv (unload_ffi s) = kv s \/
  g_model (unload_ffi s) = None /\ g_context (unload_ffi s) = None /\
  g_sampler (unload_ffi s) = None /\
  system_prompt_position (unload_ffi s) = 0 /\ current_position (unload_ffi s) = 0 /\
  stop_generation_position (unload_ffi s) = 0 /\ kv (unload_ffi s) = [].
Proof.
  destruct s as [m c b sa msgs spp cur stop cached ss rb mem tr].
  destruct m, c, sa; cbn; auto 10.
Qed.

(** X9: after [unload_ffi] the session refuses everything until a model
    is loaded again: [prepare_session_ffi], [process_system_prompt_ffi] and
    [process_user_prompt_ffi] return 1, [generate_next_token_ffi] returns
    the null pointer, and none of them changes the state or calls the
    engine. *)
Theorem unloaded_session_refuses (E : Engine) (s : state) (system_prompt user_prompt : option string)
    (n_predict : Z) :
  let u := unload_ffi s in
  prepare_session_ffi E u = (1, u) /\
  process_system_prompt_ffi E system_prompt u = (1, u) /\
  process_user_prompt_ffi E user_prompt n_predict u = (1, u) /\
  generate_next_token_ffi E u = (None, u).
Proof.
  intros u.
  assert (Hm : g_model u = None /\ g_context u = None).
  { subst u. destruct (unload_ffi_handles s) as [H|H]; destruct H as (H1 & H2 & _); auto. }
  destruct Hm as [Hm Hc].
  unfold prepare_session_ffi, process_system_prompt_ffi, process_user_prompt_ffi,
    generate_next_token_ffi.
  rewrite Hm, Hc.
  destruct system_prompt, user_prompt; repeat split; reflexivity.
Qed.

(** X10: [shutdown_ffi] frees the backend on every call.  Two shutdowns
    in a row free each owned resource once and call [llama_backend_free]
    twice; the second call does nothing else. *)
Theorem shutdown_ffi_twice (s : state) :
  trace (shutdown_ffi (shutdown_ffi s))
  = trace s ++ frees_of s ++ [call_backend_free; call_backend_free] /\
  frees_of (shutdown_ffi s) = [] /\
  g_model (shutdown_ffi (shutdown_ffi s)) = None /\
  g_context (shutdown_ffi (shutdown_ffi s)) = None /\
  g_sampler (shutdown_ffi (shutdown_ffi s)) = None.
Proof.
  destruct s as [m c b sa msgs spp cur stop cached ss rb mem tr].
  unfold frees_of.
  destruct m, c, sa; cbn; rewrite <- ?app_assoc; cbn; repeat split; reflexivity.
Qed.

(** ** Preparing the session *)

(** X11: [prepare_session_ffi] asks the engine for a context of 256
    positions with batches of one token and a thread count clamped into
    [N_THREADS_MIN .. N_THREADS_MAX] = 2..4 whatever [sysconf] reports (an
    error value included); with 4 to 6 processors on line the count is two
    less than their number.  It returns 0 exactly when the engine gave a
    context; then the memory and the batch are empty and the sampler is
    fresh.  In neither case does it touch the positions of the
    conversation. *)
Theorem prepare_session_ffi_context (E : Engine) (s : state) (model : llama_model) :
  let r := prepare_session_ffi E s in
  let nproc := sysconf_nprocessors_onln E in
  g_model s = Some model ->
  exists p,
    g_context (snd r) = llama_init_from_model E model p /\
    n_ctx p = 256 /\ n_batch p = 1 /\ n_ubatch p = 1 /\
    N_THREADS_MIN <= n_threads p <= N_THREADS_MAX /\
    n_threads_batch p = n_threads p /\
    (4 <= nproc <= 6 -> n_threads p = nproc - 2) /\
    (fst r = 0 <-> g_context (snd r) <> None) /\
    (fst r = 0 ->
     kv (snd r) = [] /\ g_batch (snd r) = [] /\
     g_sampler (snd r) = Some (llama_sampler_chain_init E)) /\
    (fst r <> 0 -> fst r = 1 /\ g_sampler (snd r) = g_sampler s) /\
    current_position (snd r) = current_position s /\
    system_prompt_position (snd r) = system_prompt_position s /\
    stop_generation_position (snd r) = stop_generation_position s /\
    trace (snd r) = trace s.
Proof.
  intros r nproc Hm. subst r. unfold prepare_session_ffi. rewrite Hm.
  cbv zeta. fold nproc.
  set (nt := Z.max N_THREADS_MIN
               (Z.min N_THREADS_MAX (Int32.sub (Int32.wrap nproc) N_THREADS_HEADROOM))).
  exists (mk_ctx_params DEFAULT_CONTEXT_SIZE BATCH_SIZE BATCH_SIZE nt nt).
  assert (Hnt : N_THREADS_MIN <= nt <= N_THREADS_MAX)
    by (subst nt; unfold N_THREADS_MIN, N_THREADS_MAX; lia).
  assert (Hmid : 4 <= nproc <= 6 -> nt = nproc - 2).
  { intros Hn. subst nt.
    unfold N_THREADS_MIN, N_THREADS_MAX, N_THREADS_HEADROOM, Int32.sub.
    rewrite (int32_wrap_id nproc)
      by (unfold Int32.in_range, Int32.INT_MIN, Int32.INT_MAX; lia).
    rewrite int32_wrap_id
      by (unfold Int32.in_range, Int32.INT_MIN, Int32.INT_MAX; lia).
    lia. }
  clearbody nt.
  destruct s as [m c b sa msgs spp cur stop cached ss rb mem tr].
  cbn [set_g_context set_kv g_context].
  destruct (llama_init_from_model E model
              (mk_ctx_params DEFAULT_CONTEXT_SIZE BATCH_SIZE BATCH_SIZE nt nt))
    as [ctx|]; cbn.
  - split; [reflexivity|]. split; [reflexivity|]. split; [reflexivity|].
    split; [reflexivity|]. split; [exact Hnt|]. split; [reflexivity|].
    split; [exact Hmid|].
    split; [split; [discriminate | reflexivity]|].
    split; [auto|]. split; [intros H; contradiction H; reflexivity|].
    auto.
  - split; [reflexivity|]. split; [reflexivity|]. split; [reflexivity|].
    split; [reflexivity|]. split; [exact Hnt|]. split; [reflexivity|].
    split; [exact Hmid|].
    split; [split; [discriminate | intros H; contradiction H; reflexivity]|].
    split; [discriminate|]. split; [auto|].
    auto.
Qed.

Lemma prepare_session_ffi_context_witness :
  let s := snd (load_model_ffi ByteEngine.engine (Some "model.gguf"%string)
                  initial_state) in
  exists p,
    g_context (snd (prepare_session_ffi ByteEngine.engine s))
    = llama_init_from_model ByteEngine.engine 1%nat p /\
    N_THREADS_MIN <= n_threads p <= N_THREADS_MAX.
Proof.
  intros s.
  destruct (prepare_session_ffi_context ByteEngine.engine s 1%nat eq_refl)
    as (p & Hc & _ & _ & _ & Ht & _).
  exists p. split; [exact Hc | exact Ht].
Defined.

(** ** More on the UTF-8 validator *)

Lemma is_valid_utf8_loop_more fuel : forall bytes r fuel',
  is_valid_utf8_loop fuel bytes = Some r -> (fuel <= fuel')%nat ->
  is_valid_utf8_loop fuel' bytes = Some r.
Proof.
  induction fuel as [|fuel IH]; intros bytes r fuel' H Hle; [discriminate H|].
  destruct fuel' as [|fuel']; [lia|].
  cbn [is_valid_utf8_loop] in *.
  destruct (deref bytes =? 0); [exact H|].
  destruct (sequence_length (deref bytes)); [|exact H].
  destruct (check_continuation _ _); [|exact H].
  apply (IH _ _ _ H). lia.
Qed.

(** Any fuel above the length gives the validator's answer. *)
Lemma is_valid_utf8_fuel fuel bytes :
  (length bytes < fuel)%nat ->
  is_valid_utf8_loop fuel bytes = Some (is_valid_utf8 (Some bytes)).
Proof.
  intros Hlen. destruct (is_valid_utf8_defined bytes) as (r & Hr & Hv).
  rewrite Hv. apply (is_valid_utf8_loop_more _ _ _ _ Hr). lia.
Qed.

Lemma check_continuation_nul n : forall a b,
  check_continuation n (a ++ x00 :: b)
  = option_map (fun rest => rest ++ x00 :: b) (check_continuation n a).
Proof.
  induction n as [|n IH]; intros a b; [reflexivity|].
  destruct a as [|c a]; [reflexivity|].
  cbn [check_continuation app deref tl].
  destruct (negb (Z.land (Z.of_N (Byte.to_N c)) 192 =? 128)); [reflexivity|].
  apply IH.
Qed.

Lemma is_valid_utf8_loop_nul fuel : forall a b,
  (length a < fuel)%nat ->
  is_valid_utf8_loop fuel (a ++ x00 :: b) = is_valid_utf8_loop fuel a.
Proof.
  induction fuel as [|fuel IH]; intros a b Hlen; [lia|].
  destruct a as [|c a]; [reflexivity|].
  cbn [is_valid_utf8_loop app deref tl].
  destruct (Z.of_N (Byte.to_N c) =? 0); [reflexivity|].
  destruct (sequence_length (Z.of_N (Byte.to_N c))) as [num|]; [|reflexivity].
  rewrite check_continuation_nul.
  destruct (check_continuation (num - 1) a) as [rest|] eqn:Hc; cbn [option_map];
    [|reflexivity].
  apply IH. apply check_continuation_length in Hc. cbn in Hlen. lia.
Qed.

(** X12: the validator never looks behind a NUL byte: a string with a NUL
    in it is judged exactly like the part before the NUL, whatever
    follows. *)
Theorem is_valid_utf8_stops_at_nul (a b : list byte) :
  is_valid_utf8 (Some (a ++ x00 :: b)) = is_valid_utf8 (Some a).
Proof.
  assert (H : is_valid_utf8_loop (S (length (a ++ x00 :: b))) (a ++ x00 :: b)
              = Some (is_valid_utf8 (Some a))).
  { rewrite is_valid_utf8_loop_nul by (rewrite length_app; lia).
    apply is_valid_utf8_fuel. rewrite length_app. lia. }
  unfold is_valid_utf8 at 1. rewrite H. reflexivity.
Qed.

Lemma check_continuation_app n : forall a rest b,
  check_continuation n a = Some rest ->
  check_continuation n (a ++ b) = Some (rest ++ b) /\
  (forall x, In x rest -> In x a).
Proof.
  induction n as [|n IH]; intros a rest b H.
  - cbn in H. injection H as <-. split; [reflexivity | auto].
  - destruct a as [|c a]; [discriminate H|].
    cbn [check_continuation app deref tl] in *.
    destruct (negb (Z.land (Z.of_N (Byte.to_N c)) 192 =? 128)); [discriminate H|].
    destruct (IH a rest b H) as [Happ Hin].
    split; [exact Happ|]. intros x Hx. right. apply Hin. exact Hx.
Qed.

Lemma is_valid_utf8_loop_app fuel : forall a b F,
  (length a < fuel)%nat ->
  is_valid_utf8_loop fuel a = Some true ->
  ~ In x00 a ->
  (length (a ++ b) < F)%nat ->
  is_valid_utf8_loop F (a ++ b) = Some (is_valid_utf8 (Some b)).
Proof.
  induction fuel as [|fuel IH]; intros a b F Hlen Hvalid Hnul HF; [lia|].
  destruct a as [|c a].
  - cbn [app] in *. apply is_valid_utf8_fuel. exact HF.
  - destruct F as [|F]; [lia|].
    cbn [is_valid_utf8_loop app deref tl] in *.
    destruct (Z.eqb_spec (Z.of_N (Byte.to_N c)) 0) as [Hz|_].
    { exfalso. apply Hnul. left. apply byte_value_zero. exact Hz. }
    destruct (sequence_length (Z.of_N (Byte.to_N c))) as [num|]; [|discriminate Hvalid].
    destruct (check_continuation (num - 1) a) as [rest|] eqn:Hc; [|discriminate Hvalid].
    destruct (check_continuation_app _ _ _ b Hc) as [Happ Hin].
    rewrite Happ.
    pose proof (check_continuation_length _ _ _ Hc) as Hrest.
    apply IH.
    + cbn in Hlen. lia.
    + exact Hvalid.
    + intros Hx. apply Hnul. right. apply Hin. exact Hx.
    + cbn [length] in HF. rewrite length_app in HF |- *. lia.
Qed.

(** X13: validity composes.  Behind a valid string that holds no NUL byte
    the validator judges what follows on its own: [a ++ b] is valid
    exactly when [b] is. *)
Theorem is_valid_utf8_after_valid (a b : list byte) :
  is_valid_utf8 (Some a) = true -> ~ In x00 a ->
  is_valid_utf8 (Some (a ++ b)) = is_valid_utf8 (Some b).
Proof.
  intros Hvalid Hnul.
  assert (H : is_valid_utf8_loop (S (length (a ++ b))) (a ++ b)
              = Some (is_valid_utf8 (Some b))).
  { apply (is_valid_utf8_loop_app (S (length a))); [lia | | exact Hnul | lia].
    rewrite is_valid_utf8_fuel by lia. rewrite Hvalid. reflexivity. }
  unfold is_valid_utf8 at 1. rewrite H. reflexivity.
Qed.

Lemma is_valid_utf8_after_valid_witness :
  is_valid_utf8 (Some ([x48; x69] ++ [xe2; x82]))
  = is_valid_utf8 (Some [xe2; x82]).
Proof.
  apply is_valid_utf8_after_valid.
  - reflexivity.
  - simpl. intros [H | [H | H]]; try discriminate H. exact H.
Defined.

Lemma sequence_length_ascii c :
  Z.of_N (Byte.to_N c) < 128 -> sequence_length (Z.of_N (Byte.to_N c)) = Some 1%nat.
Proof. destruct c; intros H; try reflexivity; vm_compute in H; discriminate H. Qed.

Lemma is_valid_utf8_loop_ascii fuel : forall a,
  (length a < fuel)%nat ->
  Forall (fun c => Z.of_N (Byte.to_N c) < 128) a ->
  is_valid_utf8_loop fuel a = Some true.
Proof.
  induction fuel as [|fuel IH]; intros a Hlen Ha; [lia|].
  destruct a as [|c a]; [reflexivity|].
  cbn [is_valid_utf8_loop deref tl].
  destruct (Z.of_N (Byte.to_N c) =? 0); [reflexivity|].
  rewrite sequence_length_ascii by (inversion Ha; assumption).
  cbn [Nat.sub check_continuation].
  apply IH; [cbn in Hlen; lia | inversion Ha; assumption].
Qed.

(** X14: plain ASCII is never held back.  With nothing pending, a piece
    made of bytes below 0x80 is handed out by the assembler in the same
    call: whole when it holds no NUL byte, in general up to its first
    NUL.  The accumulated answer receives the whole piece and nothing is
    left pending. *)
Theorem ascii_piece_streams_at_once (piece : list byte) (s : state) :
  cached_token_chars s = [] ->
  Forall (fun c => Z.of_N (Byte.to_N c) < 128) piece ->
  fst (emit_token_chars piece s) = c_str piece /\
  (~ In x00 piece -> fst (emit_token_chars piece s) = piece) /\
  cached_token_chars (snd (emit_token_chars piece s)) = [] /\
  assistant_ss (snd (emit_token_chars piece s)) = assistant_ss s ++ piece.
Proof.
  intros Hempty Hascii.
  assert (Hvalid : is_valid_utf8 (Some (cached_token_chars s ++ piece)) = true).
  { rewrite Hempty. cbn [app]. unfold is_valid_utf8.
    rewrite is_valid_utf8_loop_ascii by (try lia; exact Hascii). reflexivity. }
  destruct (emit_token_chars_valid piece s Hvalid) as (H1 & H2 & H3).
  rewrite Hempty in H1, H3. cbn [app] in H1, H3.
  split; [exact H1|].
  split; [intros Hnul; rewrite H1; apply c_str_no_nul; exact Hnul|].
  split; [exact H2 | exact H3].
Qed.

Lemma ascii_piece_streams_at_once_witness :
  fst (emit_token_chars [x48; x69] initial_state) = [x48; x69] /\
  fst (emit_token_chars [x61; x00; x62] initial_state) = [x61] /\
  assistant_ss (snd (emit_token_chars [x61; x00; x62] initial_state))
  = [x61; x00; x62].
Proof.
  destruct (ascii_piece_streams_at_once [x48; x69] initial_state)
    as (_ & H1 & _); [reflexivity | repeat constructor |].
  destruct (ascii_piece_streams_at_once [x61; x00; x62] initial_state)
    as (H2 & _ & _ & H3); [reflexivity | repeat constructor |].
  split.
  - apply H1. simpl. intros [H | [H | H]]; try discriminate H. exact H.
  - split; [exact H2 | exact H3].
Defined.

Lemma emit_token_chars_cases piece s :
  (is_valid_utf8 (Some (cached_token_chars s ++ piece)) = true /\
   fst (emit_token_chars piece s) = c_str (cached_token_chars s ++ piece) /\
   cached_token_chars (snd (emit_token_chars piece s)) = [] /\
   assistant_ss (snd (emit_token_chars piece s))
   = assistant_ss s ++ cached_token_chars s ++ piece) \/
  (is_valid_utf8 (Some (cached_token_chars s ++ piece)) = false /\
   fst (emit_token_chars piece s) = [] /\
   cached_token_chars (snd (emit_token_chars piece s)) = cached_token_chars s ++ piece /\
   assistant_ss (snd (emit_token_chars piece s)) = assistant_ss s).
Proof.
  destruct (is_valid_utf8 (Some (cached_token_chars s ++ piece))) eqn:Hv.
  - left. split; [reflexivity|]. apply emit_token_chars_valid. exact Hv.
  - right. split; [reflexivity|]. apply emit_token_chars_invalid. exact Hv.
Qed.

Lemma not_in_app_l (x : byte) a b : ~ In x (a ++ b) -> ~ In x a.
Proof. intros H Hin. apply H. apply in_or_app. left. exact Hin. Qed.

Lemma not_in_app_r (x : byte) a b : ~ In x (a ++ b) -> ~ In x b.
Proof. intros H Hin. apply H. apply in_or_app. right. exact Hin. Qed.

(** X15: what the assembler keeps and what it hands out.  Over any run
    of pieces, the accumulated answer followed by what is still pending
    has grown by exactly the bytes of the pieces; there is one chunk per
    piece, and every chunk is UTF-8 text without a NUL byte.  When neither
    the bytes pending before nor the pieces hold a NUL byte, the caller
    loses nothing either: the chunks followed by what is still pending are
    the bytes pending before followed by the pieces, and the accumulated
    answer has grown by exactly the chunks.  What stays pending is empty or
    rejected by the validator, if it was so before. *)
Theorem assembler_conserves_bytes (pieces : list (list byte)) (s : state) :
  assistant_ss (snd (feed pieces s)) ++ cached_token_chars (snd (feed pieces s))
  = assistant_ss s ++ cached_token_chars s ++ concat pieces /\
  length (fst (feed pieces s)) = length pieces /\
  Forall (fun chunk => utf8_text chunk /\ ~ In x00 chunk) (fst (feed pieces s)) /\
  (~ In x00 (cached_token_chars s ++ concat pieces) ->
   concat (fst (feed pieces s)) ++ cached_token_chars (snd (feed pieces s))
   = cached_token_chars s ++ concat pieces /\
   assistant_ss (snd (feed pieces s)) = assistant_ss s ++ concat (fst (feed pieces s))) /\
  (cached_token_chars s = [] \/ is_valid_utf8 (Some (cached_token_chars s)) = false ->
   cached_token_chars (snd (feed pieces s)) = [] \/
   is_valid_utf8 (Some (cached_token_chars (snd (feed pieces s)))) = false).
Proof.
  revert s. induction pieces as [|p rest IH]; intros s.
  - cbn [feed fst snd concat length]. rewrite !app_nil_r.
    split; [reflexivity|]. split; [reflexivity|]. split; [constructor|].
    split; [intros _; split; reflexivity | tauto].
  - cbn [feed].
    pose proof (emit_token_chars_cases p s) as Hcases.
    destruct (emit_token_chars p s) as [chunk s1]. cbn [fst snd] in Hcases.
    specialize (IH s1).
    destruct (feed rest s1) as [chunks s2]. cbn [fst snd] in IH |- *.
    destruct IH as (IH1 & IH2 & IH3 & IH4 & IH5).
    cbn [concat length].
    destruct Hcases as [(Hv & Hc & Hp & Ha) | (Hv & Hc & Hp & Ha)].
    + split.
      { rewrite IH1, Ha, Hp. cbn [app]. rewrite <- !app_assoc. reflexivity. }
      split; [rewrite IH2; reflexivity|].
      split.
      { constructor; [|exact IH3]. rewrite Hc.
        split; [apply is_valid_utf8_text; exact Hv | apply c_str_nul_free]. }
      split.
      { intros Hnul. rewrite app_assoc in Hnul.
        pose proof (not_in_app_l _ _ _ Hnul) as Hbuf.
        pose proof (not_in_app_r _ _ _ Hnul) as Hrest.
        rewrite (c_str_no_nul _ Hbuf) in Hc.
        rewrite Hp in IH4. cbn [app] in IH4. destruct (IH4 Hrest) as [IH4a IH4b].
        split.
        - rewrite <- app_assoc, IH4a, Hc. rewrite <- app_assoc. reflexivity.
        - rewrite IH4b, Ha, Hc. rewrite <- !app_assoc. reflexivity. }
      intros _. apply IH5. left. exact Hp.
    + split.
      { rewrite IH1, Ha, Hp. rewrite <- !app_assoc. reflexivity. }
      split; [rewrite IH2; reflexivity|].
      split.
      { constructor; [|exact IH3]. rewrite Hc. split; [constructor | intros []]. }
      split.
      { intros Hnul. rewrite app_assoc, <- Hp in Hnul.
        destruct (IH4 Hnul) as [IH4a IH4b].
        split.
        - rewrite Hc. cbn [app]. rewrite IH4a, Hp. rewrite <- app_assoc. reflexivity.
        - rewrite IH4b, Ha, Hc. reflexivity. }
      intros _. apply IH5. right. rewrite Hp. exact Hv.
Qed.

(** ** The life of a session *)

(** X16: a session releases what it acquired, once, and nothing else.
    From a state without context and sampler, [init_ffi],
    [load_model_ffi], [prepare_session_ffi] and [shutdown_ffi] in a row
    call the engine as follows: the backends are loaded from the path when
    it is not empty, the backend is initialised, the sampler, the batch and
    the context are freed when the session was prepared, the model is freed
    when it was loaded, and the backend is freed last.  Neither
    [load_model_ffi] nor [prepare_session_ffi] frees anything, also not a
    model the state held before. *)
Theorem session_releases_what_it_acquired (E : Engine)
    (backend_path model_path : string) (s : state) :
  g_context s = None -> g_sampler s = None ->
  let s1 := init_ffi (Some backend_path) s in
  let l := load_model_ffi E (Some model_path) s1 in
  let p := prepare_session_ffi E (snd l) in
  trace (snd p)
  = trace s
    ++ (if String.eqb backend_path EmptyString then []
        else [call_backend_load_all_from_path backend_path])
    ++ [call_backend_init] /\
  trace (shutdown_ffi (snd p))
  = trace (snd p)
    ++ (if fst l =? 0
        then (if fst p =? 0 then [call_sampler_free; call_batch_free; call_free]
              else [])
             ++ [call_model_free]
        else [])
    ++ [call_backend_free].
Proof.
  intros Hctx Hsm.
  destruct s as [m c b sa msgs spp cur stop cached ss rb mem tr].
  cbn [g_context g_sampler] in Hctx, Hsm. subst c sa.
  unfold init_ffi, load_model_ffi, prepare_session_ffi.
  destruct (String.eqb backend_path EmptyString);
    cbn -[Z.max Z.min Int32.sub Int32.wrap];
    (destruct (llama_model_load_from_file E model_path) as [model|];
     cbn -[Z.max Z.min Int32.sub Int32.wrap];
     [destruct (llama_init_from_model E model _) as [ctx|];
      cbn -[Z.max Z.min Int32.sub Int32.wrap]|]);
    rewrite <- ?app_assoc; split; reflexivity.
Qed.

Lemma session_releases_what_it_acquired_witness :
  trace (shutdown_ffi
           (snd (prepare_session_ffi ByteEngine.engine
                   (snd (load_model_ffi ByteEngine.engine (Some "m"%string)
                           (init_ffi (Some "b"%string) initial_state))))))
  = [call_backend_load_all_from_path "b"; call_backend_init; call_sampler_free;
     call_batch_free; call_free; call_model_free; call_backend_free].
Proof.
  destruct (session_releases_what_it_acquired ByteEngine.engine "b" "m" initial_state)
    as [H1 H2]; [reflexivity | reflexivity |].
  rewrite H2, H1. reflexivity.
Defined.

(** X17: [reset_conversation_ffi] empties the conversation and keeps the
    session.  The positions are 0, the history, the pending bytes and the
    accumulated answer are empty, model, context and sampler stay; with a
    context the engine memory is cleared by one [llama_memory_clear],
    without one the engine is not called.  The turn is closed: every
    following [generate_next_token_ffi] returns the null pointer without
    decoding. *)
Theorem reset_conversation_empties_session (E : Engine) (s : state) (n : nat) :
  let s1 := reset_conversation_ffi s in
  current_position s1 = 0 /\ system_prompt_position s1 = 0 /\
  stop_generation_position s1 = 0 /\
  chat_msgs s1 = [] /\ cached_token_chars s1 = [] /\ assistant_ss s1 = [] /\
  g_model s1 = g_model s /\ g_context s1 = g_context s /\ g_sampler s1 = g_sampler s /\
  kv s1 = (match g_context s with Some _ => [] | None => kv s end) /\
  trace s1
  = trace s ++ (match g_context s with Some _ => [call_memory_clear] | None => [] end) /\
  fst (generate_calls E n s1) = repeat None n /\
  decode_calls (trace (snd (generate_calls E n s1))) = decode_calls (trace s).
Proof.
  intros s1.
  assert (Hs1 : current_position s1 = 0 /\ system_prompt_position s1 = 0 /\
                stop_generation_position s1 = 0 /\
                chat_msgs s1 = [] /\ cached_token_chars s1 = [] /\ assistant_ss s1 = [] /\
                g_model s1 = g_model s /\ g_context s1 = g_context s /\
                g_sampler s1 = g_sampler s /\
                kv s1 = (match g_context s with Some _ => [] | None => kv s end) /\
                trace s1 = trace s ++ (match g_context s with
                                       | Some _ => [call_memory_clear]
                                       | None => []
                                       end)).
  { subst s1. destruct s as [m c b sa msgs spp cur stop cached ss rb mem tr].
    destruct c; cbn; rewrite ?app_nil_r; repeat split; reflexivity. }
  destruct Hs1 as (Hcur & Hspp & Hstop & Hmsgs & Hcached & Hss & Hm & Hc & Hsa & Hkv & Htr).
  destruct (generate_calls_closed E n s1) as (Hchunks & Hcalls & _).
  { rewrite Hcur, Hspp. lia. }
  { rewrite Hcur. unfold Int32.INT_MAX. lia. }
  { rewrite Hstop, Hspp. lia. }
  assert (Hdec : decode_calls (trace s1) = decode_calls (trace s)).
  { rewrite Htr, decode_calls_app. destruct (g_context s); cbn; apply app_nil_r. }
  rewrite Hdec in Hcalls.
  split; [exact Hcur|]. split; [exact Hspp|]. split; [exact Hstop|].
  split; [exact Hmsgs|]. split; [exact Hcached|]. split; [exact Hss|].
  split; [exact Hm|]. split; [exact Hc|]. split; [exact Hsa|].
  split; [exact Hkv|]. split; [exact Htr|].
  split; [exact Hchunks | exact Hcalls].
Qed.

(** ** A system prompt the engine refuses *)

(** X18: a [process_system_prompt_ffi] that fails on a decode (status 2)
    does not undo what it decoded.  For a prompt of fewer than 252 tokens,
    the tokens before the refused one stay in the engine memory at the
    positions 0, 1, ..., while [system_prompt_position] and
    [current_position] are 0 and the stop position is 0. *)
Theorem failed_system_prompt_keeps_decoded (E : Engine) (s s' : state)
    (system_prompt : string) :
  let toks := system_tokens E system_prompt in
  Z.of_nat (length toks) < DEFAULT_CONTEXT_SIZE - OVERFLOW_HEADROOM ->
  process_system_prompt_ffi E (Some system_prompt) s = (2, s') ->
  exists j,
    (j < length toks)%nat /\
    kv s' = map (cell_at toks 0) (seq 0 j) /\
    current_position s' = 0 /\ system_prompt_position s' = 0 /\
    stop_generation_position s' = 0.
Proof.
  intros toks Hfits Hrun.
  unfold process_system_prompt_ffi in Hrun.
  destruct (g_context s) as [ctx|] eqn:Hctx; [|discriminate].
  cbv beta iota zeta in Hrun. fold (system_tokens E system_prompt) in Hrun.
  fold toks in Hrun.
  unfold Int32.of_size in Hrun.
  rewrite int32_small in Hrun
    by (unfold DEFAULT_CONTEXT_SIZE, OVERFLOW_HEADROOM, Int32.INT_MAX in *; lia).
  destruct (Z.gtb_spec (Z.of_nat (length toks))
              (DEFAULT_CONTEXT_SIZE - OVERFLOW_HEADROOM)); [discriminate|].
  rewrite (reset_long_term_states_unfold s ctx Hctx) in Hrun.
  rewrite reset_short_term_states_unfold in Hrun.
  cbn [g_model g_context g_batch g_sampler chat_msgs system_prompt_position
       current_position stop_generation_position cached_token_chars assistant_ss
       ret_buf kv trace] in Hrun.
  match type of Hrun with
  | context [decode_tokens_in_batches E toks 0 false ?st] => set (s0 := st) in *
  end.
  destruct (decode_tokens_in_batches E toks 0 false s0) as [r s1] eqn:Hd.
  destruct (Z.eqb_spec r 0) as [->|Hr]; cbn [negb] in Hrun; [discriminate|].
  injection Hrun as <-.
  pose proof (decode_batches_frame E (trip_count (Int32.of_size (length toks)))
                0 toks 0 false s0) as Hf.
  fold (decode_tokens_in_batches E toks 0 false s0) in Hf.
  rewrite Hd in Hf. cbn [snd] in Hf.
  unfold decode_tokens_in_batches in Hd.
  rewrite (trip_count_size toks 0) in Hd
    by (unfold DEFAULT_CONTEXT_SIZE, OVERFLOW_HEADROOM, Int32.INT_MAX in *; lia).
  destruct (decode_batches_fits E toks 0 false ltac:(lia) Hfits
              (length toks) 0%nat s0 r s1 eq_refl Hd)
    as (j & _ & _ & Hlt & Hkv1 & Hc1 & Hs1 & _).
  exists j. split; [exact (Hlt Hr)|].
  subst s0. cbn [kv current_position system_prompt_position app] in Hkv1, Hc1, Hs1.
  unfold frame in Hf. cbn in Hf.
  injection Hf as _ _ _ _ _ Hstop _ _ _.
  split; [exact Hkv1|]. split; [exact Hc1|]. split; [exact Hs1 | exact Hstop].
Qed.

Lemma failed_system_prompt_keeps_decoded_witness :
  let r := process_system_prompt_ffi TightEngine.engine (Some "Hi"%string)
             ByteEngine.prepared in
  exists j,
    (j < length (system_tokens TightEngine.engine "Hi"))%nat /\
    kv (snd r) = map (cell_at (system_tokens TightEngine.engine "Hi") 0) (seq 0 j) /\
    current_position (snd r) = 0 /\ system_prompt_position (snd r) = 0 /\
    stop_generation_position (snd r) = 0.
Proof.
  intros r.
  apply (failed_system_prompt_keeps_decoded TightEngine.engine ByteEngine.prepared
           (snd r) "Hi").
  - vm_compute. reflexivity.
  - vm_compute. reflexivity.
Defined.

(** ** Calls that return the null pointer with the turn still open *)

Section OpenTurn.

Variable E : Engine.

(** One call below the limit with the stop position ahead: the token is
    sampled and accepted, one batch goes to the engine, and what follows
    depends on the engine's status and on the token. *)
Lemma generate_next_token_ffi_outcome s ctx sm :
  g_context s = Some ctx -> g_sampler s = Some sm ->
  0 <= current_position s < DEFAULT_CONTEXT_SIZE - OVERFLOW_HEADROOM ->
  current_position s < stop_generation_position s ->
  let tok := llama_sampler_sample E sm (kv s) in
  let batch := [mk_entry tok (current_position s) [0] true] in
  let st := llama_decode_status E (kv s) batch in
  let r := generate_next_token_ffi E s in
  trace (snd r) = trace s ++ [call_decode batch st] /\
  g_context (snd r) = Some ctx /\
  g_sampler (snd r) = Some (llama_sampler_accept E sm tok) /\
  stop_generation_position (snd r) = stop_generation_position s /\
  (st <> 0 ->
   fst r = None /\ current_position (snd r) = current_position s /\
   kv (snd r) = kv s) /\
  (st = 0 ->
   current_position (snd r) = current_position s + 1 /\
   kv (snd r) = kv s ++ [mk_cell 0 (current_position s) tok] /\
   (llama_vocab_is_eog E tok = true ->
    fst r = None /\ cached_token_chars (snd r) = cached_token_chars s /\
    assistant_ss (snd r) = assistant_ss s)).
Proof.
  destruct s as [m c b sa msgs spp cur stop cached ss rb mem tr].
  cbn [g_context g_sampler current_position stop_generation_position kv trace
       cached_token_chars assistant_ss].
  intros -> -> Hcur Hstop.
  unfold generate_next_token_ffi.
  cbn [g_context g_sampler current_position stop_generation_position].
  destruct (Z.geb_spec cur (DEFAULT_CONTEXT_SIZE - OVERFLOW_HEADROOM)); [lia|].
  cbn [current_position stop_generation_position].
  destruct (Z.geb_spec cur stop); [lia|].
  unfold llama_decode. cbn -[is_valid_utf8].
  assert (Hadd : Int32.add cur 1 = cur + 1).
  { unfold Int32.add. apply int32_small.
    unfold DEFAULT_CONTEXT_SIZE, OVERFLOW_HEADROOM, Int32.INT_MAX in *. lia. }
  destruct (Z.eqb_spec (llama_decode_status E mem
                          [mk_entry (llama_sampler_sample E sm mem) cur [0] true]) 0)
    as [Hst|Hst]; cbn -[is_valid_utf8].
  - destruct (llama_vocab_is_eog E (llama_sampler_sample E sm mem)) eqn:Heog.
    + cbn. rewrite Hadd.
      split; [reflexivity|]. split; [reflexivity|]. split; [reflexivity|].
      split; [reflexivity|]. split; [intros Hne; contradiction|].
      intros _. split; [reflexivity|]. split; [reflexivity|].
      intros _. split; [reflexivity|]. split; reflexivity.
    + unfold emit_token_chars. cbn -[is_valid_utf8].
      destruct (is_valid_utf8 _); cbn; rewrite Hadd;
        (split; [reflexivity|]; split; [reflexivity|]; split; [reflexivity|];
         split; [reflexivity|]; split; [intros Hne; contradiction|];
         intros _; split; [reflexivity|]; split; [reflexivity|];
         intros Habs; discriminate Habs).
  - split; [reflexivity|]. split; [reflexivity|]. split; [reflexivity|].
    split; [reflexivity|].
    split; [intros _; split; [reflexivity|]; split; reflexivity|].
    intros Habs. contradiction.
Qed.

End OpenTurn.

(** X19: an end-of-generation token does not close the turn.  When the
    sampled token is an end-of-generation token and its decode succeeds,
    [generate_next_token_ffi] returns the null pointer, but the token is in
    the engine memory, [current_position] has moved one on, and the stop
    position and the pending bytes are as before; with the stop position
    still ahead, the next call samples again and hands another batch to the
    engine at the next position. *)
Theorem end_of_generation_leaves_turn_open (E : Engine) (s : state)
    (ctx : llama_context) (sm : llama_sampler) :
  let tok := llama_sampler_sample E sm (kv s) in
  let r := generate_next_token_ffi E s in
  let sm2 := llama_sampler_accept E sm tok in
  let tok2 := llama_sampler_sample E sm2 (kv (snd r)) in
  g_context s = Some ctx -> g_sampler s = Some sm ->
  0 <= current_position s ->
  current_position s + 1 < stop_generation_position s ->
  stop_generation_position s <= DEFAULT_CONTEXT_SIZE - OVERFLOW_HEADROOM ->
  llama_decode_status E (kv s) [mk_entry tok (current_position s) [0] true] = 0 ->
  llama_vocab_is_eog E tok = true ->
  fst r = None /\
  current_position (snd r) = current_position s + 1 /\
  kv (snd r) = kv s ++ [mk_cell 0 (current_position s) tok] /\
  stop_generation_position (snd r) = stop_generation_position s /\
  cached_token_chars (snd r) = cached_token_chars s /\
  assistant_ss (snd r) = assistant_ss s /\
  exists st2,
    trace (snd (generate_next_token_ffi E (snd r)))
    = trace (snd r) ++ [call_decode [mk_entry tok2 (current_position s + 1) [0] true] st2].
Proof.
  intros tok r sm2 tok2 Hctx Hsm Hcur Hahead Hstop Hst Heog.
  destruct (generate_next_token_ffi_outcome E s ctx sm Hctx Hsm ltac:(lia) ltac:(lia))
    as (_ & Hctx1 & Hsm1 & Hstop1 & _ & Hok).
  fold tok in Hsm1, Hok. fold r in Hctx1, Hsm1, Hstop1, Hok.
  destruct (Hok Hst) as (Hcur1 & Hkv1 & Hnull).
  destruct (Hnull Heog) as (Hr & Hcached & Hss).
  split; [exact Hr|]. split; [exact Hcur1|]. split; [exact Hkv1|].
  split; [exact Hstop1|]. split; [exact Hcached|]. split; [exact Hss|].
  destruct (generate_next_token_ffi_outcome E (snd r) ctx sm2 Hctx1 Hsm1)
    as (Htr2 & _); [lia | lia |].
  rewrite Hcur1 in Htr2. eexists. exact Htr2.
Qed.

Lemma end_of_generation_leaves_turn_open_witness :
  let r := generate_next_token_ffi EogEngine.engine ByteEngine.after_hi in
  fst r = None /\
  current_position (snd r) = current_position ByteEngine.after_hi + 1 /\
  exists st2,
    trace (snd (generate_next_token_ffi EogEngine.engine (snd r)))
    = trace (snd r)
      ++ [call_decode [mk_entry 97 (current_position ByteEngine.after_hi + 1) [0] true]
            st2].
Proof.
  intros r.
  destruct (end_of_generation_leaves_turn_open EogEngine.engine ByteEngine.after_hi
              1%nat 0%nat) as (H1 & H2 & _ & _ & _ & _ & H3).
  - reflexivity.
  - reflexivity.
  - vm_compute. discriminate.
  - vm_compute. reflexivity.
  - vm_compute. discriminate.
  - reflexivity.
  - reflexivity.
  - split; [exact H1|]. split; [exact H2 | exact H3].
Defined.

(** X20: a refused decode costs a sample and leaves the turn open.  When
    the engine refuses the batch of the sampled token,
    [generate_next_token_ffi] returns the null pointer with the position,
    the stop position and the engine memory as before, but the sampler has
    accepted the token; the next call samples from that sampler and hands
    a batch to the engine at the same position. *)
Theorem refused_decode_keeps_accepted_sample (E : Engine) (s : state)
    (ctx : llama_context) (sm : llama_sampler) :
  let tok := llama_sampler_sample E sm (kv s) in
  let batch := [mk_entry tok (current_position s) [0] true] in
  let r := generate_next_token_ffi E s in
  let sm2 := llama_sampler_accept E sm tok in
  let tok2 := llama_sampler_sample E sm2 (kv s) in
  g_context s = Some ctx -> g_sampler s = Some sm ->
  0 <= current_position s < DEFAULT_CONTEXT_SIZE - OVERFLOW_HEADROOM ->
  current_position s < stop_generation_position s ->
  llama_decode_status E (kv s) batch <> 0 ->
  fst r = None /\
  current_position (snd r) = current_position s /\
  stop_generation_position (snd r) = stop_generation_position s /\
  kv (snd r) = kv s /\
  g_sampler (snd r) = Some sm2 /\
  trace (snd r) = trace s ++ [call_decode batch (llama_decode_status E (kv s) batch)] /\
  exists st2,
    trace (snd (generate_next_token_ffi E (snd r)))
    = trace (snd r) ++ [call_decode [mk_entry tok2 (current_position s) [0] true] st2].
Proof.
  intros tok batch r sm2 tok2 Hctx Hsm Hcur Hahead Hst.
  destruct (generate_next_token_ffi_outcome E s ctx sm Hctx Hsm Hcur Hahead)
    as (Htr & Hctx1 & Hsm1 & Hstop1 & Hrefused & _).
  fold tok in Htr, Hsm1, Hrefused. fold batch in Htr, Hrefused.
  fold r in Htr, Hctx1, Hsm1, Hstop1, Hrefused.
  destruct (Hrefused Hst) as (Hr & Hcur1 & Hkv1).
  split; [exact Hr|]. split; [exact Hcur1|]. split; [exact Hstop1|].
  split; [exact Hkv1|]. split; [exact Hsm1|]. split; [exact Htr|].
  destruct (generate_next_token_ffi_outcome E (snd r) ctx sm2 Hctx1 Hsm1)
    as (Htr2 & _); [lia | lia |].
  rewrite Hcur1, Hkv1 in Htr2. eexists. exact Htr2.
Qed.

Lemma refused_decode_keeps_accepted_sample_witness :
  let r := generate_next_token_ffi TightEngine.engine ByteEngine.after_hi in
  fst r = None /\
  current_position (snd r) = current_position ByteEngine.after_hi /\
  g_sampler (snd r) = Some 1%nat.
Proof.
  intros r.
  destruct (refused_decode_keeps_accepted_sample TightEngine.engine ByteEngine.after_hi
              1%nat 0%nat) as (H1 & H2 & _ & _ & H3 & _).
  - reflexivity.
  - reflexivity.
  - vm_compute. split; [discriminate | reflexivity].
  - vm_compute. reflexivity.
  - vm_compute. discriminate.
  - split; [exact H1|]. split; [exact H2 | exact H3].
Defined.
